(** * ABCIE shift scheduler: the assignment engine of [streamlit_shift_app.py]

    A shallow embedding of the scheduling engine ([generate_schedule]), of the
    roster-store operations it relies on ([add_or_update_employee],
    [get_employees], [update_points], [reset_points]) and of the
    "Generate" button handler, followed by the properties of the engine;
    then the rest of the program: [delete_employees], the forms of the
    sidebar, the demo data and the matrix of [export_schedule_as_matrix].

    Conventions of the embedding.
    - A Python [str] is a [string]; its characters are the code points
      below 256.  Comparison of strings is code-point lexicographic, as in
      Python.
    - A [datetime] at midnight (the only ones the program builds) is its
      proleptic Gregorian ordinal, a [Z] between [MINORDINAL] and
      [MAXORDINAL] ([datetime.toordinal]); arithmetic that leaves the range
      raises [OverflowError].  [strftime] is the one of CPython 3.11 on glibc:
      ["%Y"] prints the year without padding, so the text of a day before
      1000-01-01 has fewer than four year digits and [strptime], which asks
      for four, rejects it.
    - The SQLite table [employees] is the list of its rows in scan order; a
      column that may hold NULL is an [option]; the primary key is the
      hypothesis [NoDup (sql.name <$> conn)] where a property needs it.
      The integer columns hold INTEGER values, which are 64-bit: binding a
      Python int outside [int64] raises [OverflowError].  A sum
      [points + ?] that leaves the 64-bit integers is a REAL in SQLite, a
      value the table of the embedding cannot hold: [update_points] is the
      statement on the integers, and what is proved of it alone says so in
      its hypotheses.  The frame of [get_employees] keeps the integers of
      the table: pandas does so for a column without NULL and, holding a
      column with a NULL as [float64], for its integers up to [2 ^ 53] in
      absolute value.
    - A raised exception is a [Raise e] result; the store is threaded through
      every call that takes [conn].
    - The one loop without a bound in its header, [while current <= end],
      takes fuel; the properties show how much is enough. *)

From Stdlib Require Import ZArith Lia List Bool String Ascii.
From Stdlib Require OrderedTypeEx.
From stdpp Require Import base option list sorting gmap strings.
Import ListNotations.
Local Open Scope Z_scope.

(** ** Python string methods used by the program *)

Module pystr.

(** [str.isspace] on one character (code points below 256). *)
Definition isspace (c : ascii) : bool :=
  let n := Z.of_N (N_of_ascii c) in
  ((9 <=? n) && (n <=? 13)) || ((28 <=? n) && (n <=? 32)) || (n =? 133) || (n =? 160).

Fixpoint lstrip (s : string) : string :=
  match s with
  | String c s' => if isspace c then lstrip s' else s
  | EmptyString => EmptyString
  end.

Fixpoint rstrip (s : string) : string :=
  match s with
  | EmptyString => EmptyString
  | String c s' =>
      match rstrip s' with
      | EmptyString => if isspace c then EmptyString else String c EmptyString
      | r => String c r
      end
  end.

(** [s.strip()] *)
Definition strip (s : string) : string := rstrip (lstrip s).

(** [s.split(sep)] for a one-character separator. *)
Fixpoint split (sep : ascii) (s : string) : list string :=
  match s with
  | EmptyString => [EmptyString]
  | String c s' =>
      if Ascii.eqb c sep then EmptyString :: split sep s'
      else match split sep s' with
           | w :: ws => String c w :: ws
           | [] => [String c EmptyString]
           end
  end.

(** [sep.join(l)] *)
Fixpoint join (sep : string) (l : list string) : string :=
  match l with
  | [] => EmptyString
  | [x] => x
  | x :: l' => x +:+ sep +:+ join sep l'
  end.

(** Truthiness of a value that is [None] or a string: [x if x else ...]. *)
Definition truthy (x : option string) : bool :=
  match x with
  | Some (String _ _) => true
  | _ => false
  end.

End pystr.

(** ** The part of Python's [datetime] the program uses *)

Module datetime.

Definition MINYEAR : Z := 1.
Definition MAXYEAR : Z := 9999.
Definition MINORDINAL : Z := 1.
Definition MAXORDINAL : Z := 3652059.

Definition _DAYS_IN_MONTH : list Z :=
  [-1; 31; 28; 31; 30; 31; 30; 31; 31; 30; 31; 30; 31].
Definition _DAYS_BEFORE_MONTH : list Z :=
  [-1; 0; 31; 59; 90; 120; 151; 181; 212; 243; 273; 304; 334].
Definition _DI400Y : Z := 146097.
Definition _DI100Y : Z := 36524.
Definition _DI4Y : Z := 1461.

Definition tbl (t : list Z) (i : Z) : Z := nth (Z.to_nat i) t 0.
Definition b2z (b : bool) : Z := if b then 1 else 0.

Definition _is_leap (year : Z) : bool :=
  (year mod 4 =? 0) && (negb (year mod 100 =? 0) || (year mod 400 =? 0)).

Definition _days_before_year (year : Z) : Z :=
  let y := year - 1 in y * 365 + y / 4 - y / 100 + y / 400.

Definition _days_in_month (year month : Z) : Z :=
  if (month =? 2) && _is_leap year then 29 else tbl _DAYS_IN_MONTH month.

Definition _days_before_month (year month : Z) : Z :=
  tbl _DAYS_BEFORE_MONTH month + b2z ((2 <? month) && _is_leap year).

Definition _ymd2ord (year month day : Z) : Z :=
  _days_before_year year + _days_before_month year month + day.

(** The month and day of the [n]-th day (from 0) of a year. *)
Definition month_day (leapyear : bool) (n : Z) : Z * Z :=
  let month := Z.shiftr (n + 50) 5 in
  let preceding :=
    tbl _DAYS_BEFORE_MONTH month + b2z ((2 <? month) && leapyear) in
  let '(month, preceding) :=
    if n <? preceding
    then (month - 1,
          preceding - (tbl _DAYS_IN_MONTH (month - 1)
                       + b2z ((month - 1 =? 2) && leapyear)))
    else (month, preceding) in
  (month, n - preceding + 1).

Definition _ord2ymd (n : Z) : Z * Z * Z :=
  let n := n - 1 in
  let n400 := n / _DI400Y in let n := n mod _DI400Y in
  let year := n400 * 400 + 1 in
  let n100 := n / _DI100Y in let n := n mod _DI100Y in
  let n4 := n / _DI4Y in let n := n mod _DI4Y in
  let n1 := n / 365 in let n := n mod 365 in
  let year := year + (n100 * 100 + n4 * 4 + n1) in
  if (n1 =? 4) || (n100 =? 4) then (year - 1, 12, 31)
  else
    let leapyear := (n1 =? 3) && (negb (n4 =? 24) || (n100 =? 3)) in
    let '(month, day) := month_day leapyear n in
    (year, month, day).

(** [d.weekday()]: Monday is 0, Sunday is 6. *)
Definition weekday (d : Z) : Z := (d + 6) mod 7.

(** *** [strftime("%Y-%m-%d")] *)

Definition digit (k : Z) : ascii := ascii_of_N (Z.to_N (48 + k mod 10)).
(** [fmt2 v rest] is ["%02d" % v + rest]; [fmt4] likewise with four digits. *)
Definition fmt2 (v : Z) (rest : string) : string :=
  String (digit (v / 10)) (String (digit v) rest).
Definition fmt4 (v : Z) (rest : string) : string :=
  String (digit (v / 1000)) (String (digit (v / 100)) (fmt2 v rest)).

(** ["%Y"] is the year as a decimal number, not padded: three digits or
    fewer for the years below 1000. *)
Definition fmt_year (v : Z) (rest : string) : string :=
  if v <? 10 then String (digit v) rest
  else if v <? 100 then fmt2 v rest
  else if v <? 1000 then String (digit (v / 100)) (fmt2 v rest)
  else fmt4 v rest.

Definition strftime (d : Z) : string :=
  let '(year, month, day) := _ord2ymd d in
  fmt_year year (String "-" (fmt2 month (String "-" (fmt2 day EmptyString)))).

(** *** [strptime(s, "%Y-%m-%d")]

    The format compiles to the regular expression
    [(\d\d\d\d)-(1[0-2]|0[1-9]|[1-9])-(3[0-1]|[1-2]\d|0[1-9]|[1-9]| [1-9])],
    matched at the start of the string; the alternatives of a group are
    tried from left to right. *)

Definition isdigit (c : ascii) : bool :=
  let n := Z.of_N (N_of_ascii c) in (48 <=? n) && (n <=? 57).
Definition digit_value (c : ascii) : Z := Z.of_N (N_of_ascii c) - 48.
Definition in_range (lo hi : Z) (c : ascii) : bool :=
  isdigit c && (lo <=? digit_value c) && (digit_value c <=? hi).

(** Matches of [1[0-2]|0[1-9]|[1-9]], in the order the matcher tries them. *)
Definition alt_month (s : string) : list (Z * string) :=
  match s with
  | String c1 r1 =>
      (match r1 with
       | String c2 r2 =>
           (if in_range 1 1 c1 && in_range 0 2 c2
            then [(10 + digit_value c2, r2)] else [])
           ++ (if in_range 0 0 c1 && in_range 1 9 c2
               then [(digit_value c2, r2)] else [])
       | EmptyString => []
       end)
      ++ (if in_range 1 9 c1 then [(digit_value c1, r1)] else [])
  | EmptyString => []
  end.

(** Matches of [3[0-1]|[1-2]\d|0[1-9]|[1-9]| [1-9]], in that order. *)
Definition alt_day (s : string) : list (Z * string) :=
  match s with
  | String c1 r1 =>
      (match r1 with
       | String c2 r2 =>
           (if in_range 3 3 c1 && in_range 0 1 c2
            then [(30 + digit_value c2, r2)] else [])
           ++ (if in_range 1 2 c1 && isdigit c2
               then [(10 * digit_value c1 + digit_value c2, r2)] else [])
           ++ (if in_range 0 0 c1 && in_range 1 9 c2
               then [(digit_value c2, r2)] else [])
       | EmptyString => []
       end)
      ++ (if in_range 1 9 c1 then [(digit_value c1, r1)] else [])
      ++ (match r1 with
          | String c2 r2 =>
              if Ascii.eqb c1 " " && in_range 1 9 c2
              then [(digit_value c2, r2)] else []
          | EmptyString => []
          end)
  | EmptyString => []
  end.

(** After a month alternative: the literal [-], then the day group.  The
    first day alternative that matches ends the match. *)
Definition after_month (ms : Z * string) : option (Z * Z * string) :=
  match ms with
  | (month, String c rest) =>
      if Ascii.eqb c "-"
      then match alt_day rest with
           | (day, rest') :: _ => Some (month, day, rest')
           | [] => None
           end
      else None
  | (_, EmptyString) => None
  end.

(** The match of the whole expression: year, month, day and the
    unconverted rest of the string. *)
Definition regex_match (s : string) : option (Z * Z * Z * string) :=
  match s with
  | String y1 (String y2 (String y3 (String y4 (String c rest)))) =>
      if isdigit y1 && isdigit y2 && isdigit y3 && isdigit y4 && Ascii.eqb c "-"
      then
        let year := 1000 * digit_value y1 + 100 * digit_value y2
                    + 10 * digit_value y3 + digit_value y4 in
        match omap after_month (alt_month rest) with
        | (month, day, rest') :: _ => Some (year, month, day, rest')
        | [] => None
        end
      else None
  | _ => None
  end.

(** [None] stands for the [ValueError] of [strptime]: no match, unconverted
    data, or a day that the month does not have. *)
Definition strptime (s : string) : option Z :=
  match regex_match s with
  | Some (year, month, day, EmptyString) =>
      if (MINYEAR <=? year) && (1 <=? day) && (day <=? _days_in_month year month)
      then Some (_ymd2ord year month day)
      else None
  | _ => None
  end.

End datetime.


(** ** The roster store: table [employees] *)

(** A row of the table, as stored.  [off_days] and [allowed_zones] hold
    comma-joined text; every column but the key may be NULL. *)
Module sql.
Record row := mk {
  name : string;
  points : option Z;
  max_points : option Z;
  off_days : option string;
  preferred_zone : option string;
  allowed_zones : option string
}.
End sql.

(** A row of the frame [get_employees] returns: the two text columns split
    into lists. *)
Module df.
Record row := mk {
  name : string;
  points : option Z;
  max_points : option Z;
  off_days : list string;
  preferred_zone : option string;
  allowed_zones : list string
}.
End df.

Abbreviation Conn := (list sql.row).

(** The exceptions the program meets, and the result of a call that returns
    or raises. *)
Inductive exn := ValueError | OverflowError.

Inductive outcome (A : Type) :=
| Ok (a : A)
| Raise (e : exn).
Arguments Ok {A} a.
Arguments Raise {A} e.

(** The Python ints that [sqlite3] binds to a statement: those of 64 bits.
    For any other, [execute] raises [OverflowError] and nothing is
    written. *)
Definition int64 (v : Z) : bool := (- 2 ^ 63 <=? v) && (v <? 2 ^ 63).

(** [INSERT OR IGNORE INTO employees ...]: the primary key [name] decides. *)
Definition insert_or_ignore (conn : Conn) (r : sql.row) : Conn :=
  if bool_decide (sql.name r ∈ map sql.name conn) then conn else conn ++ [r].

(** The result pairs the store after the call with what the call returned
    or raised.  The first [execute] binds [initial_points] and [max_points]:
    it raises before the store changes. *)
Definition add_or_update_employee (conn : Conn) (name : string)
    (initial_points max_points : Z) (off_days : option (list string))
    (preferred_zone : option string) (allowed_zones : option (list string))
  : Conn * outcome unit :=
  let off_days := default [] off_days in
  let allowed_zones := default [] allowed_zones in
  let off_days_str := pystr.join "," off_days in
  let allowed_str := pystr.join "," allowed_zones in
  if int64 initial_points && int64 max_points then
    let conn :=
      insert_or_ignore conn
        (sql.mk name (Some initial_points) (Some max_points) (Some off_days_str)
                preferred_zone (Some allowed_str)) in
    (map (fun r =>
            if String.eqb (sql.name r) name
            then sql.mk (sql.name r) (sql.points r) (Some max_points)
                        (Some off_days_str) preferred_zone (Some allowed_str)
            else r) conn,
     Ok tt)
  else (conn, Raise OverflowError).

Definition get_employees (conn : Conn) : list df.row :=
  map (fun r =>
         df.mk (sql.name r) (sql.points r) (sql.max_points r)
           (if pystr.truthy (sql.off_days r)
            then pystr.split "," (default EmptyString (sql.off_days r)) else [])
           (sql.preferred_zone r)
           (filter (fun s => s <> EmptyString)
              (if pystr.truthy (sql.allowed_zones r)
               then pystr.split "," (default EmptyString (sql.allowed_zones r))
               else [])))
      conn.

(** [UPDATE employees SET points = points + ? WHERE name = ?]; NULL plus a
    number is NULL.  This is the statement on INTEGER values: it is what
    SQLite does as long as [points] and every sum are 64-bit integers.
    [generate_schedule], its one caller, passes 1 or 2 for a person whose
    load then does not exceed the ceiling. *)
Definition update_points (conn : Conn) (name : string) (points : Z) : Conn :=
  map (fun r =>
         if String.eqb (sql.name r) name
         then sql.mk (sql.name r) ((fun p => p + points) <$> sql.points r)
                     (sql.max_points r) (sql.off_days r) (sql.preferred_zone r)
                     (sql.allowed_zones r)
         else r) conn.

Definition reset_points (conn : Conn) (names : option (list string)) : Conn :=
  map (fun r =>
         if match names with
            | None => true
            | Some names => bool_decide (sql.name r ∈ names)
            end
         then sql.mk (sql.name r) (Some 0) (sql.max_points r) (sql.off_days r)
                     (sql.preferred_zone r) (sql.allowed_zones r)
         else r) conn.

(** ** The scheduling engine *)

Definition ZONES : list string := ["A"; "B"; "C"; "I"; "E"]%string.

(** A row of the [schedule] list. *)
Module sched.
Record row := mk { Date : string; Shift : string; Employee : string; Points : Z }.
End sched.

(** A row of the [unassigned] list. *)
Module unas.
Record row := mk { Date : string; Zone : string; Reason : string }.
End unas.

Definition is_weekend (date_str : string) : outcome bool :=
  match datetime.strptime date_str with
  | Some d => Ok (5 <=? datetime.weekday d)
  | None => Raise ValueError
  end.

(** The variables of one call of [generate_schedule]: the store behind
    [conn], the two dictionaries and the two output lists. *)
Module run.
Record state := mk {
  conn : Conn;
  points_map : gmap string Z;
  assigned_last : gmap string Z;
  schedule : list sched.row;
  unassigned : list unas.row
}.
End run.

(** An element of [candidates]: [(pref_match, points, name)]. *)
Abbreviation Candidate := (bool * Z * string)%type.

(** The body of [for _, r in df.iterrows()]: the tuple appended for [r], if
    any. *)
Definition candidate (date_str : string) (current point_value : Z)
    (zone : string) (st : run.state) (assigned_today : gset string) (r : df.row)
  : option Candidate :=
  let name := df.name r in
  let points := default 0 (run.points_map st !! name) in
  let max_points := default 0 (df.max_points r) in
  let off_days := df.off_days r in
  let allowed : gset string := list_to_set (df.allowed_zones r) in
  let preferred := pystr.strip (default EmptyString (df.preferred_zone r)) in
  let last := run.assigned_last st !! name in
  let days_since_last :=
    match last with Some last => current - last | None => 9999 end in
  if bool_decide (date_str ∉ off_days)
     && bool_decide (name ∉ assigned_today)
     && (3 <=? days_since_last)
     && (points + point_value <=? max_points)
     && bool_decide (zone ∈ allowed)
  then let pref_match := String.eqb preferred zone in
       Some (pref_match, points, name)
  else None.

(** The sort key [lambda t: (-int(t[0]), t[1], t[2])] and the order of
    Python tuples on it. *)
Definition sort_key (t : Candidate) : Z * Z * string :=
  let '(pref_match, points, name) := t in
  (- (if pref_match then 1 else 0), points, name).

Definition key_ltb (k1 k2 : Z * Z * string) : bool :=
  let '(a1, b1, c1) := k1 in
  let '(a2, b2, c2) := k2 in
  (a1 <? a2) || ((a1 =? a2) && ((b1 <? b2) || ((b1 =? b2) && String.ltb c1 c2))).

(** [list.sort(key=...)] is stable: an element goes before the first one
    whose key is not smaller than its own. *)
Fixpoint insert_by_key (x : Candidate) (l : list Candidate) : list Candidate :=
  match l with
  | [] => [x]
  | y :: l' =>
      if key_ltb (sort_key y) (sort_key x) then y :: insert_by_key x l'
      else x :: l
  end.

Definition sort (l : list Candidate) : list Candidate :=
  foldr insert_by_key [] l.

(** The body of [for zone in ZONES]. *)
Definition zone_body (apply_points : bool) (date_str : string)
    (current point_value : Z) (s : run.state * gset string) (zone : string)
  : run.state * gset string :=
  let '(st, assigned_today) := s in
  let df := get_employees (run.conn st) in
  match df with
  | [] =>
      (run.mk (run.conn st) (run.points_map st) (run.assigned_last st) (run.schedule st)
             (run.unassigned st ++ [unas.mk date_str zone "No employees"]),
       assigned_today)
  | _ :: _ =>
      let candidates :=
        sort (omap (candidate date_str current point_value zone st assigned_today) df) in
      match candidates with
      | (_, _, chosen) :: _ =>
          (run.mk
             (if apply_points then update_points (run.conn st) chosen point_value
              else run.conn st)
             (<[chosen := default 0 (run.points_map st !! chosen) + point_value]>
                (run.points_map st))
             (<[chosen := current]> (run.assigned_last st))
             (run.schedule st ++ [sched.mk date_str zone chosen point_value])
             (run.unassigned st),
           {[chosen]} ∪ assigned_today)
      | [] =>
          (run.mk (run.conn st) (run.points_map st) (run.assigned_last st) (run.schedule st)
                 (run.unassigned st ++ [unas.mk date_str zone "No eligible employees"]),
           assigned_today)
      end
  end.

(** The body of [while current <= end], up to the advance of [current]. *)
Definition day_body (apply_points : bool) (current : Z) (st : run.state)
  : run.state * outcome unit :=
  let date_str := datetime.strftime current in
  match is_weekend date_str with
  | Raise e => (st, Raise e)
  | Ok weekend =>
      let point_value := if weekend then 2 else 1 in
      let assigned_today : gset string := ∅ in
      (fst (fold_left (zone_body apply_points date_str current point_value)
                      ZONES (st, assigned_today)),
       Ok tt)
  end.

(** [while current <= end: ...; current += timedelta(days=1)].  The advance
    raises [OverflowError] past [datetime.max].  [None]: the fuel ran out. *)
Fixpoint while_days (fuel : nat) (apply_points : bool) (end_ current : Z)
    (st : run.state) : option (run.state * outcome unit) :=
  match fuel with
  | O => None
  | S fuel' =>
      if current <=? end_ then
        match day_body apply_points current st with
        | (st', Raise e) => Some (st', Raise e)
        | (st', Ok _) =>
            if current + 1 <=? datetime.MAXORDINAL
            then while_days fuel' apply_points end_ (current + 1) st'
            else Some (st', Raise OverflowError)
        end
      else Some (st, Ok tt)
  end.

(** [points_map = {r["name"]: int(r["points"]) if pd.notna(r["points"]) else 0
    for _, r in base_df.iterrows()}] *)
Definition initial_points_map (base_df : list df.row) : gmap string Z :=
  fold_left (fun m r => <[df.name r := default 0 (df.points r)]> m) base_df ∅.

(** The result pairs the store after the call with what the call returned
    (the rows of the two frames) or raised. *)
Definition generate_schedule (fuel : nat) (conn : Conn)
    (start_date end_date : string) (apply_points : bool)
  : option (Conn * outcome (list sched.row * list unas.row)) :=
  match datetime.strptime start_date with
  | None => Some (conn, Raise ValueError)
  | Some current =>
      match datetime.strptime end_date with
      | None => Some (conn, Raise ValueError)
      | Some end_ =>
          let base_df := get_employees conn in
          let points_map := initial_points_map base_df in
          match while_days fuel apply_points end_ current
                  (run.mk conn points_map ∅ [] []) with
          | None => None
          | Some (st, Raise e) => Some (run.conn st, Raise e)
          | Some (st, Ok _) => Some (run.conn st, Ok (run.schedule st, run.unassigned st))
          end
      end
  end.

(** The handler of the "Generate" button: [start_date] and [end_date] are the
    dates of the two date inputs.  [inl msg] is the [st.error(msg)] branch. *)
Definition on_generate (fuel : nat) (conn : Conn) (start_date end_date : Z)
    (apply_points : bool)
  : option (Conn * (string + outcome (list sched.row * list unas.row))) :=
  if end_date <? start_date
  then Some (conn, inl "Start date must be on or before end date."%string)
  else
    match generate_schedule fuel conn (datetime.strftime start_date)
            (datetime.strftime end_date) apply_points with
    | Some (conn', r) => Some (conn', inr r)
    | None => None
    end.

(** The "Insert demo dataset" button: [for emp in demo_employees:
    add_or_update_employee(...)], for a list of
    [(name, initial, max, off, pref, allow)].  A call that raises ends the
    loop. *)
Fixpoint seed (demo_employees : list (string * Z * Z * list string * string * list string))
    (conn : Conn) : Conn * outcome unit :=
  match demo_employees with
  | [] => (conn, Ok tt)
  | (name, initial, max, off, pref, allow) :: demo_employees =>
      match add_or_update_employee conn name initial max (Some off)
              (if pystr.truthy (Some pref) then Some pref else None) (Some allow)
      with
      | (conn, Ok _) => seed demo_employees conn
      | (conn, Raise e) => (conn, Raise e)
      end
  end.

(** The list [demo_employees] of the source. *)
Definition demo_dataset : list (string * Z * Z * list string * string * list string) :=
  [("PGY1-A", 0, 10, ["2025-08-12"; "2025-08-20"], "A", ["A"; "B"; "C"]);
   ("PGY1-B", 0, 10, [], "B", ["A"; "B"; "C"]);
   ("PGY1-C", 0, 10, ["2025-08-25"], "C", ["A"; "B"; "C"]);
   ("R1-A", 0, 9, [], "A", ["A"; "B"; "C"]);
   ("R1-B", 0, 9, [], "B", ["A"; "B"; "C"]);
   ("R1-C", 0, 9, [], "C", ["A"; "B"; "C"]);
   ("R2-A", 0, 8, [], "A", ["A"; "B"; "C"; "I"]);
   ("R2-B", 0, 8, [], "B", ["A"; "B"; "C"; "I"]);
   ("R2-C", 0, 9, [], "C", ["A"; "B"; "C"; "I"]);
   ("R3-A", 0, 7, [], "I", ["A"; "B"; "C"; "I"; "E"]);
   ("R3-B", 0, 7, [], "I", ["A"; "B"; "C"; "I"; "E"]);
   ("R4-A", 0, 6, [], "I", ["A"; "B"; "C"; "I"; "E"]);
   ("R4-B", 0, 6, [], "I", ["A"; "B"; "C"; "I"; "E"]);
   ("R5-A", 0, 5, [], "E", ["A"; "B"; "C"; "I"; "E"]);
   ("R5-B", 0, 5, [], "E", ["A"; "B"; "C"; "I"; "E"]);
   ("R5-C", 0, 5, [], "", ["A"; "B"; "C"; "I"; "E"])]%string.

(** ** Rosters used as examples *)

(** Two persons who both prefer role B, [X] with load 0 and [Y] with load 3,
    both with ceiling 10 (scenario C of the specification). *)
Definition roster_xy : Conn :=
  (add_or_update_employee
     (add_or_update_employee [] "X" 0 10 None (Some "B"%string) (Some ["B"%string])).1
     "Y" 3 10 None (Some "B"%string) (Some ["B"%string])).1.

(** One person whose [max_points] is NULL and whose stored load is negative. *)
Definition roster_null : Conn :=
  [sql.mk "N" (Some (-2)) None None None (Some "A"%string)].

(** One person, eligible for role A only, with ceiling 1 (scenario B). *)
Definition roster_one : Conn :=
  (add_or_update_employee [] "P" 0 1 (Some []) None (Some ["A"%string])).1.

(** One person without a ceiling and without a stored load, and one with
    both. *)
Definition roster_nx : Conn :=
  [sql.mk "N" None None None None (Some "A"%string);
   sql.mk "X" (Some 0) (Some 10) None (Some "A"%string) (Some "A"%string)].

(** The roster of the "Insert demo dataset" button, pressed on an empty
    store. *)
Definition demo_employees : Conn := (seed demo_dataset []).1.

(** The run of 2025-08-01 (a Friday) to 2025-08-04 over [roster_xy], and its
    two lists. *)
Definition run_xy :=
  Eval vm_compute in generate_schedule 6 roster_xy "2025-08-01" "2025-08-04" false.
Definition sch_xy : list sched.row :=
  Eval vm_compute in
    match run_xy with Some (_, Ok (sch, _)) => sch | _ => [] end.
Definition uns_xy : list unas.row :=
  Eval vm_compute in
    match run_xy with Some (_, Ok (_, uns)) => uns | _ => [] end.

(** The run of 2025-08-01 alone over [roster_nx], and its two lists. *)
Definition run_nx :=
  Eval vm_compute in generate_schedule 3 roster_nx "2025-08-01" "2025-08-01" true.
Definition sch_nx : list sched.row :=
  Eval vm_compute in
    match run_nx with Some (_, Ok (sch, _)) => sch | _ => [] end.
Definition uns_nx : list unas.row :=
  Eval vm_compute in
    match run_nx with Some (_, Ok (_, uns)) => uns | _ => [] end.

(** ** Vocabulary of the properties *)

(** The check of [datetime.month_day] on the [n]-th day of a year: a month,
    a day of that month, and [n] days before it. *)
Definition month_day_ok (leapyear : bool) (n : Z) : bool :=
  let '(m, d) := datetime.month_day leapyear n in
  (1 <=? m) && (m <=? 12) && (1 <=? d) &&
  (d <=? (if (m =? 2) && leapyear then 29
          else datetime.tbl datetime._DAYS_IN_MONTH m)) &&
  (datetime.tbl datetime._DAYS_BEFORE_MONTH m
   + datetime.b2z ((2 <? m) && leapyear) + d =? n + 1).

(** The cost of a day: 2 on Saturday and Sunday, 1 otherwise. *)
Definition dayLoadCost (d : Z) : Z :=
  if (datetime.weekday d =? 5) || (datetime.weekday d =? 6) then 2 else 1.

(** The load ceiling of a person: a missing [max_points] counts as 0. *)
Definition loadCeiling (r : df.row) : Z := default 0 (df.max_points r).

(** The day an assignment row is for. *)
Definition day_of (r : sched.row) : option Z := datetime.strptime (sched.Date r).

(** The load [name] accrued from the assignment rows [l]. *)
Definition accrued (name : string) (l : list sched.row) : Z :=
  foldr (fun r acc =>
           if String.eqb (sched.Employee r) name then sched.Points r + acc else acc)
        0 l.

(** The stored load of [name]: the [points] of its row in the store, 0 when
    the column is NULL or the store has no row of that name. *)
Definition stored_load (conn0 : Conn) (name : string) : Z :=
  match filter (fun q => sql.name q = name) conn0 with
  | q :: _ => default 0 (sql.points q)
  | [] => 0
  end.

(** The in-run load of [name] in a run that started from the store [conn0]
    and has emitted the rows [l]: the stored load at the start plus the cost
    of the person's rows. *)
Definition in_run_load (conn0 : Conn) (l : list sched.row) (name : string) : Z :=
  stored_load conn0 name + accrued name l.

(** The tally of the engine for [name]: what the engine read from the store
    [conn0] at the start of the run plus the cost of the rows [l]. *)
Definition load (conn0 : Conn) (l : list sched.row) (name : string) : Z :=
  default 0 (initial_points_map (get_employees conn0) !! name) + accrued name l.

(** The day of the latest row of [name] in [l], if there is one. *)
Definition last_assignment (name : string) (l : list sched.row) : option Z :=
  fold_left (fun acc r =>
               if String.eqb (sched.Employee r) name then day_of r else acc)
            l None.

(** The five conditions of the eligibility filter, on the history of the run:
    [l] holds the rows emitted before the pair (day [d], role [zone]) is
    considered, and the load is the stored load at the start plus the cost of
    the person's rows in [l]. *)
Record admissible (conn0 : Conn) (l : list sched.row) (d : Z) (zone : string)
    (r : df.row) : Prop := {
  adm_not_blocked : datetime.strftime d ∉ df.off_days r;
  adm_not_today :
    ¬ ∃ a, a ∈ l ∧ sched.Employee a = df.name r
           ∧ sched.Date a = datetime.strftime d;
  adm_cooldown :
    match last_assignment (df.name r) l with
    | Some last => 3 <= d - last
    | None => True
    end;
  adm_ceiling : in_run_load conn0 l (df.name r) + dayLoadCost d <= loadCeiling r;
  adm_role : zone ∈ df.allowed_zones r
}.

(** The same five conditions on the tally of the engine: what the test of
    the inner loop amounts to in a state the run reaches. *)
Record passes (conn0 : Conn) (l : list sched.row) (d : Z) (zone : string)
    (r : df.row) : Prop := {
  pass_not_blocked : datetime.strftime d ∉ df.off_days r;
  pass_not_today :
    ¬ ∃ a, a ∈ l ∧ sched.Employee a = df.name r
           ∧ sched.Date a = datetime.strftime d;
  pass_cooldown :
    match last_assignment (df.name r) l with
    | Some last => 3 <= d - last
    | None => True
    end;
  pass_ceiling : load conn0 l (df.name r) + dayLoadCost d <= loadCeiling r;
  pass_role : zone ∈ df.allowed_zones r
}.

(** The person of the row [r] prefers the role [zone]: the stored preferred
    role, white space around it left out, is [zone]. *)
Definition prefers (r : df.row) (zone : string) : bool :=
  String.eqb (pystr.strip (default EmptyString (df.preferred_zone r))) zone.

(** The ranking of the candidates: a preference match first, then the lower
    load, then the smaller name. *)
Definition mismatch (c : Candidate) : Z := if c.1.1 then 0 else 1.

Definition ranks_before (c1 c2 : Candidate) : Prop :=
  mismatch c1 < mismatch c2
  ∨ (mismatch c1 = mismatch c2
     ∧ (c1.1.2 < c2.1.2
        ∨ (c1.1.2 = c2.1.2 ∧ String.ltb c1.2 c2.2 = true))).

(** [not_after c1 c2]: [c1] is ranked at or before [c2]. *)
Definition not_after (c1 c2 : Candidate) : Prop := ¬ ranks_before c2 c1.

(** The (date, role) pairs of a range of days, in the order of the loops. *)
Definition slots (start end_ : Z) : list (string * string) :=
  d ← seqZ start (end_ - start + 1);
  (fun zone => (datetime.strftime d, zone)) <$> ZONES.

Definition sched_slot (r : sched.row) : string * string :=
  (sched.Date r, sched.Shift r).
Definition unas_slot (r : unas.row) : string * string :=
  (unas.Date r, unas.Zone r).

(** The columns of a row that a run never writes, in the store and in the
    frame. *)
Definition attrs (r : sql.row) :=
  (sql.name r, sql.max_points r, sql.off_days r, sql.preferred_zone r,
   sql.allowed_zones r).
Definition df_attrs (r : df.row) :=
  (df.name r, df.max_points r, df.off_days r, df.preferred_zone r,
   df.allowed_zones r).

(** Two states of a run that differ at most in the order of the rows of the
    store. *)
Definition same_run (st1 st2 : run.state) : Prop :=
  run.conn st1 ≡ₚ run.conn st2
  ∧ run.points_map st1 = run.points_map st2
  ∧ run.assigned_last st1 = run.assigned_last st2
  ∧ run.schedule st1 = run.schedule st2
  ∧ run.unassigned st1 = run.unassigned st2.

(** The ordinal of 1000-01-01, the first day whose text [strftime] gives
    with a year of four digits. *)
Definition Y1000 : Z := 364878.

(** The state of a run at the start of its loops. *)
Definition initial (conn0 : Conn) : run.state :=
  run.mk conn0 (initial_points_map (get_employees conn0)) ∅ [] [].

(** [reaches apply_points conn0 start end_ d todo st today]: the run over
    the days [start] to [end_] from the store [conn0] is in day [d] with the
    roles [todo] still to handle, in state [st] with [assigned_today = today].
    The days are days of the calendar from 1000-01-01 on: the loop raises on
    the first day of any other range. *)
Inductive reaches (apply_points : bool) (conn0 : Conn) (start end_ : Z)
  : Z → list string → run.state → gset string → Prop :=
| reaches_start :
    start <= end_ →
    Y1000 <= start →
    end_ <= datetime.MAXORDINAL →
    reaches apply_points conn0 start end_ start ZONES (initial conn0) ∅
| reaches_zone d zone todo st today :
    reaches apply_points conn0 start end_ d (zone :: todo) st today →
    reaches apply_points conn0 start end_ d todo
      (zone_body apply_points (datetime.strftime d) d (dayLoadCost d)
         (st, today) zone).1
      (zone_body apply_points (datetime.strftime d) d (dayLoadCost d)
         (st, today) zone).2
| reaches_day d st today :
    reaches apply_points conn0 start end_ d [] st today →
    d < end_ →
    reaches apply_points conn0 start end_ (d + 1) ZONES st ∅.

(** ** The rest of the program: deletion, the sidebar forms, the matrix *)

(** [delete_employees]: [names] is one name or a list of names; the result
    pairs the store with the count [cursor.rowcount or 0].  An empty list
    returns 0 without a statement. *)
Definition delete_employees (conn : Conn) (names : string + list string)
  : Conn * Z :=
  let names := match names with inl name => [name] | inr names => names end in
  match names with
  | [] => (conn, 0)
  | _ :: _ =>
      (filter (fun r => sql.name r ∉ names) conn,
       Z.of_nat (length (filter (fun r => sql.name r ∈ names) conn)))
  end.

(** [[s.strip() for s in text.split(",") if s.strip()]], the reading of the
    three comma-separated text inputs of the sidebar. *)
Definition split_strip (text : string) : list string :=
  pystr.strip <$> filter (fun s => pystr.strip s <> EmptyString) (pystr.split "," text).

(** The "Save Employee" branch of the form: [initial] and [max_pts] are the
    values of the two number inputs, which the form keeps between 0 and 999;
    [preferred] is the choice of the select box, [""] for none. *)
Definition on_save_employee (conn : Conn) (name : string) (initial max_pts : Z)
    (off_days preferred : string) (allowed : list string) : Conn * outcome unit :=
  let off_list := split_strip off_days in
  add_or_update_employee conn name initial max_pts (Some off_list)
    (if pystr.truthy (Some preferred) then Some preferred else None)
    (Some allowed).

(** The "Delete" button: the store and the count shown. *)
Definition on_delete (conn : Conn) (del_names_raw : string) : Conn * Z :=
  delete_employees conn (inr (split_strip del_names_raw)).

(** The "Reset Points Now" button: [inl] is the [st.info] message, [inr] the
    [st.error] one. *)
Definition on_reset (conn : Conn) (reset_mode target_names_raw : string)
  : Conn * (string + string) :=
  if String.eqb reset_mode "All"
  then (reset_points conn None, inl "All points reset to 0."%string)
  else
    let names := split_strip target_names_raw in
    match names with
    | _ :: _ =>
        (reset_points conn (Some names),
         inl ("Reset points for: " +:+ pystr.join ", " names)%string)
    | [] => (conn, inr "Please enter at least one name."%string)
    end.

(** *** [export_schedule_as_matrix], up to the frame [mat]

    The frame [schedule_df] is the list of its rows; it is the frame
    [pd.DataFrame(schedule)] of [generate_schedule], which has no column at
    all when the list is empty.  The cells of [mat] are Python objects
    (dtype [object]): text in the date rows, integers in the row
    ["Points"].  The Excel bytes written from [mat] are not modelled. *)

Module export.
Inductive exn := ValueError | KeyError.

(** The frame [mat]: its date labels, its column labels, the text cells of
    the date rows by (date, column) and the cells of the row ["Points"] by
    column. *)
Record frame := mk {
  index : list string;
  columns : list string;
  cells : gmap (string * string) string;
  points : gmap string Z
}.
End export.

(** [s in cur] on strings. *)
Fixpoint contains (s cur : string) : bool :=
  String.prefix s cur
  || match cur with
     | EmptyString => false
     | String _ cur' => contains s cur'
     end.

(** [dates = [(start + timedelta(days=i)).strftime("%Y-%m-%d")
              for i in range((end - start).days + 1)]] *)
Definition export_dates (start end_ : Z) : list string :=
  (fun i => datetime.strftime (start + i)) <$> seqZ 0 (end_ - start + 1).

(** [sorted(l)] on strings: the order of the code points. *)
Definition str_le (a b : string) : Prop := String.leb a b = true.

#[global] Instance str_le_dec : RelDecision str_le.
Proof. intros a b. unfold str_le. apply _. Defined.

(** The list is [unique()] of a column, so its elements are distinct and the
    sorted list does not depend on the order [unique()] gives them. *)
Definition sorted (l : list string) : list string := merge_sort str_le l.

(** The value of the cell [cur] after a row with shift [s]. *)
Definition cell_update (cur s : string) : string :=
  if String.eqb cur EmptyString then s
  else if negb (contains s cur) then (cur +:+ "/" +:+ s)%string
  else cur.

(** The body of [for _, r in schedule_df.iterrows()].  With a label that
    occurs twice, [mat.at] yields a series and the test [cur == ""] raises. *)
Definition cell_step (mat : export.frame) (r : sched.row)
  : export.exn + export.frame :=
  let d := sched.Date r in
  let e := sched.Employee r in
  let s := sched.Shift r in
  if bool_decide (d ∈ export.index mat) && bool_decide (e ∈ export.columns mat)
  then
    if bool_decide (length (filter (fun x => x = d) (export.index mat)) = 1%nat)
       && bool_decide (length (filter (fun x => x = e) (export.columns mat)) = 1%nat)
    then
      let cur := default EmptyString (export.cells mat !! (d, e)) in
      inr (export.mk (export.index mat) (export.columns mat)
             (<[(d, e) := cell_update cur s]> (export.cells mat))
             (export.points mat))
    else inl export.ValueError
  else inr mat.

(** [schedule_df.groupby("Employee")["Points"].sum()] *)
Definition point_sum (schedule_df : list sched.row) : gmap string Z :=
  fold_left (fun m r =>
               <[sched.Employee r := default 0 (m !! sched.Employee r) + sched.Points r]> m)
            schedule_df ∅.

Definition export_schedule_as_matrix (schedule_df : list sched.row)
    (employees_df : list df.row) (start_date end_date : string)
  : export.exn + export.frame :=
  match datetime.strptime start_date with
  | None => inl export.ValueError
  | Some start =>
      match datetime.strptime end_date with
      | None => inl export.ValueError
      | Some end_ =>
          let dates := export_dates start end_ in
          match
            match employees_df with
            | _ :: _ => inr (df.name <$> employees_df)
            | [] =>
                match schedule_df with
                | [] => inl export.KeyError
                | _ :: _ => inr (sorted (remove_dups (sched.Employee <$> schedule_df)))
                end
            end
          with
          | inl e => inl e
          | inr employees =>
              let mat :=
                export.mk dates employees
                  (list_to_map (d ← dates; (fun e => ((d, e), EmptyString)) <$> employees))
                  ∅ in
              match
                fold_left (fun acc r =>
                             match acc with
                             | inr mat => cell_step mat r
                             | inl e => inl e
                             end)
                          schedule_df (inr mat)
              with
              | inl e => inl e
              | inr mat =>
                  let point_sum := point_sum schedule_df in
                  let zero : gmap string Z :=
                    list_to_map ((fun e => (e, 0)) <$> employees) in
                  inr (export.mk (export.index mat) (export.columns mat)
                         (export.cells mat)
                         (fold_left (fun m emp =>
                                       <[emp := default 0 (point_sum !! emp)]> m)
                                    employees zero))
              end
          end
      end
  end.

(** What the "Generate" button ends with: the error message of the range
    check, an exception of [generate_schedule], an exception of the export, or
    the two tables and the frame of the download. *)
Inductive generated :=
| Rejected (msg : string)
| Raised (e : exn)
| ExportRaised (df_schedule : list sched.row) (unassigned : list unas.row)
    (e : export.exn)
| Exported (df_schedule : list sched.row) (unassigned : list unas.row)
    (mat : export.frame).

(** The "Generate" button, past the two tables: the export of the schedule
    with the roster read again from the store. *)
Definition on_generate_export (fuel : nat) (conn : Conn) (start_date end_date : Z)
    (apply_points : bool) : option (Conn * generated) :=
  match on_generate fuel conn start_date end_date apply_points with
  | None => None
  | Some (conn', inl msg) => Some (conn', Rejected msg)
  | Some (conn', inr (Raise e)) => Some (conn', Raised e)
  | Some (conn', inr (Ok (df_schedule, unassigned))) =>
      let employees_df := get_employees conn' in
      match export_schedule_as_matrix df_schedule employees_df
              (datetime.strftime start_date) (datetime.strftime end_date) with
      | inl e => Some (conn', ExportRaised df_schedule unassigned e)
      | inr mat => Some (conn', Exported df_schedule unassigned mat)
      end
  end.

(** ** Vocabulary of the further properties *)

(** The character [c] occurs in [s]. *)
Fixpoint mentions (c : ascii) (s : string) : bool :=
  match s with
  | EmptyString => false
  | String c' s' => Ascii.eqb c' c || mentions c s'
  end.

(** The name of an entry of the demo list, and the four columns an upsert
    of the entry writes. *)
Definition emp_name (emp : string * Z * Z * list string * string * list string)
  : string := emp.1.1.1.1.1.

Definition emp_columns (emp : string * Z * Z * list string * string * list string)
  : option Z * option string * option string * option string :=
  let '(_, _, max, off, pref, allow) := emp in
  (Some max, Some (pystr.join "," off),
   if pystr.truthy (Some pref) then Some pref else None,
   Some (pystr.join "," allow)).

Definition columns_of (r : sql.row)
  : option Z * option string * option string * option string :=
  (sql.max_points r, sql.off_days r, sql.preferred_zone r, sql.allowed_zones r).

(** A text input that holds white space and commas only. *)
Fixpoint blank (s : string) : bool :=
  match s with
  | EmptyString => true
  | String c s' => (pystr.isspace c || Ascii.eqb c ",") && blank s'
  end.


(** A row of the store with [delta] added to its load, if it has one. *)
Definition with_load (delta : Z) (r : sql.row) : sql.row :=
  sql.mk (sql.name r) ((fun p => p + delta) <$> sql.points r) (sql.max_points r)
         (sql.off_days r) (sql.preferred_zone r) (sql.allowed_zones r).

(** Two states of a run that differ at most in the loads of the store. *)
Definition same_decisions (st1 st2 : run.state) : Prop :=
  attrs <$> run.conn st1 = attrs <$> run.conn st2
  ∧ run.points_map st1 = run.points_map st2
  ∧ run.assigned_last st1 = run.assigned_last st2
  ∧ run.schedule st1 = run.schedule st2
  ∧ run.unassigned st1 = run.unassigned st2.

(** The rows of [sch] for the pairs that the loops handle before the role
    that follows the roles [done] on day [d]. *)
Definition rows_before (start d : Z) (done : list string)
    (sch : list sched.row) : list sched.row :=
  filter (fun a => sched_slot a ∈ slots start (d - 1)
                     ++ ((fun zone => (datetime.strftime d, zone)) <$> done))
         sch.

(** The cell of the matrix for the rows of one date and one person, in the
    order of the rows. *)
Definition cell_of (l : list sched.row) (d e : string) : string :=
  fold_left cell_update
    (sched.Shift <$> filter (fun r => sched.Date r = d ∧ sched.Employee r = e) l)
    EmptyString.

(** The cells of the matrix after the row [r] is written, when no label is
    repeated. *)
Definition write_cells (dates employees : list string)
    (c : gmap (string * string) string) (r : sched.row)
  : gmap (string * string) string :=
  if bool_decide (sched.Date r ∈ dates) && bool_decide (sched.Employee r ∈ employees)
  then <[(sched.Date r, sched.Employee r)
         := cell_update (default EmptyString (c !! (sched.Date r, sched.Employee r)))
                        (sched.Shift r)]> c
  else c.

(** * Properties *)

(** ** The calendar: ordinals, civil dates and their text *)

Section Calendar.
Import datetime.

Lemma month_day_table (leapyear : bool) :
  forallb (fun k => month_day_ok leapyear (Z.of_nat k))
          (seq 0 (365 + (if leapyear then 1 else 0))) = true.
Proof. destruct leapyear; vm_compute; reflexivity. Qed.

Lemma month_day_spec leapyear n :
  0 <= n < 365 + b2z leapyear -> month_day_ok leapyear n = true.
Proof.
  intros H. pose proof (month_day_table leapyear) as T.
  rewrite forallb_forall in T.
  specialize (T (Z.to_nat n)). rewrite Z2Nat.id in T by lia.
  apply T. apply in_seq. destruct leapyear; simpl in *; lia.
Qed.

Lemma leap_decomp a b c e :
  0 <= a -> 0 <= b <= 3 -> 0 <= c <= 24 -> 0 <= e <= 3 ->
  _is_leap (a * 400 + 1 + (b * 100 + c * 4 + e))
  = ((e =? 3) && (negb (c =? 24) || (b =? 3))).
Proof.
  intros Ha Hb Hc He. unfold _is_leap.
  apply eq_true_iff_eq.
  rewrite !andb_true_iff, !orb_true_iff, !negb_true_iff, !Z.eqb_eq, !Z.eqb_neq.
  Z.div_mod_to_equations. lia.
Qed.

Lemma ord2ymd_unfold n :
  _ord2ymd n =
  let a := (n - 1) / 146097 in let r1 := (n - 1) mod 146097 in
  let b := r1 / 36524 in let r2 := r1 mod 36524 in
  let c := r2 / 1461 in let r3 := r2 mod 1461 in
  let e := r3 / 365 in let f := r3 mod 365 in
  let year := a * 400 + 1 + (b * 100 + c * 4 + e) in
  if (e =? 4) || (b =? 4) then (year - 1, 12, 31)
  else let leapyear := (e =? 3) && (negb (c =? 24) || (b =? 3)) in
       let '(m, d) := month_day leapyear f in (year, m, d).
Proof. reflexivity. Qed.

(** [_ord2ymd] yields a date of the calendar, and [_ymd2ord] inverts it. *)
Lemma ord2ymd_spec n :
  1 <= n <= MAXORDINAL ->
  let '(y, m, d) := _ord2ymd n in
  1 <= y <= 9999 /\ 1 <= m <= 12 /\ 1 <= d <= _days_in_month y m
  /\ _ymd2ord y m d = n.
Proof.
  intros Hn. unfold MAXORDINAL in Hn. rewrite ord2ymd_unfold. cbv zeta.
  set (a := (n - 1) / 146097). set (r1 := (n - 1) mod 146097).
  set (b := r1 / 36524). set (r2 := r1 mod 36524).
  set (c := r2 / 1461). set (r3 := r2 mod 1461).
  set (e := r3 / 365). set (f := r3 mod 365).
  assert (Ha : 0 <= a <= 24) by (subst a; Z.div_mod_to_equations; lia).
  assert (E1 : n - 1 = 146097 * a + r1 /\ 0 <= r1 < 146097)
    by (subst a r1; Z.div_mod_to_equations; lia).
  assert (E2 : r1 = 36524 * b + r2 /\ 0 <= r2 < 36524 /\ 0 <= b <= 4)
    by (subst b r2; Z.div_mod_to_equations; lia).
  assert (E3 : r2 = 1461 * c + r3 /\ 0 <= r3 < 1461 /\ 0 <= c <= 24)
    by (subst c r3; Z.div_mod_to_equations; lia).
  assert (E4 : r3 = 365 * e + f /\ 0 <= f < 365 /\ 0 <= e <= 4)
    by (subst e f; Z.div_mod_to_equations; lia).
  clearbody a r1 b r2 c r3 e f.
  destruct ((e =? 4) || (b =? 4)) eqn:Hlast.
  - apply orb_true_iff in Hlast. rewrite !Z.eqb_eq in Hlast.
    assert (Hl : _is_leap (a * 400 + 1 + (b * 100 + c * 4 + e) - 1) = true).
    { unfold _is_leap. apply andb_true_iff.
      rewrite orb_true_iff, negb_true_iff, !Z.eqb_eq, Z.eqb_neq.
      Z.div_mod_to_equations. lia. }
    unfold _days_in_month, _ymd2ord, _days_before_month, _days_before_year.
    rewrite Hl.
    repeat split; try lia.
    + change (31 <= 31). lia.
    + change (tbl _DAYS_BEFORE_MONTH 12 + b2z ((2 <? 12) && true)) with 335.
      Z.div_mod_to_equations; lia.
  - apply orb_false_iff in Hlast. rewrite !Z.eqb_neq in Hlast.
    rewrite <- (leap_decomp a b c e) by lia.
    set (year := a * 400 + 1 + (b * 100 + c * 4 + e)).
    assert (Hleap : _is_leap year = ((e =? 3) && (negb (c =? 24) || (b =? 3))))
      by (apply leap_decomp; lia).
    assert (Hf : 0 <= f < 365 + b2z (_is_leap year)).
    { rewrite Hleap. destruct (e =? 3) eqn:He3; [|simpl; lia].
      apply Z.eqb_eq in He3.
      destruct (c =? 24) eqn:Hc; [apply Z.eqb_eq in Hc|]; simpl.
      - destruct (b =? 3) eqn:Hb;
          [apply Z.eqb_eq in Hb|apply Z.eqb_neq in Hb]; simpl; lia.
      - apply Z.eqb_neq in Hc. lia. }
    pose proof (month_day_spec _ _ Hf) as M. unfold month_day_ok in M.
    destruct (month_day (_is_leap year) f) as [m d].
    rewrite !andb_true_iff, !Z.leb_le, Z.eqb_eq in M.
    destruct M as [[[[M1 M2] M3] M4] M5].
    unfold _days_in_month, _ymd2ord, _days_before_month, _days_before_year.
    repeat split; try lia.
    assert (G : (year - 1) * 365 + (year - 1) / 4 - (year - 1) / 100
                + (year - 1) / 400 = n - 1 - f)
      by (subst year; Z.div_mod_to_equations; lia).
    lia.
Qed.

(** *** Formatting and parsing *)

Lemma digit_char k :
  0 <= k <= 9 ->
  isdigit (digit k) = true /\ digit_value (digit k) = k
  /\ Ascii.eqb (digit k) "-" = false /\ Ascii.eqb (digit k) " " = false.
Proof.
  intros H.
  assert (E : k = 0 \/ k = 1 \/ k = 2 \/ k = 3 \/ k = 4 \/ k = 5 \/ k = 6
              \/ k = 7 \/ k = 8 \/ k = 9) by lia.
  repeat (destruct E as [-> | E]; [vm_compute; auto |]). subst. vm_compute; auto.
Qed.

Lemma digit_mod k : digit k = digit (k mod 10).
Proof. unfold digit. now rewrite Z.mod_mod. Qed.

Lemma in_range_digit lo hi k :
  0 <= k <= 9 -> in_range lo hi (digit k) = (lo <=? k) && (k <=? hi).
Proof.
  intros H. destruct (digit_char k H) as (E1 & E2 & _).
  unfold in_range. now rewrite E1, E2.
Qed.

Lemma alt_month_fmt2 m rest :
  1 <= m <= 12 ->
  omap after_month (alt_month (fmt2 m (String "-" rest)))
  = omap after_month [(m, String "-" rest)].
Proof.
  intros H.
  assert (E : m = 1 \/ m = 2 \/ m = 3 \/ m = 4 \/ m = 5 \/ m = 6 \/ m = 7
              \/ m = 8 \/ m = 9 \/ m = 10 \/ m = 11 \/ m = 12) by lia.
  repeat (destruct E as [-> | E]; [reflexivity |]). subst. reflexivity.
Qed.

Lemma alt_day_fmt2 d :
  1 <= d <= 31 -> head (alt_day (fmt2 d EmptyString)) = Some (d, EmptyString).
Proof.
  intros H. pose proof (eq_refl : forallb (fun k =>
    match head (alt_day (fmt2 (Z.of_nat k) EmptyString)) with
    | Some (d', EmptyString) => d' =? Z.of_nat k
    | _ => false end) (seq 1 31) = true) as T.
  rewrite forallb_forall in T. specialize (T (Z.to_nat d)).
  rewrite Z2Nat.id in T by lia.
  destruct (head (alt_day (fmt2 d EmptyString))) as [[d' [|]]|] eqn:E;
    try (discriminate T; apply in_seq; lia).
  f_equal. f_equal. apply Z.eqb_eq, T, in_seq. lia.
Qed.

Lemma fmt4_value y :
  0 <= y <= 9999 ->
  exists c1 c2 c3 c4,
    (forall rest, fmt4 y rest = String c1 (String c2 (String c3 (String c4 rest))))
    /\ isdigit c1 && isdigit c2 && isdigit c3 && isdigit c4 = true
    /\ 1000 * digit_value c1 + 100 * digit_value c2
       + 10 * digit_value c3 + digit_value c4 = y.
Proof.
  intros H. unfold fmt4, fmt2.
  exists (digit (y / 1000)), (digit (y / 100)), (digit (y / 10)), (digit y).
  split; [reflexivity|].
  rewrite (digit_mod (y / 1000)), (digit_mod (y / 100)),
          (digit_mod (y / 10)), (digit_mod y).
  destruct (digit_char ((y / 1000) mod 10)) as (A1 & A2 & _);
    [Z.div_mod_to_equations; lia|].
  destruct (digit_char ((y / 100) mod 10)) as (B1 & B2 & _);
    [Z.div_mod_to_equations; lia|].
  destruct (digit_char ((y / 10) mod 10)) as (C1 & C2 & _);
    [Z.div_mod_to_equations; lia|].
  destruct (digit_char (y mod 10)) as (D1 & D2 & _);
    [Z.div_mod_to_equations; lia|].
  rewrite A1, A2, B1, B2, C1, C2, D1, D2. split; [reflexivity|].
  Z.div_mod_to_equations; lia.
Qed.

Lemma days_in_month_le y m : 1 <= m <= 12 -> _days_in_month y m <= 31.
Proof.
  intros Hm. unfold _days_in_month. destruct (_ && _); [lia|].
  assert (E : m = 1 \/ m = 2 \/ m = 3 \/ m = 4 \/ m = 5 \/ m = 6 \/ m = 7
              \/ m = 8 \/ m = 9 \/ m = 10 \/ m = 11 \/ m = 12) by lia.
  unfold tbl, _DAYS_IN_MONTH.
  repeat (destruct E as [-> | E]; [simpl; lia |]). subst. simpl. lia.
Qed.

(** The days from 1000-01-01 on are those of the years of four digits. *)
Lemma ord2ymd_year n :
  1 <= n <= MAXORDINAL -> (Y1000 <= n <-> 1000 <= (_ord2ymd n).1.1).
Proof.
  intros Hn. unfold MAXORDINAL in Hn. unfold Y1000.
  rewrite ord2ymd_unfold. cbv zeta.
  set (a := (n - 1) / 146097). set (r1 := (n - 1) mod 146097).
  set (b := r1 / 36524). set (r2 := r1 mod 36524).
  set (c := r2 / 1461). set (r3 := r2 mod 1461).
  set (e := r3 / 365). set (f := r3 mod 365).
  assert (Ha : 0 <= a <= 24) by (subst a; Z.div_mod_to_equations; lia).
  assert (E1 : n - 1 = 146097 * a + r1 /\ 0 <= r1 < 146097)
    by (subst a r1; Z.div_mod_to_equations; lia).
  assert (E2 : r1 = 36524 * b + r2 /\ 0 <= r2 < 36524 /\ 0 <= b <= 4)
    by (subst b r2; Z.div_mod_to_equations; lia).
  assert (E3 : r2 = 1461 * c + r3 /\ 0 <= r3 < 1461 /\ 0 <= c <= 24)
    by (subst c r3; Z.div_mod_to_equations; lia).
  assert (E4 : r3 = 365 * e + f /\ 0 <= f < 365 /\ 0 <= e <= 4)
    by (subst e f; Z.div_mod_to_equations; lia).
  clearbody a r1 b r2 c r3 e f.
  destruct ((e =? 4) || (b =? 4)) eqn:Hlast.
  - apply orb_true_iff in Hlast. rewrite !Z.eqb_eq in Hlast. cbn [fst]. lia.
  - apply orb_false_iff in Hlast. rewrite !Z.eqb_neq in Hlast.
    destruct (month_day _ f) as [m d]. cbn [fst]. lia.
Qed.

Lemma fmt_year_four y rest : 1000 <= y -> fmt_year y rest = fmt4 y rest.
Proof.
  intros H. unfold fmt_year.
  destruct (Z.ltb_spec y 10); [lia|]. destruct (Z.ltb_spec y 100); [lia|].
  destruct (Z.ltb_spec y 1000); [lia|]. reflexivity.
Qed.

(** Parsing the text of a date gives the date back, from 1000-01-01 on. *)
Lemma strptime_strftime n :
  Y1000 <= n <= MAXORDINAL -> strptime (strftime n) = Some n.
Proof.
  intros Hn.
  assert (Hn1 : 1 <= n <= MAXORDINAL) by (unfold Y1000 in Hn; lia).
  pose proof (ord2ymd_spec n Hn1) as S.
  pose proof (proj1 (ord2ymd_year n Hn1) (proj1 Hn)) as Hy4.
  unfold strftime. destruct (_ord2ymd n) as [[y m] d]. cbn [fst] in Hy4.
  destruct S as (Hy & Hm & Hd & Hord).
  assert (Hd31 : d <= 31) by (pose proof (days_in_month_le y m Hm); lia).
  rewrite fmt_year_four by exact Hy4.
  destruct (fmt4_value y) as (c1 & c2 & c3 & c4 & Ef & Edig & Eval); [lia|].
  unfold strptime, regex_match. rewrite Ef.
  rewrite Edig. change (Ascii.eqb "-" "-") with true. cbn [andb].
  rewrite alt_month_fmt2 by lia. cbn [omap list_omap after_month].
  change (Ascii.eqb "-" "-") with true. cbv iota.
  pose proof (alt_day_fmt2 d ltac:(lia)) as Hday.
  destruct (alt_day (fmt2 d EmptyString)) as [|[d' r'] tl]; [discriminate|].
  cbn in Hday. injection Hday as -> ->.
  rewrite Eval.
  replace ((MINYEAR <=? y) && (1 <=? d) && (d <=? _days_in_month y m)) with true.
  - now rewrite Hord.
  - symmetry. rewrite !andb_true_iff, !Z.leb_le. unfold MINYEAR. lia.
Qed.

(** The text of a day before 1000-01-01 has no year of four digits:
    [strptime] rejects it. *)
Lemma strptime_strftime_short n :
  1 <= n < Y1000 -> strptime (strftime n) = None.
Proof.
  intros Hn.
  assert (Hn1 : 1 <= n <= MAXORDINAL) by (unfold Y1000, MAXORDINAL in *; lia).
  pose proof (ord2ymd_spec n Hn1) as S.
  pose proof (ord2ymd_year n Hn1) as Hy4.
  unfold strftime. destruct (_ord2ymd n) as [[y m] d]. cbn [fst] in Hy4.
  destruct S as (Hy & _).
  assert (Hy3 : y < 1000) by (destruct (Z.lt_ge_cases y 1000); [assumption|]; apply Hy4 in H; lia).
  unfold fmt_year, fmt2, strptime, regex_match.
  destruct (Z.ltb_spec y 10); [|destruct (Z.ltb_spec y 100); [|destruct (Z.ltb_spec y 1000); [|lia]]].
  - change (isdigit "-") with false. now rewrite andb_false_r.
  - change (isdigit "-") with false. now rewrite !andb_false_r.
  - change (isdigit "-") with false. now rewrite !andb_false_r.
Qed.

Lemma digit_eq a b : digit a = digit b -> a mod 10 = b mod 10.
Proof.
  rewrite (digit_mod a), (digit_mod b). intros E.
  destruct (digit_char (a mod 10)) as (_ & A & _); [Z.div_mod_to_equations; lia|].
  destruct (digit_char (b mod 10)) as (_ & B & _); [Z.div_mod_to_equations; lia|].
  rewrite <- A, <- B. now rewrite E.
Qed.

Lemma digit_not_dash k : digit k <> "-"%char.
Proof.
  rewrite (digit_mod k). intros E.
  destruct (digit_char (k mod 10)) as (_ & _ & D & _); [Z.div_mod_to_equations; lia|].
  rewrite E in D. discriminate.
Qed.

Lemma fmt2_inj v1 v2 r1 r2 :
  0 <= v1 < 100 -> 0 <= v2 < 100 -> fmt2 v1 r1 = fmt2 v2 r2 -> v1 = v2 /\ r1 = r2.
Proof.
  intros H1 H2 E. unfold fmt2 in E. injection E as E1 E2 E3.
  apply digit_eq in E1, E2. split; [|assumption].
  Z.div_mod_to_equations; lia.
Qed.

Lemma fmt_year_inj y1 y2 r1 r2 :
  1 <= y1 <= 9999 -> 1 <= y2 <= 9999 ->
  fmt_year y1 (String "-" r1) = fmt_year y2 (String "-" r2) -> y1 = y2 /\ r1 = r2.
Proof.
  intros H1 H2. unfold fmt_year, fmt4, fmt2.
  destruct (Z.ltb_spec y1 10); [|destruct (Z.ltb_spec y1 100); [|destruct (Z.ltb_spec y1 1000)]];
    (destruct (Z.ltb_spec y2 10); [|destruct (Z.ltb_spec y2 100); [|destruct (Z.ltb_spec y2 1000)]]);
    intros E; injection E; intros;
    repeat match goal with
      | H : digit _ = "-"%char |- _ => destruct (digit_not_dash _ H)
      | H : "-"%char = digit _ |- _ => symmetry in H; destruct (digit_not_dash _ H)
      end;
    repeat match goal with
      | H : digit _ = digit _ |- _ => apply digit_eq in H
      end;
    (split; [Z.div_mod_to_equations; lia|congruence]).
Qed.

(** Two days of the calendar have different texts. *)
Lemma strftime_inj d1 d2 :
  1 <= d1 <= MAXORDINAL -> 1 <= d2 <= MAXORDINAL ->
  strftime d1 = strftime d2 -> d1 = d2.
Proof.
  intros H1 H2. pose proof (ord2ymd_spec d1 H1) as S1.
  pose proof (ord2ymd_spec d2 H2) as S2. unfold strftime.
  destruct (_ord2ymd d1) as [[y1 m1] dd1]. destruct (_ord2ymd d2) as [[y2 m2] dd2].
  destruct S1 as (Hy1 & Hm1 & Hd1 & <-). destruct S2 as (Hy2 & Hm2 & Hd2 & <-).
  pose proof (days_in_month_le y1 m1 Hm1). pose proof (days_in_month_le y2 m2 Hm2).
  intros E.
  apply fmt_year_inj in E as [-> E]; [|assumption|assumption].
  apply fmt2_inj in E as [-> E]; [|lia|lia].
  assert (E' : fmt2 dd1 EmptyString = fmt2 dd2 EmptyString) by congruence.
  apply fmt2_inj in E' as [-> _]; [reflexivity|lia|lia].
Qed.

Lemma isdigit_value c : isdigit c = true -> 0 <= digit_value c <= 9.
Proof.
  unfold isdigit, digit_value. rewrite andb_true_iff, !Z.leb_le. lia.
Qed.

Lemma in_range_value lo hi c :
  in_range lo hi c = true -> lo <= digit_value c <= hi.
Proof. unfold in_range. rewrite !andb_true_iff, !Z.leb_le. lia. Qed.

Lemma alt_month_range s m rest :
  In (m, rest) (alt_month s) -> 1 <= m <= 12.
Proof.
  destruct s as [|c1 [|c2 r2]]; cbn [alt_month]; [intros []| |].
  - cbn [app]. destruct (in_range 1 9 c1) eqn:E; [|intros []].
    intros [[= <- <-]|[]]. apply in_range_value in E. lia.
  - rewrite !in_app_iff.
    destruct (in_range 1 1 c1 && in_range 0 2 c2) eqn:E1;
      destruct (in_range 0 0 c1 && in_range 1 9 c2) eqn:E2;
      destruct (in_range 1 9 c1) eqn:E3;
      rewrite ?andb_true_iff in *; cbn [In];
      intros H; decompose [or] H; clear H; try tauto;
      match goal with H : (_, _) = (_, _) |- _ => injection H as <- <- end;
      repeat match goal with
        | H : _ /\ _ |- _ => destruct H
        | H : in_range _ _ _ = true |- _ => apply in_range_value in H
        end; lia.
Qed.

Lemma regex_match_range s y m d rest :
  regex_match s = Some (y, m, d, rest) -> 0 <= y <= 9999 /\ 1 <= m <= 12.
Proof.
  unfold regex_match.
  destruct s as [|y1 [|y2 [|y3 [|y4 [|c r]]]]]; try discriminate.
  destruct (isdigit y1 && isdigit y2 && isdigit y3 && isdigit y4
            && Ascii.eqb c "-") eqn:E; [|discriminate].
  rewrite !andb_true_iff in E. destruct E as [[[[D1 D2] D3] D4] _].
  apply isdigit_value in D1, D2, D3, D4.
  destruct (omap after_month (alt_month r)) as [|[[m' d'] r'] tl] eqn:O;
    [discriminate|].
  intros [= <- <- <- <-]. split; [lia|].
  assert (I : In (m', d', r') (omap after_month (alt_month r)))
    by (rewrite O; left; reflexivity).
  apply list_elem_of_In, list_elem_of_omap in I.
  destruct I as ([m0 r0] & I & A). apply list_elem_of_In in I.
  unfold after_month in A. destruct r0 as [|c0 r0]; [discriminate|].
  destruct (Ascii.eqb c0 "-"); [|discriminate].
  destruct (alt_day r0) as [|[? ?] ?]; [discriminate|].
  injection A as <- <- <-. eapply alt_month_range; eassumption.
Qed.

Lemma ymd2ord_range y m d :
  1 <= y <= 9999 -> 1 <= m <= 12 -> 1 <= d <= _days_in_month y m ->
  1 <= _ymd2ord y m d <= MAXORDINAL.
Proof.
  intros Hy Hm Hd.
  assert (B : 1 <= _days_before_month y m + d <= 365 + b2z (_is_leap y)).
  { unfold _days_in_month, _days_before_month, tbl, _DAYS_IN_MONTH,
      _DAYS_BEFORE_MONTH in *.
    assert (E : m = 1 \/ m = 2 \/ m = 3 \/ m = 4 \/ m = 5 \/ m = 6 \/ m = 7
                \/ m = 8 \/ m = 9 \/ m = 10 \/ m = 11 \/ m = 12) by lia.
    destruct (_is_leap y);
      repeat (destruct E as [-> | E]; [simpl in *; lia |]); subst;
      simpl in *; lia. }
  assert (L : b2z (_is_leap y) = 1 -> y mod 4 = 0).
  { unfold _is_leap. destruct (y mod 4 =? 0) eqn:E; [|simpl; lia].
    apply Z.eqb_eq in E. auto. }
  unfold _ymd2ord, MAXORDINAL, _days_before_year.
  assert (b2z (_is_leap y) = 0 \/ b2z (_is_leap y) = 1)
    by (destruct (_is_leap y); simpl; lia).
  split.
  - Z.div_mod_to_equations; lia.
  - assert (y <= 9996 \/ b2z (_is_leap y) = 0)
      by (Z.div_mod_to_equations; lia).
    Z.div_mod_to_equations; lia.
Qed.

(** A parsed date is a [datetime]. *)
Lemma strptime_range s d : strptime s = Some d -> 1 <= d <= MAXORDINAL.
Proof.
  unfold strptime.
  destruct (regex_match s) as [[[[y m] dd] [|? ?]]|] eqn:R; try discriminate.
  destruct ((MINYEAR <=? y) && (1 <=? dd) && (dd <=? _days_in_month y m)) eqn:V;
    [|discriminate].
  rewrite !andb_true_iff, !Z.leb_le in V. unfold MINYEAR in V.
  apply regex_match_range in R. intros [= <-].
  apply ymd2ord_range; lia.
Qed.

End Calendar.

(** ** The candidate ranker *)

Section Ranking.

Lemma str_ltb_lt a b :
  String.ltb a b = true <-> OrderedTypeEx.String_as_OT.lt a b.
Proof.
  rewrite <- OrderedTypeEx.String_as_OT.cmp_lt.
  unfold String.ltb, OrderedTypeEx.String_as_OT.cmp.
  destruct (String.compare a b); split; congruence.
Qed.

Lemma str_ltb_irrefl a : String.ltb a a = false.
Proof.
  destruct (String.ltb a a) eqn:E; [|reflexivity].
  apply str_ltb_lt, OrderedTypeEx.String_as_OT.lt_not_eq in E.
  now destruct E.
Qed.

Lemma str_ltb_trans a b c :
  String.ltb a b = true -> String.ltb b c = true -> String.ltb a c = true.
Proof.
  rewrite !str_ltb_lt. apply OrderedTypeEx.String_as_OT.lt_trans.
Qed.

Lemma str_ltb_trichotomy a b :
  String.ltb a b = false -> String.ltb b a = false -> a = b.
Proof.
  unfold String.ltb. rewrite (String.compare_antisym b a).
  destruct (String.compare a b) eqn:E; simpl; try discriminate.
  intros _ _. now apply String.compare_eq_iff.
Qed.

(** The order of the sort keys is the ranking of the candidates. *)
Lemma key_ltb_ranks c1 c2 :
  key_ltb (sort_key c1) (sort_key c2) = true <-> ranks_before c1 c2.
Proof.
  destruct c1 as [[p1 l1] n1], c2 as [[p2 l2] n2].
  unfold ranks_before, mismatch, key_ltb, sort_key. cbn [fst snd].
  rewrite !orb_true_iff, !andb_true_iff, !orb_true_iff, !andb_true_iff,
    !Z.ltb_lt, !Z.eqb_eq.
  destruct p1, p2; intuition lia.
Qed.

Lemma ranks_before_irrefl c : ¬ ranks_before c c.
Proof.
  unfold ranks_before. pose proof (str_ltb_irrefl c.2).
  intros [?|[_ [?|[_ ?]]]]; try lia. congruence.
Qed.

Lemma ranks_before_trans c1 c2 c3 :
  ranks_before c1 c2 -> ranks_before c2 c3 -> ranks_before c1 c3.
Proof.
  unfold ranks_before.
  intros [?|[? [?|[? ?]]]] [?|[? [?|[? ?]]]];
    try (left; lia); right; (split; [lia|]); try (left; lia).
  right. split; [lia|]. eapply str_ltb_trans; eassumption.
Qed.

Lemma ranks_before_trichotomy c1 c2 :
  ¬ ranks_before c1 c2 -> ¬ ranks_before c2 c1 -> c1 = c2.
Proof.
  destruct c1 as [[p1 l1] n1], c2 as [[p2 l2] n2].
  unfold ranks_before, mismatch. cbn [fst snd]. intros H1 H2.
  assert (p1 = p2) as -> by (destruct p1, p2; try reflexivity; exfalso; lia).
  assert (l1 = l2) as -> by (destruct (Z.lt_trichotomy l1 l2) as [?|[?|?]];
                             [exfalso; apply H1|assumption|exfalso; apply H2];
                             right; split; auto).
  assert (n1 = n2) as ->; [|reflexivity].
  apply str_ltb_trichotomy.
  - destruct (String.ltb n1 n2) eqn:E; [|reflexivity]. exfalso. apply H1.
    right; split; [reflexivity|]. right; split; [reflexivity|auto].
  - destruct (String.ltb n2 n1) eqn:E; [|reflexivity]. exfalso. apply H2.
    right; split; [reflexivity|]. right; split; [reflexivity|auto].
Qed.

#[local] Instance not_after_trans : Transitive not_after.
Proof.
  intros c1 c2 c3 H12 H23 H31. unfold not_after in *.
  destruct (decide (c2 = c3)) as [->|Hne]; [tauto|].
  apply H12. apply ranks_before_trans with c3; [|assumption].
  destruct (key_ltb (sort_key c2) (sort_key c3)) eqn:E.
  - now apply key_ltb_ranks.
  - exfalso. apply Hne, ranks_before_trichotomy; [|assumption].
    rewrite <- key_ltb_ranks. congruence.
Qed.

#[local] Instance not_after_antisym : AntiSymm (=) not_after.
Proof. intros c1 c2 H1 H2. now apply ranks_before_trichotomy. Qed.

Lemma insert_by_key_perm x l : insert_by_key x l ≡ₚ x :: l.
Proof.
  induction l as [|y l IH]; cbn; [reflexivity|].
  destruct (key_ltb _ _); [|reflexivity].
  rewrite IH. apply Permutation_swap.
Qed.

Lemma sort_perm l : sort l ≡ₚ l.
Proof.
  induction l as [|x l IH]; cbn; [reflexivity|].
  now rewrite insert_by_key_perm, IH.
Qed.

Lemma insert_by_key_sorted x l :
  StronglySorted not_after l -> StronglySorted not_after (insert_by_key x l).
Proof.
  induction 1 as [|y l Hs IH Hy]; cbn.
  - repeat constructor.
  - destruct (key_ltb (sort_key y) (sort_key x)) eqn:E.
    + constructor; [assumption|].
      rewrite insert_by_key_perm. constructor; [|assumption].
      apply key_ltb_ranks in E. intros E'.
      eapply ranks_before_irrefl, ranks_before_trans; eassumption.
    + assert (Hxy : not_after x y)
        by (unfold not_after; rewrite <- key_ltb_ranks; congruence).
      constructor; [constructor; assumption|].
      constructor; [assumption|].
      eapply Forall_impl; [exact Hy|]. intros z Hz. now transitivity y.
Qed.

Lemma sort_sorted l : StronglySorted not_after (sort l).
Proof.
  induction l as [|x l IH]; cbn; [constructor|].
  now apply insert_by_key_sorted.
Qed.

(** The order of the rows does not matter to the sorted list. *)
Lemma sort_perm_eq l1 l2 : l1 ≡ₚ l2 -> sort l1 = sort l2.
Proof.
  intros P. apply (StronglySorted_unique not_after); try apply sort_sorted.
  now rewrite !sort_perm.
Qed.

Lemma sort_nil l : sort l = [] <-> l = [].
Proof.
  split; [|intros ->; reflexivity].
  intros E. apply Permutation_nil. now rewrite <- E, sort_perm.
Qed.

(** The head of the sorted list is a candidate, and every other candidate
    is ranked strictly after it. *)
Lemma sort_head c tl l :
  sort l = c :: tl ->
  c ∈ l ∧ ∀ c', c' ∈ l -> c' = c ∨ ranks_before c c'.
Proof.
  intros E. pose proof (sort_sorted l) as S. pose proof (sort_perm l) as P.
  rewrite E in S, P. split.
  - rewrite <- P. left.
  - intros c' Hc'. rewrite <- P in Hc'.
    destruct (decide (c' = c)) as [|Hne]; [now left|right].
    apply elem_of_cons in Hc' as [?|Hc']; [contradiction|].
    apply StronglySorted_inv in S as [_ S].
    rewrite Forall_forall in S. specialize (S c' Hc').
    destruct (key_ltb (sort_key c) (sort_key c')) eqn:K.
    + now apply key_ltb_ranks.
    + exfalso. apply Hne. symmetry. apply ranks_before_trichotomy; [|exact S].
      rewrite <- key_ltb_ranks. congruence.
Qed.

End Ranking.

(** ** One step of the engine *)

Section Step.

Lemma weekday_range d : 0 <= datetime.weekday d < 7.
Proof. unfold datetime.weekday. apply Z.mod_pos_bound. lia. Qed.

Lemma point_value_cost d :
  (if 5 <=? datetime.weekday d then 2 else 1) = dayLoadCost d.
Proof.
  unfold dayLoadCost. pose proof (weekday_range d).
  destruct (5 <=? datetime.weekday d) eqn:E.
  - apply Z.leb_le in E.
    destruct (datetime.weekday d =? 5) eqn:E5; [reflexivity|].
    apply Z.eqb_neq in E5.
    destruct (datetime.weekday d =? 6) eqn:E6; [reflexivity|].
    apply Z.eqb_neq in E6. lia.
  - apply Z.leb_gt in E.
    destruct (datetime.weekday d =? 5) eqn:E5; [apply Z.eqb_eq in E5; lia|].
    destruct (datetime.weekday d =? 6) eqn:E6; [apply Z.eqb_eq in E6; lia|].
    reflexivity.
Qed.

Lemma dayLoadCost_pos d : 1 <= dayLoadCost d <= 2.
Proof. unfold dayLoadCost. destruct (_ || _); lia. Qed.

Lemma is_weekend_strftime d :
  Y1000 <= d <= datetime.MAXORDINAL ->
  is_weekend (datetime.strftime d) = Ok (5 <=? datetime.weekday d).
Proof. intros H. unfold is_weekend. now rewrite strptime_strftime. Qed.

Lemma is_weekend_short d :
  1 <= d < Y1000 -> is_weekend (datetime.strftime d) = Raise ValueError.
Proof. intros H. unfold is_weekend. now rewrite strptime_strftime_short. Qed.

(** What the test of the inner loop says of a row. *)
Lemma candidate_Some ds cur pv z st today r c :
  candidate ds cur pv z st today r = Some c <->
  c = (String.eqb (pystr.strip (default EmptyString (df.preferred_zone r))) z,
       default 0 (run.points_map st !! df.name r), df.name r)
  ∧ (ds ∉ df.off_days r)
  ∧ (df.name r ∉ today)
  ∧ 3 <= match run.assigned_last st !! df.name r with
         | Some last => cur - last
         | None => 9999
         end
  ∧ default 0 (run.points_map st !! df.name r) + pv <= default 0 (df.max_points r)
  ∧ z ∈ df.allowed_zones r.
Proof.
  unfold candidate.
  destruct (bool_decide (ds ∉ df.off_days r)) eqn:B1;
    [apply bool_decide_eq_true in B1|apply bool_decide_eq_false in B1];
    [|cbn; split; [discriminate|tauto]].
  destruct (bool_decide (df.name r ∉ today)) eqn:B2;
    [apply bool_decide_eq_true in B2|apply bool_decide_eq_false in B2];
    [|cbn; split; [discriminate|tauto]].
  destruct (3 <=? _) eqn:B3;
    [apply Z.leb_le in B3|apply Z.leb_gt in B3];
    [|cbn; split; [discriminate|intros (_ & _ & _ & ? & _); lia]].
  destruct (_ + pv <=? _) eqn:B4;
    [apply Z.leb_le in B4|apply Z.leb_gt in B4];
    [|cbn; split; [discriminate|intros (_ & _ & _ & _ & ? & _); lia]].
  destruct (bool_decide (z ∈ _)) eqn:B5;
    [apply bool_decide_eq_true in B5|apply bool_decide_eq_false in B5];
    rewrite elem_of_list_to_set in B5;
    [|cbn; split; [discriminate|tauto]].
  cbn. split; [intros [= <-]; tauto|intros (-> & _); reflexivity].
Qed.

(** The two ways a role of a day ends. *)
Lemma zone_body_spec ap ds cur pv st today z :
  let cands := omap (candidate ds cur pv z st today) (get_employees (run.conn st)) in
  (cands = [] ∧ ∃ reason,
     zone_body ap ds cur pv (st, today) z
     = (run.mk (run.conn st) (run.points_map st) (run.assigned_last st)
               (run.schedule st)
               (run.unassigned st ++ [unas.mk ds z reason]),
        today))
  ∨ (∃ p chosen,
       (p, default 0 (run.points_map st !! chosen), chosen) ∈ cands
       ∧ (∀ c', c' ∈ cands ->
                c' = (p, default 0 (run.points_map st !! chosen), chosen)
                ∨ ranks_before (p, default 0 (run.points_map st !! chosen), chosen) c')
       ∧ zone_body ap ds cur pv (st, today) z
         = (run.mk
              (if ap then update_points (run.conn st) chosen pv else run.conn st)
              (<[chosen := default 0 (run.points_map st !! chosen) + pv]>
                 (run.points_map st))
              (<[chosen := cur]> (run.assigned_last st))
              (run.schedule st ++ [sched.mk ds z chosen pv])
              (run.unassigned st),
            {[chosen]} ∪ today)).
Proof.
  intros cands. unfold zone_body. fold cands.
  destruct (get_employees (run.conn st)) as [|r0 rows] eqn:E.
  - left. split; [reflexivity|]. eexists. reflexivity.
  - destruct (sort cands) as [|[[p pts] chosen] tl] eqn:S.
    + left. apply (proj1 (sort_nil _)) in S. split; [assumption|]. eexists. reflexivity.
    + right. apply sort_head in S as [Hin Hmin].
      assert (pts = default 0 (run.points_map st !! chosen)) as ->.
      { subst cands. apply list_elem_of_omap in Hin as (r & _ & Hr).
        apply candidate_Some in Hr as ([= _ -> ->] & _). reflexivity. }
      exists p, chosen. auto.
Qed.

End Step.

(** ** The loops of [generate_schedule] and the states they reach *)

Section Run.

Variables (ap : bool) (conn0 : Conn) (start end_ : Z).
Hypothesis Hstart : Y1000 <= start.
Hypothesis Hend : end_ <= datetime.MAXORDINAL.

Local Abbreviation R := (reaches ap conn0 start end_).

Lemma reaches_range d todo st today :
  R d todo st today -> start <= d <= end_ ∧ ∃ done, ZONES = done ++ todo.
Proof.
  induction 1 as [Hle|d zone todo st today _ [IH1 [done IH2]]|d st today _ [IH1 _] Hlt].
  - split; [lia|]. now exists [].
  - split; [assumption|]. exists (done ++ [zone]). now rewrite <- app_assoc.
  - split; [lia|]. now exists [].
Qed.

Lemma reaches_calendar d todo st today :
  R d todo st today -> Y1000 <= start ∧ end_ <= datetime.MAXORDINAL.
Proof. induction 1; auto. Qed.

Lemma fold_zones_reaches d todo :
  ∀ st today,
    R d todo st today ->
    R d [] (fold_left (zone_body ap (datetime.strftime d) d (dayLoadCost d))
                      todo (st, today)).1
           (fold_left (zone_body ap (datetime.strftime d) d (dayLoadCost d))
                      todo (st, today)).2.
Proof.
  induction todo as [|zone todo IH]; intros st today H; cbn [fold_left fst snd].
  - exact H.
  - apply reaches_zone in H.
    destruct (zone_body ap (datetime.strftime d) d (dayLoadCost d) (st, today) zone)
      as [st' today'].
    now apply IH.
Qed.

Lemma day_body_reaches d st :
  R d ZONES st ∅ ->
  ∃ st' today', day_body ap d st = (st', Ok tt) ∧ R d [] st' today'.
Proof.
  intros H. destruct (reaches_range _ _ _ _ H) as [Hd _].
  unfold day_body. rewrite is_weekend_strftime by lia.
  rewrite point_value_cost.
  apply fold_zones_reaches in H.
  destruct (fold_left _ ZONES (st, ∅)) as [st' today'].
  exists st', today'. split; [reflexivity|exact H].
Qed.

Lemma while_days_reaches fuel :
  ∀ d st,
    R d ZONES st ∅ ->
    end_ - d + 1 < Z.of_nat fuel ->
    ∃ st' today',
      R end_ [] st' today'
      ∧ while_days fuel ap end_ d st
        = Some (st', if end_ <? datetime.MAXORDINAL then Ok tt
                     else Raise OverflowError).
Proof.
  induction fuel as [|fuel IH]; intros d st H Hfuel.
  - destruct (reaches_range _ _ _ _ H). lia.
  - destruct (reaches_range _ _ _ _ H) as [Hd _].
    cbn [while_days].
    destruct (d <=? end_) eqn:C; [|apply Z.leb_gt in C; lia].
    destruct (day_body_reaches d st H) as (st' & today' & -> & H').
    destruct (d + 1 <=? datetime.MAXORDINAL) eqn:M;
      [apply Z.leb_le in M|apply Z.leb_gt in M].
    + destruct (decide (d = end_)) as [->|Hne].
      * destruct fuel as [|fuel]; [lia|]. cbn [while_days].
        destruct (end_ + 1 <=? end_) eqn:C'; [apply Z.leb_le in C'; lia|].
        exists st', today'. split; [assumption|].
        destruct (end_ <? datetime.MAXORDINAL) eqn:L; [reflexivity|].
        apply Z.ltb_ge in L. lia.
      * apply IH; [|lia]. apply reaches_day with today'; [assumption|lia].
    + assert (d = end_) as -> by lia.
      exists st', today'. split; [assumption|].
      destruct (end_ <? datetime.MAXORDINAL) eqn:L; [|reflexivity].
      apply Z.ltb_lt in L. lia.
Qed.

End Run.

(** What a call of [generate_schedule] returns, in terms of the state its
    loops reach: the two lists of that state, unless the advance past the
    last day of the calendar raises. *)
Lemma generate_schedule_reaches fuel conn start_date end_date ap ds de :
  datetime.strptime start_date = Some ds ->
  datetime.strptime end_date = Some de ->
  Y1000 <= ds <= de ->
  de - ds + 1 < Z.of_nat fuel ->
  ∃ st today,
    reaches ap conn ds de de [] st today
    ∧ generate_schedule fuel conn start_date end_date ap
      = Some (run.conn st,
              if de <? datetime.MAXORDINAL
              then Ok (run.schedule st, run.unassigned st)
              else Raise OverflowError).
Proof.
  intros Hs He Hle Hfuel. unfold generate_schedule. rewrite Hs, He.
  pose proof (strptime_range _ _ Hs) as Rs.
  pose proof (strptime_range _ _ He) as Re.
  destruct (while_days_reaches ap conn ds de (proj1 Hle) (proj2 Re) fuel ds
              (initial conn))
    as (st & today & HR & E); [apply reaches_start; lia|lia|].
  unfold initial in E. cbv zeta. rewrite E.
  exists st, today. split; [assumption|].
  now destruct (de <? datetime.MAXORDINAL).
Qed.

(** On a reversed range the loop body never runs. *)
Lemma generate_schedule_reversed fuel conn start_date end_date ap ds de :
  datetime.strptime start_date = Some ds ->
  datetime.strptime end_date = Some de ->
  de < ds ->
  generate_schedule (S fuel) conn start_date end_date ap = Some (conn, Ok ([], [])).
Proof.
  intros Hs He Hlt. unfold generate_schedule. rewrite Hs, He. cbn [while_days].
  destruct (ds <=? de) eqn:C; [apply Z.leb_le in C; lia|]. reflexivity.
Qed.

(** On a range in order that starts before 1000-01-01 the first day raises:
    the text of the day does not parse. *)
Lemma generate_schedule_short fuel conn start_date end_date ap ds de :
  datetime.strptime start_date = Some ds ->
  datetime.strptime end_date = Some de ->
  ds <= de -> ds < Y1000 ->
  generate_schedule (S fuel) conn start_date end_date ap
  = Some (conn, Raise ValueError).
Proof.
  intros Hs He Hle Hlt. unfold generate_schedule. rewrite Hs, He. cbn [while_days].
  pose proof (strptime_range _ _ Hs) as Rs.
  destruct (ds <=? de) eqn:C; [|apply Z.leb_gt in C; lia].
  unfold day_body. rewrite is_weekend_short by lia. reflexivity.
Qed.

(** With fuel for the days of the range, the call returns or raises. *)
Lemma generate_schedule_total conn start_date end_date ap :
  ∃ fuel0, ∀ fuel, (fuel0 <= fuel)%nat ->
    ∃ conn' out, generate_schedule fuel conn start_date end_date ap = Some (conn', out).
Proof.
  destruct (datetime.strptime start_date) as [ds|] eqn:Hs.
  2: { exists O. intros fuel _. unfold generate_schedule. rewrite Hs. eauto. }
  destruct (datetime.strptime end_date) as [de|] eqn:He.
  2: { exists O. intros fuel _. unfold generate_schedule. rewrite Hs, He. eauto. }
  destruct (Z_lt_le_dec de ds) as [Hlt|Hle].
  - exists 1%nat. intros [|fuel] Hf; [lia|].
    erewrite generate_schedule_reversed by eassumption. eauto.
  - destruct (Z_lt_le_dec ds Y1000) as [Hshort|Hlong].
    + exists 1%nat. intros [|fuel] Hf; [lia|].
      erewrite generate_schedule_short by eassumption. eauto.
    + exists (Z.to_nat (de - ds + 2)). intros fuel Hf.
      destruct (generate_schedule_reaches fuel conn start_date end_date ap ds de)
        as (st & today & _ & ->); try assumption; [lia|lia|eauto].
Qed.

(** ** Invariants of a run *)

Lemma accrued_snoc n l a :
  accrued n (l ++ [a])
  = accrued n l + (if String.eqb (sched.Employee a) n then sched.Points a else 0).
Proof.
  induction l as [|b l IH]; cbn.
  - destruct (String.eqb _ _); lia.
  - fold (accrued n (l ++ [a])). fold (accrued n l). rewrite IH.
    destruct (String.eqb (sched.Employee b) n); lia.
Qed.

Lemma last_assignment_snoc n l a :
  last_assignment n (l ++ [a])
  = if String.eqb (sched.Employee a) n then day_of a else last_assignment n l.
Proof. unfold last_assignment. now rewrite fold_left_app. Qed.

(** The case analysis of a role step of a run of day [d], in a goal about
    [(zone_body ap ... (st, today) zone)]: either no row is eligible, or a
    candidate is chosen. *)
Ltac zone_cases ap d st today zone reason Hnone p chosen Hin Hmin :=
  let E := fresh "E" in
  destruct (zone_body_spec ap (datetime.strftime d) d (dayLoadCost d) st today zone)
    as [[Hnone [reason E]]|(p & chosen & Hin & Hmin & E)];
  rewrite E; clear E;
  cbn [fst snd run.conn run.points_map run.assigned_last run.schedule
       run.unassigned].

Section Invariants.

Variables (ap : bool) (conn0 : Conn) (start end_ : Z).
Hypothesis Hstart : Y1000 <= start.
Hypothesis Hend : end_ <= datetime.MAXORDINAL.

Local Abbreviation R := (reaches ap conn0 start end_).

(** Every assignment row is for a day of the range up to the current one,
    for a role of [ZONES], at the cost of its day. *)
Lemma reaches_rows d todo st today :
  R d todo st today ->
  ∀ a, a ∈ run.schedule st ->
    ∃ d', start <= d' <= d ∧ sched.Date a = datetime.strftime d'
          ∧ sched.Points a = dayLoadCost d' ∧ sched.Shift a ∈ ZONES.
Proof.
  induction 1 as [Hle|d zone todo st today H IH|d st today H IH Hlt].
  - intros a Ha. cbn in Ha. inversion Ha.
  - destruct (reaches_range _ _ _ _ _ _ _ _ H) as [Hd [done Hz]].
    zone_cases ap d st today zone reason Hnone p chosen Hin Hmin; [exact IH|].
    intros a [Ha|Ha%list_elem_of_singleton]%elem_of_app; [now apply IH|].
    subst a. exists d. cbn. repeat split; try lia.
    rewrite Hz. apply elem_of_app. right. left.
  - intros a Ha. destruct (IH a Ha) as (d' & ? & ?). exists d'.
    split; [lia|assumption].
Qed.

Lemma reaches_day_of d todo st today a :
  R d todo st today -> a ∈ run.schedule st ->
  ∃ d', start <= d' <= d ∧ day_of a = Some d'
        ∧ sched.Date a = datetime.strftime d'.
Proof.
  intros H Ha. destruct (reaches_range _ _ _ _ _ _ _ _ H) as [Hd _].
  destruct (reaches_rows _ _ _ _ H a Ha) as (d' & Hd' & E & _).
  exists d'. split; [assumption|]. split; [|assumption].
  unfold day_of. rewrite E. apply strptime_strftime. lia.
Qed.

(** [points_map] holds the load of the run. *)
Lemma reaches_points_map d todo st today :
  R d todo st today ->
  ∀ n, default 0 (run.points_map st !! n) = load conn0 (run.schedule st) n.
Proof.
  induction 1 as [Hle|d zone todo st today H IH|d st today H IH Hlt].
  - intros n. unfold load. cbn. lia.
  - zone_cases ap d st today zone reason Hnone p chosen Hin Hmin; [exact IH|].
    intros n. unfold load. rewrite accrued_snoc. cbn [sched.Employee sched.Points].
    destruct (String.eqb_spec chosen n) as [->|Hne].
    + rewrite lookup_insert_eq. cbn. rewrite IH. unfold load. lia.
    + rewrite lookup_insert_ne by assumption. rewrite IH. unfold load. lia.
  - exact IH.
Qed.

(** [assigned_last] holds the day of the latest row of each person. *)
Lemma reaches_assigned_last d todo st today :
  R d todo st today ->
  ∀ n, run.assigned_last st !! n = last_assignment n (run.schedule st).
Proof.
  induction 1 as [Hle|d zone todo st today H IH|d st today H IH Hlt].
  - intros n. reflexivity.
  - destruct (reaches_range _ _ _ _ _ _ _ _ H) as [Hd _].
    zone_cases ap d st today zone reason Hnone p chosen Hin Hmin; [exact IH|].
    intros n. rewrite last_assignment_snoc. cbn [sched.Employee].
    destruct (String.eqb_spec chosen n) as [->|Hne].
    + rewrite lookup_insert_eq. unfold day_of. cbn.
      symmetry. apply strptime_strftime. lia.
    + rewrite lookup_insert_ne by assumption. apply IH.
  - exact IH.
Qed.

(** [assigned_today] holds the persons with a row for the current day. *)
Lemma reaches_assigned_today d todo st today :
  R d todo st today ->
  ∀ n, n ∈ today <->
       ∃ a, a ∈ run.schedule st ∧ sched.Employee a = n
            ∧ sched.Date a = datetime.strftime d.
Proof.
  induction 1 as [Hle|d zone todo st today H IH|d st today H IH Hlt].
  - intros n. split; [set_solver|]. intros (a & Ha & _). inversion Ha.
  - zone_cases ap d st today zone reason Hnone p chosen Hin Hmin; [exact IH|].
    intros n. rewrite elem_of_union, elem_of_singleton, IH. split.
    + intros [->|(a & Ha & E1 & E2)].
      * eexists. split; [apply elem_of_app; right; left|]. split; reflexivity.
      * exists a. split; [apply elem_of_app; now left|]. now split.
    + intros (a & [Ha|Ha%list_elem_of_singleton]%elem_of_app & E1 & E2).
      * right. exists a. now repeat split.
      * left. subst a. now cbn in E1.
  - intros n. split; [set_solver|]. intros (a & Ha & _ & E). exfalso.
    destruct (reaches_range _ _ _ _ _ _ _ _ H) as [Hd _].
    destruct (reaches_rows _ _ _ _ H a Ha) as (d' & Hd' & E' & _).
    rewrite E' in E. unfold Y1000 in Hstart. apply strftime_inj in E; lia.
Qed.

(** The rows of a person are in the order of their days. *)
Lemma reaches_latest d todo st today :
  R d todo st today ->
  ∀ a d', a ∈ run.schedule st -> day_of a = Some d' ->
    ∃ l, last_assignment (sched.Employee a) (run.schedule st) = Some l ∧ d' <= l.
Proof.
  induction 1 as [Hle|d zone todo st today H IH|d st today H IH Hlt].
  - intros a d' Ha. inversion Ha.
  - destruct (reaches_range _ _ _ _ _ _ _ _ H) as [Hd _].
    pose proof (reaches_zone _ _ _ _ _ _ _ _ _ H) as H'.
    revert H'.
    zone_cases ap d st today zone reason Hnone p chosen Hin Hmin; [intros _; exact IH|].
    intros H' a d' Ha Hd'.
    rewrite last_assignment_snoc. cbn [sched.Employee].
    destruct (String.eqb_spec chosen (sched.Employee a)) as [Heq|Hne].
    + exists d. split; [unfold day_of; cbn; apply strptime_strftime; lia|].
      destruct (reaches_day_of _ _ _ _ a H' Ha) as (d'' & ? & E & _).
      cbn in E. rewrite Hd' in E. injection E as <-. lia.
    + apply elem_of_app in Ha as [Ha|Ha%list_elem_of_singleton].
      * now apply IH.
      * subst a. now cbn in Hne.
  - exact IH.
Qed.

End Invariants.

Lemma update_points_attrs c n p : attrs <$> update_points c n p = attrs <$> c.
Proof.
  unfold update_points. rewrite <- list_fmap_compose.
  apply list_fmap_ext. intros i r _. cbn.
  now destruct (String.eqb (sql.name r) n).
Qed.

Lemma get_employees_attrs c c0 :
  attrs <$> c = attrs <$> c0 ->
  df_attrs <$> get_employees c = df_attrs <$> get_employees c0.
Proof.
  intros E. unfold get_employees.
  set (g := fun a : string * option Z * option string * option string * option string =>
              let '(n, m, o, p, z) := a in
              (n, m,
               (if pystr.truthy o then pystr.split "," (default EmptyString o) else []),
               p,
               filter (fun s => s <> EmptyString)
                 (if pystr.truthy z then pystr.split "," (default EmptyString z) else []))).
  assert (G : ∀ c', df_attrs <$> (map (fun r =>
               df.mk (sql.name r) (sql.points r) (sql.max_points r)
                 (if pystr.truthy (sql.off_days r)
                  then pystr.split "," (default EmptyString (sql.off_days r)) else [])
                 (sql.preferred_zone r)
                 (filter (fun s => s <> EmptyString)
                    (if pystr.truthy (sql.allowed_zones r)
                     then pystr.split "," (default EmptyString (sql.allowed_zones r))
                     else []))) c') = g <$> (attrs <$> c')).
  { intros c'. rewrite <- !list_fmap_compose. apply list_fmap_ext.
    intros i r _. reflexivity. }
  now rewrite !G, E.
Qed.

Lemma candidate_attrs ds cur pv z st today r r0 :
  df_attrs r = df_attrs r0 ->
  candidate ds cur pv z st today r = candidate ds cur pv z st today r0.
Proof.
  unfold df_attrs, candidate. intros [= -> -> -> -> ->]. reflexivity.
Qed.

Lemma passes_attrs conn0 l d z r r0 :
  df_attrs r = df_attrs r0 -> passes conn0 l d z r -> passes conn0 l d z r0.
Proof.
  unfold df_attrs. intros [= En Em Eo Ep Ea] [A1 A2 A3 A4 A5].
  constructor; unfold loadCeiling in *; rewrite <- ?En, <- ?Em, <- ?Eo, <- ?Ea;
    assumption.
Qed.

Section Invariants2.

Variables (ap : bool) (conn0 : Conn) (start end_ : Z).
Hypothesis Hstart : Y1000 <= start.
Hypothesis Hend : end_ <= datetime.MAXORDINAL.

Local Abbreviation R := (reaches ap conn0 start end_).

(** A run writes nothing but [points]. *)
Lemma reaches_attrs d todo st today :
  R d todo st today -> attrs <$> run.conn st = attrs <$> conn0.
Proof.
  induction 1 as [Hle|d zone todo st today H IH|d st today H IH Hlt].
  - reflexivity.
  - zone_cases ap d st today zone reason Hnone p chosen Hin Hmin; [exact IH|].
    destruct ap; [|exact IH]. now rewrite update_points_attrs.
  - exact IH.
Qed.

(** Without [apply_points] a run writes nothing at all. *)
Lemma reaches_frame d todo st today :
  ap = false -> R d todo st today -> run.conn st = conn0.
Proof.
  intros Hap.
  induction 1 as [Hle|d zone todo st today H IH|d st today H IH Hlt].
  - reflexivity.
  - zone_cases ap d st today zone reason Hnone p chosen Hin Hmin; [exact IH|].
    now rewrite Hap.
  - exact IH.
Qed.

Lemma reaches_row d todo st today r :
  R d todo st today -> r ∈ get_employees (run.conn st) ->
  ∃ r0, r0 ∈ get_employees conn0 ∧ df_attrs r0 = df_attrs r.
Proof.
  intros H Hr. apply reaches_attrs, get_employees_attrs in H.
  apply (list_elem_of_fmap_2 df_attrs) in Hr. rewrite H in Hr.
  apply list_elem_of_fmap in Hr as (r0 & E & Hr0). eauto.
Qed.

(** The test of the inner loop is the eligibility filter on the history
    of the run. *)
Lemma reaches_candidate d zone todo st today r :
  R d (zone :: todo) st today ->
  is_Some (candidate (datetime.strftime d) d (dayLoadCost d) zone st today r)
  <-> passes conn0 (run.schedule st) d zone r.
Proof.
  intros H.
  pose proof (reaches_points_map _ _ _ _ _ _ _ _ H (df.name r)) as HB.
  pose proof (reaches_assigned_last _ _ _ _ Hstart Hend _ _ _ _ H (df.name r)) as HC.
  pose proof (reaches_assigned_today _ _ _ _ Hstart Hend _ _ _ _ H (df.name r)) as HD.
  split.
  - intros [c Hc]. apply candidate_Some in Hc as (_ & C1 & C2 & C3 & C4 & C5).
    constructor; try assumption.
    + now rewrite <- HD.
    + rewrite <- HC. destruct (run.assigned_last st !! df.name r); [lia|exact I].
    + unfold loadCeiling. rewrite <- HB. exact C4.
  - intros [A1 A2 A3 A4 A5]. eexists. apply candidate_Some.
    split; [reflexivity|]. repeat split; try assumption.
    + now rewrite HD.
    + rewrite HC. destruct (last_assignment (df.name r) (run.schedule st)); lia.
    + rewrite HB. exact A4.
Qed.

(** Every assignment row went through the filter when it was emitted: its
    person passed the five tests on the rows before it. *)
Lemma reaches_admissible d todo st today :
  R d todo st today ->
  ∀ i a, run.schedule st !! i = Some a ->
    ∃ r da, r ∈ get_employees conn0 ∧ df.name r = sched.Employee a
            ∧ day_of a = Some da
            ∧ passes conn0 (take i (run.schedule st)) da (sched.Shift a) r.
Proof.
  induction 1 as [Hle|d zone todo st today H IH|d st today H IH Hlt].
  - intros i a Ha. cbn in Ha. discriminate.
  - destruct (reaches_range _ _ _ _ _ _ _ _ H) as [Hd _].
    zone_cases ap d st today zone reason Hnone p chosen Hin Hmin; [exact IH|].
    intros i a [[Hi Ha]|[-> <-]]%lookup_snoc_Some.
    + rewrite take_app_le by lia. now apply IH.
    + rewrite take_app_length. cbn [sched.Employee sched.Shift].
      apply list_elem_of_omap in Hin as (r & Hr & Hc).
      assert (df.name r = chosen) as Hn
        by (apply candidate_Some in Hc as ([= _ _ ->] & _); reflexivity).
      destruct (reaches_row _ _ _ _ _ H Hr) as (r0 & Hr0 & E).
      exists r0, d. split; [assumption|]. split.
      { rewrite <- Hn. unfold df_attrs in E. now injection E. }
      split; [unfold day_of; cbn; apply strptime_strftime; lia|].
      apply passes_attrs with r; [now symmetry|].
      apply (reaches_candidate _ _ _ _ _ _ H). now rewrite Hc.
  - exact IH.
Qed.

(** Two rows of one person are at least 3 days apart. *)
Lemma reaches_cooldown d todo st today :
  R d todo st today ->
  ∀ i j a b, (i < j)%nat ->
    run.schedule st !! i = Some a -> run.schedule st !! j = Some b ->
    sched.Employee a = sched.Employee b ->
    ∃ da db, day_of a = Some da ∧ day_of b = Some db ∧ 3 <= db - da.
Proof.
  induction 1 as [Hle|d zone todo st today H IH|d st today H IH Hlt].
  - intros i j a b _ Ha. cbn in Ha. discriminate.
  - destruct (reaches_range _ _ _ _ _ _ _ _ H) as [Hd _].
    zone_cases ap d st today zone reason Hnone p chosen Hin Hmin; [exact IH|].
    intros i j a b Hij Ha [[Hj Hb]|[-> <-]]%lookup_snoc_Some Hab.
    + rewrite lookup_app_l in Ha by lia. now apply (IH i j).
    + rewrite lookup_app_l in Ha by lia. cbn [sched.Employee] in Hab.
      apply list_elem_of_lookup_2 in Ha.
      destruct (reaches_day_of _ _ _ _ Hstart Hend _ _ _ _ a H Ha)
        as (da & Hda & Eda & _).
      destruct (reaches_latest _ _ _ _ Hstart Hend _ _ _ _ H a da Ha Eda)
        as (l & El & Hl).
      exists da, d. split; [assumption|].
      split; [unfold day_of; cbn; apply strptime_strftime; lia|].
      apply list_elem_of_omap in Hin as (r & Hr & Hc).
      apply candidate_Some in Hc as ([= _ _ Hn] & _ & _ & C3 & _).
      rewrite <- Hn, (reaches_assigned_last _ _ _ _ Hstart Hend _ _ _ _ H),
        <- Hab, El in C3. lia.
  - exact IH.
Qed.

End Invariants2.

(** ** The (date, role) pairs of a run *)

Lemma ZONES_NoDup : NoDup ZONES.
Proof. apply (bool_decide_unpack (NoDup ZONES)). vm_compute. exact I. Qed.

Lemma slots_snoc start d :
  start <= d ->
  slots start d
  = slots start (d - 1) ++ ((fun zone => (datetime.strftime d, zone)) <$> ZONES).
Proof.
  intros H. unfold slots.
  replace (d - start + 1) with ((d - 1 - start + 1) + 1) by lia.
  rewrite seqZ_app by lia. rewrite bind_app. f_equal.
  replace (start + (d - 1 - start + 1)) with d by lia.
  change (seqZ d 1) with [d]. reflexivity.
Qed.

Lemma slots_NoDup start end_ :
  1 <= start -> end_ <= datetime.MAXORDINAL -> NoDup (slots start end_).
Proof.
  intros Hs He. unfold slots. apply NoDup_bind.
  - intros d1 d2 [ds z] H1 H2 I1 I2.
    apply elem_of_seqZ in H1, H2.
    apply list_elem_of_fmap in I1 as (z1 & [= E1 _] & _).
    apply list_elem_of_fmap in I2 as (z2 & [= E2 _] & _).
    apply strftime_inj; [lia|lia|congruence].
  - intros d _. apply NoDup_fmap_2; [|apply ZONES_NoDup].
    intros z1 z2 [= E]. exact E.
  - apply NoDup_seqZ.
Qed.

Section Slots.

Variables (ap : bool) (conn0 : Conn) (start end_ : Z).

Local Abbreviation R := (reaches ap conn0 start end_).

(** The rows emitted so far are those of the pairs handled so far. *)
Lemma reaches_slots d todo st today :
  R d todo st today ->
  ∀ done, ZONES = done ++ todo ->
    (sched_slot <$> run.schedule st) ++ (unas_slot <$> run.unassigned st)
    ≡ₚ slots start (d - 1) ++ ((fun zone => (datetime.strftime d, zone)) <$> done).
Proof.
  induction 1 as [Hle|d zone todo st today H IH|d st today H IH Hlt];
    intros done' Hdone.
  - assert (done' = []) as -> by (apply (app_inv_tail ZONES); now rewrite <- Hdone).
    unfold slots. rewrite seqZ_nil by lia. reflexivity.
  - destruct (reaches_range _ _ _ _ _ _ _ _ H) as [_ [done Hz]].
    assert (done' = done ++ [zone]) as ->.
    { apply (app_inv_tail todo). rewrite <- Hdone, <- app_assoc. exact Hz. }
    specialize (IH done Hz).
    zone_cases ap d st today zone reason Hnone p chosen Hin Hmin;
      rewrite !fmap_app; cbn [fmap list_fmap].
    + rewrite !app_assoc. rewrite IH. reflexivity.
    + rewrite (app_assoc (slots start (d - 1))), <- IH.
      rewrite <- !app_assoc. apply Permutation_app_head.
      apply Permutation_app_comm.
  - assert (done' = []) as -> by (apply (app_inv_tail ZONES); now rewrite <- Hdone).
    destruct (reaches_range _ _ _ _ _ _ _ _ H) as [Hd _].
    rewrite (IH ZONES) by now rewrite app_nil_r.
    replace (d + 1 - 1) with d by lia.
    rewrite (slots_snoc start d) by lia. cbn. now rewrite app_nil_r.
Qed.

Lemma reaches_unassigned d todo st today :
  R d todo st today ->
  ∀ u, u ∈ run.unassigned st ->
    unas.Reason u = "No employees"%string
    ∨ unas.Reason u = "No eligible employees"%string.
Proof.
  induction 1 as [Hle|d zone todo st today H IH|d st today H IH Hlt].
  - intros u Hu. inversion Hu.
  - unfold zone_body. destruct (get_employees (run.conn st)).
    + cbn. intros u [Hu|Hu%list_elem_of_singleton]%elem_of_app; [auto|].
      subst u. now left.
    + destruct (sort _) as [|[[? ?] ?] ?]; cbn; [|exact IH].
      intros u [Hu|Hu%list_elem_of_singleton]%elem_of_app; [auto|].
      subst u. now right.
  - exact IH.
Qed.

End Slots.

(** ** What a call returns *)

Lemma while_days_mono fuel :
  ∀ ap end_ d st res,
    while_days fuel ap end_ d st = Some res ->
    while_days (S fuel) ap end_ d st = Some res.
Proof.
  induction fuel as [|fuel IH]; intros ap end_ d st res; [discriminate|].
  intros H. cbn [while_days] in H. cbn [while_days].
  destruct (d <=? end_); [|exact H].
  destruct (day_body ap d st) as [st' [[]|e]]; [|exact H].
  destruct (d + 1 <=? datetime.MAXORDINAL); [|exact H].
  apply IH in H. exact H.
Qed.

Lemma while_days_more fuel k ap end_ d st res :
  while_days fuel ap end_ d st = Some res ->
  while_days (k + fuel) ap end_ d st = Some res.
Proof.
  induction k as [|k IH]; intros H; [exact H|].
  cbn [Nat.add]. apply while_days_mono. auto.
Qed.

(** A call that returns two lists has parsed a range of days and, if the
    range is not reversed, has run its loops to the end of the last day. *)
Lemma generate_schedule_Ok fuel conn start_date end_date ap conn' sch uns :
  generate_schedule fuel conn start_date end_date ap = Some (conn', Ok (sch, uns)) ->
  ∃ ds de,
    datetime.strptime start_date = Some ds
    ∧ datetime.strptime end_date = Some de
    ∧ ((de < ds ∧ conn' = conn ∧ sch = [] ∧ uns = [])
       ∨ ((Y1000 <= ds ∧ ds <= de < datetime.MAXORDINAL)
          ∧ ∃ st today,
              reaches ap conn ds de de [] st today
              ∧ conn' = run.conn st ∧ sch = run.schedule st
              ∧ uns = run.unassigned st)).
Proof.
  unfold generate_schedule.
  destruct (datetime.strptime start_date) as [ds|] eqn:Hs; [|discriminate].
  destruct (datetime.strptime end_date) as [de|] eqn:He; [|discriminate].
  cbv zeta. fold (initial conn).
  destruct (while_days fuel ap de ds (initial conn)) as [[st o]|] eqn:W;
    [|discriminate].
  intros Hret. exists ds, de. split; [reflexivity|]. split; [reflexivity|].
  pose proof (strptime_range _ _ Hs) as Rs.
  pose proof (strptime_range _ _ He) as Re.
  destruct (Z_lt_le_dec de ds) as [Hlt|Hle].
  - left. split; [assumption|].
    destruct fuel as [|fuel]; [discriminate|]. cbn [while_days] in W.
    destruct (ds <=? de) eqn:C; [apply Z.leb_le in C; lia|].
    injection W as <- <-. now injection Hret as <- <- <-.
  - right.
    assert (Hlong : Y1000 <= ds).
    { destruct (Z_lt_le_dec ds Y1000) as [Hshort|Hlong]; [exfalso|exact Hlong].
      destruct fuel as [|fuel]; [discriminate|]. cbn [while_days] in W.
      destruct (ds <=? de) eqn:C; [|apply Z.leb_gt in C; lia].
      unfold day_body in W. rewrite is_weekend_short in W by lia.
      injection W as <- <-. discriminate. }
    apply (while_days_more _ (Z.to_nat (de - ds + 2))) in W.
    destruct (while_days_reaches ap conn ds de Hlong (proj2 Re)
                (Z.to_nat (de - ds + 2) + fuel) ds (initial conn))
      as (st' & today & HR & E); [apply reaches_start; lia|lia|].
    rewrite W in E. injection E as -> ->.
    destruct (de <? datetime.MAXORDINAL) eqn:L; [|discriminate].
    apply Z.ltb_lt in L. split; [lia|].
    exists st', today. now injection Hret as <- <- <-.
Qed.

(** ** The states a call passes through *)

Lemma reaches_not_before ap conn0 start end_ d zone st today :
  ¬ reaches ap conn0 start end_ d (zone :: ZONES) st today.
Proof.
  intros H. destruct (reaches_range _ _ _ _ _ _ _ _ H) as [_ [done E]].
  apply (f_equal length) in E. rewrite length_app in E. cbn in E. lia.
Qed.

(** The day and the roles still to handle determine the state. *)
Lemma reaches_fun ap conn0 start end_ d todo st1 today1 :
  reaches ap conn0 start end_ d todo st1 today1 ->
  ∀ st2 today2,
    reaches ap conn0 start end_ d todo st2 today2 -> st1 = st2 ∧ today1 = today2.
Proof.
  induction 1 as [Hle|d zone todo st today H IH|d st today H IH Hlt];
    intros st2 today2 H2.
  - inversion H2 as [Hle'|d' zone' todo' st' today' H' E1 E2|d' st' today' H' Hlt' E1];
      subst.
    + auto.
    + exfalso. eapply reaches_not_before. exact H'.
    + exfalso. destruct (reaches_range _ _ _ _ _ _ _ _ H'). lia.
  - inversion H2 as [Hle'|d' zone' todo' st' today' H' E1 E2|d' st' today' H' Hlt' E1];
      subst.
    + exfalso. eapply reaches_not_before. exact H.
    + assert (zone' = zone) as ->.
      { destruct (reaches_range _ _ _ _ _ _ _ _ H) as [_ [done E]].
        destruct (reaches_range _ _ _ _ _ _ _ _ H') as [_ [done' E']].
        rewrite E in E'. apply app_inj_2 in E' as [_ [= ->]]; reflexivity. }
      destruct (IH _ _ H') as [-> ->]. auto.
    + exfalso. eapply reaches_not_before. exact H.
  - inversion H2 as [Hle'|d' zone' todo' st' today' H' E1 E2|d' st' today' H' Hlt' E1];
      subst.
    + exfalso. destruct (reaches_range _ _ _ _ _ _ _ _ H). lia.
    + exfalso. eapply reaches_not_before. exact H'.
    + assert (d' = d) as -> by lia. destruct (IH _ _ H') as [-> _]. auto.
Qed.

Lemma zone_body_extends ap ds cur pv st today zone :
  run.schedule st `prefix_of` run.schedule (zone_body ap ds cur pv (st, today) zone).1
  ∧ run.unassigned st
    `prefix_of` run.unassigned (zone_body ap ds cur pv (st, today) zone).1.
Proof.
  destruct (zone_body_spec ap ds cur pv st today zone)
    as [[_ [reason ->]]|(p & chosen & _ & _ & ->)]; cbn;
    split; try reflexivity; apply prefix_app_r; reflexivity.
Qed.

Lemma reaches_end_of_day ap conn0 start end_ d todo :
  ∀ st today,
    reaches ap conn0 start end_ d todo st today ->
    ∃ st' today',
      reaches ap conn0 start end_ d [] st' today'
      ∧ run.schedule st `prefix_of` run.schedule st'
      ∧ run.unassigned st `prefix_of` run.unassigned st'.
Proof.
  induction todo as [|zone todo IH]; intros st today H.
  - exists st, today. split; [assumption|]. split; reflexivity.
  - destruct (zone_body_extends ap (datetime.strftime d) d (dayLoadCost d) st today zone)
      as [P1 P2].
    apply reaches_zone in H.
    destruct (IH _ _ H) as (st' & today' & H' & Q1 & Q2).
    exists st', today'. split; [assumption|].
    split; etransitivity; eassumption.
Qed.

(** Every state of the relation is on the way to the end of the last day,
    and the rows it holds stay. *)
Lemma reaches_progress ap conn0 start end_ d todo st today :
  reaches ap conn0 start end_ d todo st today ->
  ∃ st' today',
    reaches ap conn0 start end_ end_ [] st' today'
    ∧ run.schedule st `prefix_of` run.schedule st'
    ∧ run.unassigned st `prefix_of` run.unassigned st'.
Proof.
  intros H. destruct (reaches_range _ _ _ _ _ _ _ _ H) as [Hd _].
  remember (Z.to_nat (end_ - d)) as n eqn:En.
  revert d todo st today H Hd En.
  induction n as [|n IH]; intros d todo st today H Hd En.
  - assert (d = end_) as -> by lia. now apply reaches_end_of_day with todo today.
  - destruct (reaches_end_of_day _ _ _ _ _ _ _ _ H) as (st1 & today1 & H1 & P1 & P2).
    assert (Hday : reaches ap conn0 start end_ (d + 1) ZONES st1 ∅)
      by (apply reaches_day with today1; [assumption|lia]).
    destruct (IH (d + 1) ZONES st1 ∅ Hday) as (st' & today' & H' & Q1 & Q2); [lia..|].
    exists st', today'. split; [assumption|].
    split; etransitivity; eassumption.
Qed.

(** The states of the relation are states of the call: the rows of each of
    them open the two lists the call returns. *)
Lemma reaches_in_call fuel conn start_date end_date ap conn' sch uns ds de
    d todo st today :
  generate_schedule fuel conn start_date end_date ap = Some (conn', Ok (sch, uns)) ->
  datetime.strptime start_date = Some ds ->
  datetime.strptime end_date = Some de ->
  reaches ap conn ds de d todo st today ->
  run.schedule st `prefix_of` sch ∧ run.unassigned st `prefix_of` uns.
Proof.
  intros G Hs He H.
  apply generate_schedule_Ok in G
    as (ds' & de' & Hs' & He' & [(Hlt & _)|(_ & st' & today' & H' & _ & -> & ->)]);
    rewrite Hs in Hs'; rewrite He in He';
    injection Hs' as <-; injection He' as <-.
  - destruct (reaches_range _ _ _ _ _ _ _ _ H). lia.
  - destruct (reaches_progress _ _ _ _ _ _ _ _ H) as (st1 & today1 & H1 & P1 & P2).
    destruct (reaches_fun _ _ _ _ _ _ _ _ H1 _ _ H') as [-> _]. auto.
Qed.

(** ** The eligibility filter *)

Lemma NoDup_fmap_elem {A B} (f : A → B) (l : list A) x y :
  NoDup (f <$> l) -> x ∈ l -> y ∈ l -> f x = f y -> x = y.
Proof.
  intros N [i Hi]%list_elem_of_lookup [j Hj]%list_elem_of_lookup E.
  assert (i = j) as ->; [|congruence].
  apply (NoDup_lookup _ _ _ (f x) N); rewrite list_lookup_fmap.
  - now rewrite Hi.
  - rewrite Hj. cbn. now rewrite E.
Qed.

Lemma get_employees_names (c : Conn) : df.name <$> get_employees c = sql.name <$> c.
Proof.
  unfold get_employees. rewrite <- list_fmap_compose.
  apply list_fmap_ext. reflexivity.
Qed.

Lemma attrs_names (c c0 : Conn) :
  attrs <$> c = attrs <$> c0 -> sql.name <$> c = sql.name <$> c0.
Proof.
  intros E. apply (f_equal (fmap (fun a : string * option Z * option string
                                            * option string * option string =>
                                    a.1.1.1.1))) in E.
  rewrite <- !list_fmap_compose in E. exact E.
Qed.

Lemma initial_points_map_fold l :
  ∀ (m : gmap string Z) n v,
    fold_left (fun m r => <[df.name r := default 0 (df.points r)]> m) l m !! n = Some v ->
    m !! n = Some v ∨ ∃ r, r ∈ l ∧ df.name r = n ∧ v = default 0 (df.points r).
Proof.
  induction l as [|x l IH]; intros m n v; cbn [fold_left]; [auto|].
  intros H. apply IH in H as [H|(r & Hr & E)].
  - destruct (decide (df.name x = n)) as [<-|Hne].
    + rewrite lookup_insert_eq in H. injection H as <-.
      right. exists x. split; [left|auto].
    + rewrite lookup_insert_ne in H by assumption. now left.
  - right. exists r. split; [now right|assumption].
Qed.

Lemma initial_points_map_lookup l n v :
  initial_points_map l !! n = Some v ->
  ∃ r, r ∈ l ∧ df.name r = n ∧ v = default 0 (df.points r).
Proof.
  intros H. apply initial_points_map_fold in H as [H|H]; [|exact H].
  rewrite lookup_empty in H. discriminate.
Qed.

Lemma get_employees_elem (conn : Conn) r :
  r ∈ get_employees conn ->
  ∃ q, q ∈ conn ∧ df.name r = sql.name q ∧ df.points r = sql.points q
       ∧ df.max_points r = sql.max_points q.
Proof.
  unfold get_employees. intros (q & -> & Hq)%list_elem_of_fmap.
  exists q. auto.
Qed.

Lemma initial_points_map_skip l :
  ∀ (m : gmap string Z) n,
    n ∉ df.name <$> l ->
    fold_left (fun m r => <[df.name r := default 0 (df.points r)]> m) l m !! n = m !! n.
Proof.
  induction l as [|x l IH]; intros m n Hn; cbn [fold_left]; [reflexivity|].
  rewrite fmap_cons, not_elem_of_cons in Hn. destruct Hn as [Hx Hl].
  rewrite IH by assumption. now apply lookup_insert_ne.
Qed.

Lemma initial_points_map_elem l :
  ∀ (m : gmap string Z) r,
    NoDup (df.name <$> l) -> r ∈ l ->
    fold_left (fun m r => <[df.name r := default 0 (df.points r)]> m) l m !! df.name r
    = Some (default 0 (df.points r)).
Proof.
  induction l as [|x l IH]; intros m r N Hr; [inversion Hr|].
  rewrite fmap_cons in N. apply NoDup_cons in N as [Hx N].
  cbn [fold_left]. apply elem_of_cons in Hr as [->|Hr].
  - rewrite initial_points_map_skip by assumption. apply lookup_insert_eq.
  - now apply IH.
Qed.

Lemma initial_points_map_row (conn : Conn) q :
  NoDup (sql.name <$> conn) -> q ∈ conn ->
  initial_points_map (get_employees conn) !! sql.name q
  = Some (default 0 (sql.points q)).
Proof.
  intros N Hq.
  set (r := df.mk (sql.name q) (sql.points q) (sql.max_points q)
              (if pystr.truthy (sql.off_days q)
               then pystr.split "," (default EmptyString (sql.off_days q)) else [])
              (sql.preferred_zone q)
              (filter (fun s => s <> EmptyString)
                 (if pystr.truthy (sql.allowed_zones q)
                  then pystr.split "," (default EmptyString (sql.allowed_zones q))
                  else []))).
  assert (Hr : r ∈ get_employees conn).
  { unfold get_employees. apply list_elem_of_In, in_map_iff. exists q.
    split; [reflexivity|now apply list_elem_of_In]. }
  change (sql.name q) with (df.name r). change (sql.points q) with (df.points r).
  apply initial_points_map_elem; [|exact Hr].
  now rewrite get_employees_names.
Qed.

(** *** The stored load and the tally of the engine *)

Lemma stored_load_row (conn : Conn) q :
  NoDup (sql.name <$> conn) -> q ∈ conn ->
  stored_load conn (sql.name q) = default 0 (sql.points q).
Proof.
  unfold stored_load. induction conn as [|q0 conn IH]; intros N Hq; [inversion Hq|].
  rewrite fmap_cons in N. apply NoDup_cons in N as [Hq0 N].
  destruct (decide (sql.name q0 = sql.name q)) as [E|Hne].
  - rewrite filter_cons_True by exact E.
    apply elem_of_cons in Hq as [->|Hq]; [reflexivity|].
    exfalso. apply Hq0. rewrite E. now apply list_elem_of_fmap_2.
  - rewrite filter_cons_False by exact Hne.
    apply elem_of_cons in Hq as [->|Hq]; [contradiction|]. now apply IH.
Qed.

Lemma stored_load_absent (conn : Conn) n :
  n ∉ sql.name <$> conn -> stored_load conn n = 0.
Proof.
  unfold stored_load. induction conn as [|q0 conn IH]; intros Hn; [reflexivity|].
  rewrite fmap_cons in Hn. apply not_elem_of_cons in Hn as [Hne Hn].
  rewrite filter_cons_False by (intros E; now apply Hne). now apply IH.
Qed.

(** Under the primary key, the load the engine reads at the start of a run
    is the stored one. *)
Lemma initial_points_map_stored (conn : Conn) n :
  NoDup (sql.name <$> conn) ->
  default 0 (initial_points_map (get_employees conn) !! n) = stored_load conn n.
Proof.
  intros N. destruct (decide (n ∈ sql.name <$> conn)) as [Hin|Hn].
  - apply list_elem_of_fmap in Hin as (q & -> & Hq).
    now rewrite initial_points_map_row, stored_load_row.
  - rewrite stored_load_absent by exact Hn.
    unfold initial_points_map. rewrite initial_points_map_skip.
    + reflexivity.
    + now rewrite get_employees_names.
Qed.

Lemma load_in_run (conn : Conn) l n :
  NoDup (sql.name <$> conn) -> load conn l n = in_run_load conn l n.
Proof. intros N. unfold load, in_run_load. now rewrite initial_points_map_stored. Qed.

Lemma passes_admissible (conn : Conn) l d zone r :
  NoDup (sql.name <$> conn) -> passes conn l d zone r <-> admissible conn l d zone r.
Proof.
  intros N. split; intros [A1 A2 A3 A4 A5]; split; try assumption.
  - now rewrite <- load_in_run.
  - now rewrite load_in_run.
Qed.

(** A row of the frame of a state the run reaches, and the row of the frame
    at the start with the same columns but the load. *)
Lemma reaches_row_back ap conn0 start end_ d todo st today r0 :
  reaches ap conn0 start end_ d todo st today ->
  r0 ∈ get_employees conn0 ->
  ∃ r, r ∈ get_employees (run.conn st) ∧ df_attrs r = df_attrs r0.
Proof.
  intros H Hr0.
  pose proof (get_employees_attrs _ _ (reaches_attrs _ _ _ _ _ _ _ _ H)) as Hattrs.
  assert (Hin : df_attrs r0 ∈ df_attrs <$> get_employees (run.conn st)).
  { rewrite Hattrs. now apply list_elem_of_fmap_2. }
  apply list_elem_of_fmap in Hin as (r & Hr & Hin). eauto.
Qed.

(** C2.  At every pair (day, role) a run considers, a person of the roster is
    collected into [candidates] if and only if the five conditions of the
    eligibility filter hold on the history of the run: the text of the day is
    not among the blocked dates; no row of the run assigns the person on that
    day; the latest row of the person, if any, is at least 3 days old; the
    load stored for the person at the start of the run plus the cost of the
    person's rows so far plus the cost of the day is at most the ceiling; the
    role is among the eligible roles.  The pairs a run considers are the
    states of [reaches] with a role at the head of [todo];
    [reaches_in_call] and [generate_schedule_reaches] tie these states to the
    call. *)
Theorem eligibility_filter ap conn0 start end_ d zone todo st today r :
  NoDup (sql.name <$> conn0) ->
  reaches ap conn0 start end_ d (zone :: todo) st today ->
  r ∈ get_employees (run.conn st) ->
  (∃ c, c ∈ omap (candidate (datetime.strftime d) d (dayLoadCost d) zone st today)
               (get_employees (run.conn st))
        ∧ c.2 = df.name r)
  <-> admissible conn0 (run.schedule st) d zone r.
Proof.
  intros N H Hr.
  destruct (reaches_calendar _ _ _ _ _ _ _ _ H) as [Hs He].
  rewrite <- (passes_admissible conn0 _ _ _ _ N).
  rewrite <- (reaches_candidate ap conn0 start end_ Hs He d zone todo st today r H).
  split.
  - intros (c & (r' & Hr' & Hc)%list_elem_of_omap & Hn).
    assert (r' = r) as ->; [|now rewrite Hc].
    apply (NoDup_fmap_elem df.name (get_employees (run.conn st))); try assumption.
    + rewrite get_employees_names.
      now rewrite (attrs_names _ _ (reaches_attrs _ _ _ _ _ _ _ _ H)).
    + apply candidate_Some in Hc as (-> & _). now cbn in Hn.
  - intros [c Hc]. exists c. split.
    + apply list_elem_of_omap. eauto.
    + apply candidate_Some in Hc as (-> & _). reflexivity.
Qed.
(** ** The candidate ranker *)

(** The tuples of [candidates] at a pair a run considers: one for each
    admissible person of the roster, with the person's preference match,
    in-run load and name. *)
Lemma reaches_candidates ap conn0 start end_ d zone todo st today :
  NoDup (sql.name <$> conn0) ->
  reaches ap conn0 start end_ d (zone :: todo) st today ->
  ∀ c, c ∈ omap (candidate (datetime.strftime d) d (dayLoadCost d) zone st today)
                (get_employees (run.conn st))
       <-> ∃ r, r ∈ get_employees conn0
                ∧ admissible conn0 (run.schedule st) d zone r
                ∧ c = (prefers r zone,
                       in_run_load conn0 (run.schedule st) (df.name r),
                       df.name r).
Proof.
  intros N H c.
  destruct (reaches_calendar _ _ _ _ _ _ _ _ H) as [Hs He].
  pose proof (reaches_points_map _ _ _ _ _ _ _ _ H) as Hpm.
  assert (Tuple : ∀ r r0, df_attrs r = df_attrs r0 ->
            (String.eqb (pystr.strip (default EmptyString (df.preferred_zone r))) zone,
             default 0 (run.points_map st !! df.name r), df.name r)
            = (prefers r0 zone, in_run_load conn0 (run.schedule st) (df.name r0),
               df.name r0)).
  { intros r r0 E. unfold df_attrs in E. unfold prefers.
    assert (E1 : df.name r = df.name r0) by congruence.
    assert (E2 : df.preferred_zone r = df.preferred_zone r0) by congruence.
    now rewrite Hpm, (load_in_run _ _ _ N), E1, E2. }
  split.
  - intros (r & Hr & Hc)%list_elem_of_omap.
    destruct (reaches_row _ _ _ _ _ _ _ _ r H Hr) as (r0 & Hr0 & Hattr).
    exists r0. split; [exact Hr0|]. split.
    + apply (passes_admissible _ _ _ _ _ N), (passes_attrs _ _ _ _ r r0);
        [now symmetry|].
      apply (reaches_candidate ap conn0 start end_ Hs He d zone todo st today r H).
      now rewrite Hc.
    + apply candidate_Some in Hc as (-> & _). apply Tuple. now symmetry.
  - intros (r0 & Hr0 & Hadm & ->).
    destruct (reaches_row_back _ _ _ _ _ _ _ _ r0 H Hr0) as (r & Hr & Hattr).
    apply (passes_admissible _ _ _ _ _ N), (passes_attrs _ _ _ _ r0 r) in Hadm;
      [|now symmetry].
    apply (reaches_candidate ap conn0 start end_ Hs He d zone todo st today r H)
      in Hadm as [c Hc].
    apply list_elem_of_omap. exists r. split; [exact Hr|].
    rewrite Hc. f_equal. apply candidate_Some in Hc as (-> & _). now apply Tuple.
Qed.

(** C3.  At a pair (day, role) a run considers, the tuples the engine ranks
    are those of the admissible persons of the roster, each with the
    person's preference match (the stored preferred role is the role), the
    person's in-run load (the stored load at the start plus the cost of the
    person's rows so far) and the person's name.  When there is one, the
    engine assigns the pair to the one candidate that is minimal in the
    ranking (preference match first, then lower load, then smaller name):
    every other candidate is ranked strictly after it, so it is the only
    minimal one, and a candidate with another name is never tied with it.  In
    particular, of two candidates that both prefer the role, the one with
    the strictly lower load is assigned. *)
Theorem ranker_selects_minimum ap conn0 start end_ d zone todo st today :
  NoDup (sql.name <$> conn0) ->
  reaches ap conn0 start end_ d (zone :: todo) st today ->
  let cands := omap (candidate (datetime.strftime d) d (dayLoadCost d) zone st today)
                    (get_employees (run.conn st)) in
  (∀ c, c ∈ cands <->
        ∃ r, r ∈ get_employees conn0
             ∧ admissible conn0 (run.schedule st) d zone r
             ∧ c = (prefers r zone,
                    in_run_load conn0 (run.schedule st) (df.name r),
                    df.name r))
  ∧ (cands <> [] ->
     ∃ winner,
       winner ∈ cands
       ∧ run.schedule (zone_body ap (datetime.strftime d) d (dayLoadCost d)
                         (st, today) zone).1
         = run.schedule st
           ++ [sched.mk (datetime.strftime d) zone winner.2 (dayLoadCost d)]
       ∧ (∀ c, c ∈ cands -> c = winner ∨ ranks_before winner c)
       ∧ (∀ c, c ∈ cands -> (∀ c', c' ∈ cands -> ¬ ranks_before c' c) -> c = winner)
       ∧ (∀ c, c ∈ cands -> c.2 <> winner.2 -> ranks_before winner c)
       ∧ (∀ x y, (∀ c, c ∈ cands <-> c = x ∨ c = y) ->
                 x.1.1 = true -> y.1.1 = true -> x.1.2 < y.1.2 -> winner = x)).
Proof.
  intros N H cands. split; [exact (reaches_candidates _ _ _ _ _ _ _ _ _ N H)|].
  intros Hne.
  destruct (zone_body_spec ap (datetime.strftime d) d (dayLoadCost d) st today zone)
    as [[Hnone _]|(p & chosen & Hin & Hmin & E)]; [contradiction|].
  fold cands in Hin, Hmin.
  exists (p, default 0 (run.points_map st !! chosen), chosen).
  split; [assumption|]. split; [now rewrite E|]. split; [assumption|].
  split; [|split].
  - intros c Hc Hmin'. destruct (Hmin c Hc) as [|Hb]; [assumption|].
    exfalso. exact (Hmin' _ Hin Hb).
  - intros c Hc Hn. destruct (Hmin c Hc) as [->|]; [contradiction|assumption].
  - intros x y Hxy Hx Hy Hlt.
    destruct (proj1 (Hxy _) Hin) as [|Ew]; [assumption|exfalso].
    destruct (Hmin x (proj2 (Hxy x) (or_introl eq_refl))) as [Ex|Hb].
    + rewrite Ex, Ew in Hlt. lia.
    + rewrite Ew in Hb. unfold ranks_before, mismatch in Hb.
      rewrite Hx, Hy in Hb. lia.
Qed.
(** ** Load ceiling and cooldown *)

(** Every row a run returns is for a person of the roster who passed the
    filter on the rows before it, at the cost of its day. *)
Lemma returned_rows_admissible fuel conn start_date end_date ap conn' sch uns :
  generate_schedule fuel conn start_date end_date ap = Some (conn', Ok (sch, uns)) ->
  ∀ i a, sch !! i = Some a ->
    ∃ r d, r ∈ get_employees conn ∧ df.name r = sched.Employee a
           ∧ day_of a = Some d
           ∧ sched.Points a = dayLoadCost d
           ∧ passes conn (take i sch) d (sched.Shift a) r.
Proof.
  intros G i a Ha.
  apply generate_schedule_Ok in G
    as (ds & de & Hs & He & [(_ & _ & -> & _)|(Hr & st & today & H & _ & -> & _)]);
    [discriminate|].
  pose proof (strptime_range _ _ Hs) as Rs.
  destruct (reaches_admissible ap conn ds de
              (proj1 (reaches_calendar _ _ _ _ _ _ _ _ H))
              (proj2 (reaches_calendar _ _ _ _ _ _ _ _ H))
              _ _ _ _ H i a Ha)
    as (r & d & Hin & Hn & Hd & A).
  destruct (reaches_rows ap conn ds de _ _ _ _ H a (list_elem_of_lookup_2 _ _ _ Ha))
    as (d' & Hd' & E & Hp & _).
  exists r, d. split; [assumption|]. split; [assumption|].
  split; [assumption|]. split; [|assumption].
  rewrite Hp. unfold day_of in Hd. rewrite E, strptime_strftime in Hd by lia.
  congruence.
Qed.

(** C4.  For every assignment row a run returns over a store with one row
    per name, the load of its person before the row (the load stored for the
    person at the start of the run plus the cost of the person's earlier
    rows) plus the cost of the day, 2 on Saturday and Sunday and 1 otherwise,
    is at most the ceiling stored for the person, a missing ceiling counting
    as 0. *)
Theorem load_ceiling_invariant fuel conn start_date end_date ap conn' sch uns :
  NoDup (sql.name <$> conn) ->
  generate_schedule fuel conn start_date end_date ap = Some (conn', Ok (sch, uns)) ->
  ∀ i a, sch !! i = Some a ->
    ∃ q d, q ∈ conn ∧ sql.name q = sched.Employee a
           ∧ day_of a = Some d
           ∧ sched.Points a = dayLoadCost d
           ∧ default 0 (sql.points q) + accrued (sched.Employee a) (take i sch)
             + sched.Points a
             <= default 0 (sql.max_points q).
Proof.
  intros N G i a Ha.
  destruct (returned_rows_admissible _ _ _ _ _ _ _ _ G i a Ha)
    as (r & d & Hin & Hn & Hd & Hp & [_ _ _ A4 _]).
  apply get_employees_elem in Hin as (q & Hq & Eq1 & _ & Eq3).
  exists q, d. split; [exact Hq|]. split; [congruence|].
  split; [exact Hd|]. split; [exact Hp|].
  rewrite (load_in_run _ _ _ N) in A4. unfold in_run_load, loadCeiling in A4.
  rewrite Eq1, (stored_load_row conn q N Hq), Eq3 in A4.
  rewrite <- Hn, Eq1, Hp. exact A4.
Qed.

(** C5.  In the rows a run returns, two rows of one person are for days at
    least 3 apart; in particular they are never for the same date, so no
    person holds two roles on one day. *)
Theorem cooldown_invariant fuel conn start_date end_date ap conn' sch uns :
  generate_schedule fuel conn start_date end_date ap = Some (conn', Ok (sch, uns)) ->
  ∀ i j a b, i <> j -> sch !! i = Some a -> sch !! j = Some b ->
    sched.Employee a = sched.Employee b ->
    ∃ da db, day_of a = Some da ∧ day_of b = Some db
             ∧ 3 <= Z.abs (da - db) ∧ sched.Date a <> sched.Date b.
Proof.
  intros G i j a b Hij Ha Hb Hab.
  apply generate_schedule_Ok in G
    as (ds & de & Hs & He & [(_ & _ & -> & _)|(Hr & st & today & H & _ & -> & _)]);
    [discriminate|].
  pose proof (strptime_range _ _ Hs) as Rs.
  assert (Hij' : (i < j)%nat ∨ (j < i)%nat) by lia.
  destruct Hij' as [Hlt|Hlt].
  - destruct (reaches_cooldown ap conn ds de
              (proj1 (reaches_calendar _ _ _ _ _ _ _ _ H))
              (proj2 (reaches_calendar _ _ _ _ _ _ _ _ H))
              _ _ _ _ H
                i j a b Hlt Ha Hb Hab) as (da & db & Ea & Eb & Hd).
    exists da, db. repeat split; try assumption; [lia|].
    intros E. unfold day_of in Ea, Eb. rewrite E in Ea. rewrite Ea in Eb.
    injection Eb as <-. lia.
  - destruct (reaches_cooldown ap conn ds de
              (proj1 (reaches_calendar _ _ _ _ _ _ _ _ H))
              (proj2 (reaches_calendar _ _ _ _ _ _ _ _ H))
              _ _ _ _ H
                j i b a Hlt Hb Ha (eq_sym Hab)) as (db & da & Eb & Ea & Hd).
    exists da, db. repeat split; try assumption; [lia|].
    intros E. unfold day_of in Ea, Eb. rewrite E in Ea. rewrite Ea in Eb.
    injection Eb as <-. lia.
Qed.

(** ** One row per (date, role) pair *)

Lemma slots_elem start end_ d zone :
  start <= d <= end_ -> zone ∈ ZONES -> (datetime.strftime d, zone) ∈ slots start end_.
Proof.
  intros Hd Hz. unfold slots. apply list_elem_of_bind. exists d. split.
  - apply list_elem_of_fmap. eauto.
  - apply elem_of_seqZ. lia.
Qed.

(** On a range of days from 1000-01-01 on that ends before the last day of
    the calendar, a call returns exactly one row, assignment or unassigned,
    for each pair of a day of the range and a role: the pairs of its rows
    are the pairs of the range, each once. *)
Lemma generate_schedule_covers fuel conn start_date end_date ap ds de :
  datetime.strptime start_date = Some ds ->
  datetime.strptime end_date = Some de ->
  Y1000 <= ds -> ds <= de -> de < datetime.MAXORDINAL ->
  de - ds + 1 < Z.of_nat fuel ->
  ∃ conn' sch uns,
    generate_schedule fuel conn start_date end_date ap = Some (conn', Ok (sch, uns))
    ∧ (sched_slot <$> sch) ++ (unas_slot <$> uns) ≡ₚ slots ds de
    ∧ NoDup (slots ds de)
    ∧ ∀ d zone, ds <= d <= de -> zone ∈ ZONES ->
        (datetime.strftime d, zone) ∈ (sched_slot <$> sch) ++ (unas_slot <$> uns).
Proof.
  intros Hs He Hlong Hle Hlt Hfuel.
  destruct (generate_schedule_reaches fuel conn start_date end_date ap ds de)
    as (st & today & H & E); try assumption; [lia|].
  apply Z.ltb_lt in Hlt. rewrite Hlt in E.
  exists (run.conn st), (run.schedule st), (run.unassigned st).
  split; [exact E|].
  pose proof (strptime_range _ _ Hs) as Rs.
  pose proof (strptime_range _ _ He) as Re.
  assert (P : (sched_slot <$> run.schedule st) ++ (unas_slot <$> run.unassigned st)
              ≡ₚ slots ds de).
  { rewrite (reaches_slots _ _ _ _ _ _ _ _ H ZONES) by now rewrite app_nil_r.
    now rewrite <- slots_snoc. }
  split; [exact P|]. split; [apply slots_NoDup; lia|].
  intros d zone Hd Hz. rewrite P. now apply slots_elem.
Qed.

(** A range from 1000-01-01 on that ends on the last day of the calendar:
    the advance of [current] past it raises. *)
Lemma generate_schedule_overflow fuel conn start_date end_date ap ds :
  datetime.strptime start_date = Some ds ->
  datetime.strptime end_date = Some datetime.MAXORDINAL ->
  Y1000 <= ds ->
  datetime.MAXORDINAL - ds + 1 < Z.of_nat fuel ->
  ∃ conn', generate_schedule fuel conn start_date end_date ap
           = Some (conn', Raise OverflowError).
Proof.
  intros Hs He Hlong Hfuel. pose proof (strptime_range _ _ Hs) as Rs.
  destruct (generate_schedule_reaches fuel conn start_date end_date ap ds
              datetime.MAXORDINAL) as (st & today & H & E);
    try assumption; [lia|].
  rewrite Z.ltb_irrefl in E. eauto.
Qed.

(** C1.  The claim: one row for each (date, role) pair of every valid range.
    The code, on the range made of the last day of the calendar alone: the
    five roles of the day are handled, then [current += timedelta(days=1)]
    raises [OverflowError] and the call returns no row at all. *)
Theorem last_day_overflow :
  datetime.strptime "9999-12-31" = Some datetime.MAXORDINAL
  ∧ generate_schedule 2 roster_xy "9999-12-31" "9999-12-31" false
    = Some (roster_xy, Raise OverflowError).
Proof. split; vm_compute; reflexivity. Qed.

(** ** The reversed range *)

(** C7 (amended).  For a start date strictly after the end date, the handler
    of the Generate button reports the error and does not call
    [generate_schedule]: no row is produced and the store is as before.
    [generate_schedule] itself does not validate the range: called with it,
    it raises nothing, its loop body never runs and it returns two empty
    lists. *)
Theorem reversed_range_rejected fuel conn start_date end_date ap :
  end_date < start_date ->
  on_generate fuel conn start_date end_date ap
  = Some (conn, inl "Start date must be on or before end date."%string)
  ∧ ∀ start_text end_text,
      datetime.strptime start_text = Some start_date ->
      datetime.strptime end_text = Some end_date ->
      generate_schedule (S fuel) conn start_text end_text ap
      = Some (conn, Ok ([], [])).
Proof.
  intros Hlt. split.
  - unfold on_generate. apply Z.ltb_lt in Hlt. now rewrite Hlt.
  - intros start_text end_text Hs He.
    now apply generate_schedule_reversed with start_date end_date.
Qed.

Lemma reversed_range_rejected_witness :
  on_generate 0 roster_xy 739470 739464 true
  = Some (roster_xy, inl "Start date must be on or before end date."%string)
  ∧ generate_schedule 1 roster_xy (datetime.strftime 739470)
      (datetime.strftime 739464) true
    = Some (roster_xy, Ok ([], [])).
Proof.
  destruct (reversed_range_rejected 0 roster_xy 739470 739464 true ltac:(lia))
    as [H1 H2].
  split; [exact H1|]. apply H2; vm_compute; reflexivity.
Defined.

(** C7, as stated, fails: [generate_schedule] on a reversed range returns;
    it raises nothing. *)
Lemma reversed_range_not_raised :
  generate_schedule 1 roster_xy "2025-08-07" "2025-08-01" true
  = Some (roster_xy, Ok ([], []))
  ∧ ¬ ∃ conn' e, generate_schedule 1 roster_xy "2025-08-07" "2025-08-01" true
                 = Some (conn', Raise e).
Proof.
  assert (E : generate_schedule 1 roster_xy "2025-08-07" "2025-08-01" true
              = Some (roster_xy, Ok ([], []))) by (vm_compute; reflexivity).
  split; [exact E|]. intros (conn' & e & E'). rewrite E in E'. discriminate.
Qed.

(** ** The store *)

Lemma zone_body_frame ds cur pv s zone :
  run.conn (zone_body false ds cur pv s zone).1 = run.conn s.1.
Proof.
  destruct s as [st today].
  destruct (zone_body_spec false ds cur pv st today zone)
    as [[_ [reason ->]]|(p & chosen & _ & _ & ->)]; reflexivity.
Qed.

Lemma day_body_frame d st : run.conn (day_body false d st).1 = run.conn st.
Proof.
  unfold day_body. destruct (is_weekend _) as [w|e]; [|reflexivity].
  cbn [fst]. generalize (∅ : gset string). generalize ZONES.
  intros zones. revert st. induction zones as [|z zones IH]; intros st today.
  - reflexivity.
  - cbn [fold_left].
    destruct (zone_body false (datetime.strftime d) d (if w then 2 else 1) (st, today) z)
      as [st' today'] eqn:E.
    rewrite IH. change st' with (st', today').1. rewrite <- E.
    apply (zone_body_frame _ _ _ (st, today)).
  Qed.

Lemma while_days_frame fuel :
  ∀ end_ d st st' o,
    while_days fuel false end_ d st = Some (st', o) -> run.conn st' = run.conn st.
Proof.
  induction fuel as [|fuel IH]; intros end_ d st st' o; [discriminate|].
  cbn [while_days]. destruct (d <=? end_); [|now intros [= <- _]].
  pose proof (day_body_frame d st) as F.
  destruct (day_body false d st) as [st1 [[]|e]]; cbn in F.
  - destruct (d + 1 <=? datetime.MAXORDINAL).
    + intros W. apply IH in W. congruence.
    + intros [= <- _]. exact F.
  - intros [= <- _]. exact F.
Qed.

(** Without [apply_points] a call leaves the store as it found it, whatever
    it returns or raises. *)
Lemma generate_schedule_frame fuel conn start_date end_date conn' out :
  generate_schedule fuel conn start_date end_date false = Some (conn', out) ->
  conn' = conn.
Proof.
  unfold generate_schedule.
  destruct (datetime.strptime start_date); [|now intros [= <- _]].
  destruct (datetime.strptime end_date); [|now intros [= <- _]].
  cbv zeta. destruct (while_days _ _ _ _ _) as [[st o]|] eqn:W; [|discriminate].
  apply while_days_frame in W. cbn in W.
  destruct o as [[]|e]; intros [= <- _]; exact W.
Qed.

Lemma reset_points_all conn r :
  r ∈ reset_points conn None -> sql.points r = Some 0.
Proof.
  unfold reset_points. intros (r' & -> & _)%list_elem_of_fmap. reflexivity.
Qed.

(** C8.  After [reset_points] with no names every stored load is 0, and a run
    without [apply_points], over any range, ends (with enough fuel for its
    days) with the store exactly as it was before the run: every load is
    still 0. *)
Theorem reset_then_run_keeps_store conn start_date end_date :
  ∃ fuel0, ∀ fuel, (fuel0 <= fuel)%nat ->
    ∃ out,
      generate_schedule fuel (reset_points conn None) start_date end_date false
      = Some (reset_points conn None, out)
      ∧ ∀ r, r ∈ reset_points conn None -> sql.points r = Some 0.
Proof.
  destruct (generate_schedule_total (reset_points conn None) start_date end_date false)
    as [fuel0 T].
  exists fuel0. intros fuel Hf. destruct (T fuel Hf) as (conn' & out & E).
  exists out. split; [|apply reset_points_all].
  now rewrite E, (generate_schedule_frame _ _ _ _ _ _ E).
Qed.

(** ** A missing ceiling *)

Lemma accrued_nonneg n l :
  (∀ a, a ∈ l -> 0 <= sched.Points a) -> 0 <= accrued n l.
Proof.
  induction l as [|a l IH]; intros H; cbn; [lia|].
  fold (accrued n l).
  assert (0 <= accrued n l) by (apply IH; intros; apply H; now right).
  assert (0 <= sched.Points a) by (apply H; left).
  destruct (String.eqb _ _); lia.
Qed.

(** C10 (amended).  A person whose stored [max_points] is NULL has ceiling 0
    in the engine; if moreover the stored load of the person is NULL or not
    negative, no row a run returns assigns that person. *)
Theorem null_ceiling_never_assigned fuel conn start_date end_date ap conn' sch uns p :
  generate_schedule fuel conn start_date end_date ap = Some (conn', Ok (sch, uns)) ->
  NoDup (sql.name <$> conn) ->
  p ∈ conn ->
  sql.max_points p = None ->
  (∀ r, r ∈ get_employees conn -> df.name r = sql.name p -> loadCeiling r = 0)
  ∧ ((∀ v, sql.points p = Some v -> 0 <= v) ->
     ∀ a, a ∈ sch -> sched.Employee a <> sql.name p).
Proof.
  intros G N Hp Hmax.
  assert (Hceil : ∀ r, r ∈ get_employees conn -> df.name r = sql.name p ->
                       loadCeiling r = 0).
  { intros r Hr Hn. apply get_employees_elem in Hr as (q & Hq & E1 & _ & E3).
    assert (q = p) as ->
      by (apply (NoDup_fmap_elem sql.name conn); try assumption; congruence).
    unfold loadCeiling. now rewrite E3, Hmax. }
  split; [exact Hceil|].
  intros Hpts a Ha Hname.
  apply list_elem_of_lookup in Ha as [i Ha].
  destruct (returned_rows_admissible _ _ _ _ _ _ _ _ G i a Ha)
    as (r & d & Hr & Hn & _ & Hcost & [_ _ _ A4 _]).
  rewrite (Hceil r Hr) in A4 by congruence.
  assert (B : 0 <= default 0 (initial_points_map (get_employees conn) !! df.name r)).
  { destruct (initial_points_map (get_employees conn) !! df.name r) as [v|] eqn:L;
      [|cbn; lia].
    apply initial_points_map_lookup in L as (r' & Hr' & En & ->).
    apply get_employees_elem in Hr' as (q' & Hq' & F1 & F2 & _).
    assert (q' = p) as ->
      by (apply (NoDup_fmap_elem sql.name conn); try assumption; congruence).
    rewrite F2. destruct (sql.points p) as [v|] eqn:P; cbn; [auto|lia]. }
  assert (C : 0 <= accrued (df.name r) (take i sch)).
  { apply accrued_nonneg. intros b Hb.
    apply (subseteq_take i sch), list_elem_of_lookup in Hb as [j Hb].
    destruct (returned_rows_admissible _ _ _ _ _ _ _ _ G j b Hb)
      as (_ & d' & _ & _ & _ & -> & _).
    pose proof (dayLoadCost_pos d'). lia. }
  pose proof (dayLoadCost_pos d). unfold load in A4. lia.
Qed.

(** C10, as stated, fails: with a negative stored load the person with the
    missing ceiling passes the ceiling test and is assigned. *)
Lemma null_ceiling_assigned :
  sql.max_points <$> roster_null = [None]
  ∧ ∃ uns,
      generate_schedule 2 roster_null "2025-08-01" "2025-08-01" false
      = Some (roster_null, Ok ([sched.mk "2025-08-01" "A" "N" 1], uns)).
Proof. split; [reflexivity|]. eexists. vm_compute. reflexivity. Qed.

(** ** Determinism *)

(** With one row per name, the initial loads do not depend on the order of
    the rows. *)
Lemma initial_points_map_perm l1 l2 :
  NoDup (df.name <$> l1) -> l1 ≡ₚ l2 ->
  initial_points_map l1 = initial_points_map l2.
Proof.
  intros N P. assert (N2 : NoDup (df.name <$> l2)) by now rewrite <- P.
  apply map_eq. intros n. apply option_eq. intros v. split; intros H.
  - apply initial_points_map_lookup in H as (r & Hr & <- & ->).
    apply initial_points_map_elem; [assumption|now rewrite <- P].
  - apply initial_points_map_lookup in H as (r & Hr & <- & ->).
    apply initial_points_map_elem; [assumption|now rewrite P].
Qed.

Lemma candidate_state ds cur pv z st1 st2 today r :
  run.points_map st1 = run.points_map st2 ->
  run.assigned_last st1 = run.assigned_last st2 ->
  candidate ds cur pv z st1 today r = candidate ds cur pv z st2 today r.
Proof. unfold candidate. now intros -> ->. Qed.

Lemma get_employees_perm (c1 c2 : Conn) :
  c1 ≡ₚ c2 -> get_employees c1 ≡ₚ get_employees c2.
Proof. intros P. unfold get_employees. now apply Permutation_map. Qed.

Lemma update_points_perm (c1 c2 : Conn) n p :
  c1 ≡ₚ c2 -> update_points c1 n p ≡ₚ update_points c2 n p.
Proof. intros P. unfold update_points. now apply Permutation_map. Qed.

Lemma zone_body_perm ap ds cur pv st1 st2 today zone :
  same_run st1 st2 ->
  same_run (zone_body ap ds cur pv (st1, today) zone).1
           (zone_body ap ds cur pv (st2, today) zone).1
  ∧ (zone_body ap ds cur pv (st1, today) zone).2
    = (zone_body ap ds cur pv (st2, today) zone).2.
Proof.
  intros (Pc & Epm & Eal & Es & Eu). unfold zone_body. cbv zeta.
  pose proof (get_employees_perm _ _ Pc) as Pd.
  assert (Ec : sort (omap (candidate ds cur pv zone st1 today)
                          (get_employees (run.conn st1)))
               = sort (omap (candidate ds cur pv zone st2 today)
                            (get_employees (run.conn st2)))).
  { apply sort_perm_eq.
    transitivity (omap (candidate ds cur pv zone st2 today)
                       (get_employees (run.conn st1))).
    - erewrite list_omap_ext; [reflexivity|].
      apply Forall2_same_length_lookup_2; [reflexivity|].
      intros i r r' H H'. rewrite H in H'. injection H' as <-.
      now apply candidate_state.
    - now apply omap_Permutation. }
  rewrite Ec. clear Ec.
  generalize (sort (omap (candidate ds cur pv zone st2 today)
                         (get_employees (run.conn st2)))).
  intros cands.
  destruct (get_employees (run.conn st1)) as [|r1 l1];
    destruct (get_employees (run.conn st2)) as [|r2 l2].
  - unfold same_run. cbn. rewrite Eu. repeat split; auto.
  - apply Permutation_nil_cons in Pd. contradiction.
  - symmetry in Pd. apply Permutation_nil_cons in Pd. contradiction.
  - destruct cands as [|[[p pts] chosen] tl]; unfold same_run; cbn.
    + rewrite Eu. repeat split; auto.
    + rewrite Epm, Eal, Es. repeat split; auto.
      destruct ap; [now apply update_points_perm|assumption].
Qed.

Lemma fold_zones_perm ap ds cur pv zones :
  ∀ st1 st2 today,
    same_run st1 st2 ->
    same_run (fold_left (zone_body ap ds cur pv) zones (st1, today)).1
             (fold_left (zone_body ap ds cur pv) zones (st2, today)).1.
Proof.
  induction zones as [|z zones IH]; intros st1 st2 today S; cbn [fold_left].
  - exact S.
  - destruct (zone_body_perm ap ds cur pv st1 st2 today z S) as [S' E'].
    destruct (zone_body ap ds cur pv (st1, today) z) as [s1 t1].
    destruct (zone_body ap ds cur pv (st2, today) z) as [s2 t2].
    cbn in S', E'. subst t2. now apply IH.
Qed.

Lemma day_body_perm ap d st1 st2 :
  same_run st1 st2 ->
  same_run (day_body ap d st1).1 (day_body ap d st2).1
  ∧ (day_body ap d st1).2 = (day_body ap d st2).2.
Proof.
  intros S. unfold day_body. destruct (is_weekend _) as [w|e]; cbn [fst snd].
  - split; [now apply fold_zones_perm|reflexivity].
  - now split.
Qed.

Lemma while_days_perm fuel :
  ∀ ap end_ d st1 st2,
    same_run st1 st2 ->
    match while_days fuel ap end_ d st1, while_days fuel ap end_ d st2 with
    | Some (s1, o1), Some (s2, o2) => same_run s1 s2 ∧ o1 = o2
    | None, None => True
    | _, _ => False
    end.
Proof.
  induction fuel as [|fuel IH]; intros ap end_ d st1 st2 S; cbn [while_days];
    [exact I|].
  destruct (d <=? end_); [|now split].
  destruct (day_body_perm ap d st1 st2 S) as [S' E'].
  destruct (day_body ap d st1) as [s1 o1]. destruct (day_body ap d st2) as [s2 o2].
  cbn in S', E'. subst o2. destruct o1 as [[]|e]; [|now split].
  destruct (d + 1 <=? datetime.MAXORDINAL); [|now split].
  now apply IH.
Qed.

(** C6.  Two calls with identical inputs give identical results; more, the
    two sequences a call returns (or the error it raises) do not depend on
    the order in which the store yields the rows of the roster, the one
    thing the program leaves to its environment: nothing is random. *)
Theorem run_is_deterministic fuel start_date end_date apply_points :
  (∀ conn1 conn2, conn1 = conn2 ->
     generate_schedule fuel conn1 start_date end_date apply_points
     = generate_schedule fuel conn2 start_date end_date apply_points)
  ∧ (∀ conn1 conn2,
       NoDup (sql.name <$> conn1) -> conn1 ≡ₚ conn2 ->
       snd <$> generate_schedule fuel conn1 start_date end_date apply_points
       = snd <$> generate_schedule fuel conn2 start_date end_date apply_points).
Proof.
  split; [now intros conn1 conn2 ->|].
  intros conn1 conn2 N P. unfold generate_schedule.
  destruct (datetime.strptime start_date) as [ds|]; [|reflexivity].
  destruct (datetime.strptime end_date) as [de|]; [|reflexivity].
  cbv zeta.
  assert (S : same_run
                (run.mk conn1 (initial_points_map (get_employees conn1)) ∅ [] [])
                (run.mk conn2 (initial_points_map (get_employees conn2)) ∅ [] [])).
  { unfold same_run. cbn. repeat split; try assumption.
    apply initial_points_map_perm; [|now apply get_employees_perm].
    now rewrite get_employees_names. }
  pose proof (while_days_perm fuel apply_points de ds _ _ S) as W.
  destruct (while_days fuel apply_points de ds
              (run.mk conn1 (initial_points_map (get_employees conn1)) ∅ [] []))
    as [[s1 o1]|];
    destruct (while_days fuel apply_points de ds
                (run.mk conn2 (initial_points_map (get_employees conn2)) ∅ [] []))
      as [[s2 o2]|]; try contradiction; [|reflexivity].
  destruct W as [(_ & _ & _ & Es & Eu) <-].
  destruct o1 as [[]|e]; cbn; [|reflexivity]. now rewrite Es, Eu.
Qed.

(** ** The theorems at work *)

(** Scenario A: an empty roster, one day: five unassigned rows with the
    reason of the empty roster, and no assignment. *)
Example scenario_A :
  generate_schedule 3 [] "2025-08-01" "2025-08-01" false
  = Some ([], Ok ([], (fun zone => unas.mk "2025-08-01" zone "No employees") <$> ZONES)).
Proof. vm_compute. reflexivity. Qed.

(** Scenario B: one person, eligible for role A only, with ceiling 1, two
    consecutive weekdays: assigned on the first day; on the second day role A
    has no eligible candidate. *)
Example scenario_B :
  ∃ uns,
    generate_schedule 4 roster_one "2025-08-04" "2025-08-05" false
    = Some (roster_one, Ok ([sched.mk "2025-08-04" "A" "P" 1], uns))
    ∧ unas.mk "2025-08-05" "A" "No eligible employees" ∈ uns.
Proof.
  eexists. split; [vm_compute; reflexivity|]. do 4 right. left.
Qed.

(** Scenario C: [X] (load 0) and [Y] (load 3) both prefer role B; on a
    weekday role B goes to [X]. *)
Example scenario_C :
  ∃ uns,
    generate_schedule 3 roster_xy "2025-08-01" "2025-08-01" false
    = Some (roster_xy, Ok ([sched.mk "2025-08-01" "B" "X" 1], uns)).
Proof. eexists. vm_compute. reflexivity. Qed.

(** The demo roster on Friday 2025-08-01: each role goes to the first name
    among the persons who prefer it, all loads being 0. *)
Example demo_first_day :
  generate_schedule 3 demo_employees "2025-08-01" "2025-08-01" false
  = Some (demo_employees,
          Ok ([sched.mk "2025-08-01" "A" "PGY1-A" 1;
               sched.mk "2025-08-01" "B" "PGY1-B" 1;
               sched.mk "2025-08-01" "C" "PGY1-C" 1;
               sched.mk "2025-08-01" "I" "R3-A" 1;
               sched.mk "2025-08-01" "E" "R5-A" 1], [])).
Proof. vm_compute. reflexivity. Qed.

(** The cost of the days of a week: 1 from Monday 2025-08-04 to Friday, 2 on
    Saturday and Sunday. *)
Example weekend_weighting :
  dayLoadCost <$> seqZ 739467 7 = [1; 1; 1; 1; 1; 2; 2]
  ∧ datetime.strftime 739467 = "2025-08-04"%string.
Proof. split; vm_compute; reflexivity. Qed.

Lemma eligibility_filter_witness :
  let st := initial roster_xy in
  let r := df.mk "X" (Some 0) (Some 10) [] (Some "B"%string) ["B"%string] in
  NoDup (sql.name <$> roster_xy)
  ∧ reaches false roster_xy 739464 739464 739464 ZONES st ∅
  ∧ r ∈ get_employees (run.conn st)
  ∧ ((∃ c, c ∈ omap (candidate (datetime.strftime 739464) 739464
                               (dayLoadCost 739464) "A" st ∅)
                   (get_employees (run.conn st))
           ∧ c.2 = df.name r)
     <-> admissible roster_xy (run.schedule st) 739464 "A" r).
Proof.
  intros st r.
  assert (N : NoDup (sql.name <$> roster_xy))
    by (apply (bool_decide_unpack (NoDup _)); vm_compute; exact I).
  assert (H : reaches false roster_xy 739464 739464 739464 ZONES st ∅)
    by (apply reaches_start; unfold Y1000, datetime.MAXORDINAL; lia).
  assert (Hr : r ∈ get_employees (run.conn st)) by left.
  split; [exact N|]. split; [exact H|]. split; [exact Hr|].
  exact (eligibility_filter false roster_xy 739464 739464 739464 "A"
           ["B"; "C"; "I"; "E"]%string st ∅ r N H Hr).
Defined.

Lemma ranker_selects_minimum_witness :
  let s := zone_body false (datetime.strftime 739464) 739464 (dayLoadCost 739464)
             (initial roster_xy, ∅) "A" in
  let cands := omap (candidate (datetime.strftime 739464) 739464
                       (dayLoadCost 739464) "B" s.1 s.2)
                    (get_employees (run.conn s.1)) in
  NoDup (sql.name <$> roster_xy)
  ∧ reaches false roster_xy 739464 739464 739464 ["B"; "C"; "I"; "E"]%string s.1 s.2
  ∧ cands = [(true, 0, "X"); (true, 3, "Y")]%string
  ∧ ∃ winner,
      winner = (true, 0, "X"%string)
      ∧ run.schedule (zone_body false (datetime.strftime 739464) 739464
                        (dayLoadCost 739464) (s.1, s.2) "B").1
        = run.schedule s.1
          ++ [sched.mk (datetime.strftime 739464) "B" winner.2 (dayLoadCost 739464)].
Proof.
  intros s cands.
  assert (N : NoDup (sql.name <$> roster_xy))
    by (apply (bool_decide_unpack (NoDup _)); vm_compute; exact I).
  assert (H : reaches false roster_xy 739464 739464 739464
                ["B"; "C"; "I"; "E"]%string s.1 s.2).
  { apply (reaches_zone false roster_xy 739464 739464 739464 "A").
    apply reaches_start; unfold Y1000, datetime.MAXORDINAL; lia. }
  assert (E : cands = [(true, 0, "X"); (true, 3, "Y")]%string)
    by (vm_compute; reflexivity).
  split; [exact N|]. split; [exact H|]. split; [exact E|].
  pose proof (ranker_selects_minimum false roster_xy 739464 739464 739464 "B"
                ["C"; "I"; "E"]%string s.1 s.2 N H) as T.
  cbv zeta in T. destruct T as [_ T].
  destruct T as (winner & Hin & Hs & _ & _ & _ & Htwo).
  - fold cands. rewrite E. discriminate.
  - exists winner. split; [|exact Hs].
    apply (Htwo (true, 0, "X"%string) (true, 3, "Y"%string)); [|reflexivity..|cbn; lia].
    intros c. fold cands. rewrite E.
    rewrite elem_of_cons, elem_of_cons, elem_of_nil. tauto.
Defined.

Lemma load_ceiling_invariant_witness :
  NoDup (sql.name <$> roster_xy)
  ∧ generate_schedule 6 roster_xy "2025-08-01" "2025-08-04" false
    = Some (roster_xy, Ok (sch_xy, uns_xy))
  ∧ sch_xy !! 2%nat = Some (sched.mk "2025-08-04" "B" "X" 1)
  ∧ ∃ q d, q ∈ roster_xy ∧ sql.name q = "X"%string
           ∧ day_of (sched.mk "2025-08-04" "B" "X" 1) = Some d
           ∧ 1 = dayLoadCost d
           ∧ default 0 (sql.points q) + accrued "X" (take 2 sch_xy) + 1
             <= default 0 (sql.max_points q).
Proof.
  assert (N : NoDup (sql.name <$> roster_xy))
    by (apply (bool_decide_unpack (NoDup _)); vm_compute; exact I).
  assert (G : generate_schedule 6 roster_xy "2025-08-01" "2025-08-04" false
              = Some (roster_xy, Ok (sch_xy, uns_xy))) by (vm_compute; reflexivity).
  split; [exact N|]. split; [exact G|]. split; [reflexivity|].
  apply (load_ceiling_invariant 6 roster_xy "2025-08-01" "2025-08-04" false
           roster_xy sch_xy uns_xy N G 2%nat (sched.mk "2025-08-04" "B" "X" 1)).
  reflexivity.
Defined.

Lemma cooldown_invariant_witness :
  generate_schedule 6 roster_xy "2025-08-01" "2025-08-04" false
  = Some (roster_xy, Ok (sch_xy, uns_xy))
  ∧ sch_xy !! 0%nat = Some (sched.mk "2025-08-01" "B" "X" 1)
  ∧ sch_xy !! 2%nat = Some (sched.mk "2025-08-04" "B" "X" 1)
  ∧ ∃ da db, day_of (sched.mk "2025-08-01" "B" "X" 1) = Some da
             ∧ day_of (sched.mk "2025-08-04" "B" "X" 1) = Some db
             ∧ 3 <= Z.abs (da - db)
             ∧ "2025-08-01"%string <> "2025-08-04"%string.
Proof.
  assert (G : generate_schedule 6 roster_xy "2025-08-01" "2025-08-04" false
              = Some (roster_xy, Ok (sch_xy, uns_xy))) by (vm_compute; reflexivity).
  split; [exact G|]. split; [reflexivity|]. split; [reflexivity|].
  apply (cooldown_invariant 6 roster_xy "2025-08-01" "2025-08-04" false
           roster_xy sch_xy uns_xy G 0%nat 2%nat
           (sched.mk "2025-08-01" "B" "X" 1) (sched.mk "2025-08-04" "B" "X" 1));
    [lia|reflexivity..].
Defined.

Lemma run_is_deterministic_witness :
  NoDup (sql.name <$> roster_xy)
  ∧ roster_xy ≡ₚ reverse roster_xy
  ∧ snd <$> generate_schedule 6 roster_xy "2025-08-01" "2025-08-04" true
    = snd <$> generate_schedule 6 (reverse roster_xy) "2025-08-01" "2025-08-04" true.
Proof.
  assert (N : NoDup (sql.name <$> roster_xy))
    by (apply (bool_decide_unpack (NoDup _)); vm_compute; exact I).
  assert (P : roster_xy ≡ₚ reverse roster_xy) by (symmetry; apply reverse_Permutation).
  split; [exact N|]. split; [exact P|].
  exact (proj2 (run_is_deterministic 6 "2025-08-01" "2025-08-04" true)
           roster_xy (reverse roster_xy) N P).
Defined.

Lemma reset_then_run_keeps_store_witness :
  ∃ fuel0, ∀ fuel, (fuel0 <= fuel)%nat ->
    ∃ out,
      generate_schedule fuel (reset_points roster_xy None) "2025-08-01" "2025-08-04" false
      = Some (reset_points roster_xy None, out)
      ∧ ∀ r, r ∈ reset_points roster_xy None -> sql.points r = Some 0.
Proof.
  exact (reset_then_run_keeps_store roster_xy "2025-08-01" "2025-08-04").
Defined.


Lemma null_ceiling_never_assigned_witness :
  generate_schedule 3 roster_nx "2025-08-01" "2025-08-01" true
  = Some (update_points roster_nx "X" 1, Ok (sch_nx, uns_nx))
  ∧ sch_nx = [sched.mk "2025-08-01" "A" "X" 1]
  ∧ sched.Employee (sched.mk "2025-08-01" "A" "X" 1) <> "N"%string.
Proof.
  assert (G : generate_schedule 3 roster_nx "2025-08-01" "2025-08-01" true
              = Some (update_points roster_nx "X" 1, Ok (sch_nx, uns_nx)))
    by (vm_compute; reflexivity).
  split; [exact G|]. split; [reflexivity|].
  apply (null_ceiling_never_assigned 3 roster_nx "2025-08-01" "2025-08-01" true
           (update_points roster_nx "X" 1) sch_nx uns_nx
           (sql.mk "N" None None None None (Some "A"%string)) G).
  - apply (bool_decide_unpack (NoDup _)). vm_compute. exact I.
  - left.
  - reflexivity.
  - intros v [=].
  - left.
Defined.

(** * Further properties *)

(** ** The store *)

Lemma update_points_names (c : Conn) n p :
  sql.name <$> update_points c n p = sql.name <$> c.
Proof. apply attrs_names, update_points_attrs. Qed.

Lemma reset_points_names (c : Conn) names :
  sql.name <$> reset_points c names = sql.name <$> c.
Proof.
  unfold reset_points. rewrite <- list_fmap_compose. apply list_fmap_ext.
  intros i r _. cbn. now destruct (match names with None => _ | Some _ => _ end).
Qed.

Lemma int64_spec v :
  int64 v = true <-> - 9223372036854775808 <= v < 9223372036854775808.
Proof.
  unfold int64. change (2 ^ 63) with 9223372036854775808.
  rewrite andb_true_iff, Z.leb_le, Z.ltb_lt. reflexivity.
Qed.

Lemma add_or_update_employee_Ok_inv (c : Conn) name ip mp od pz az :
  (add_or_update_employee c name ip mp od pz az).2 = Ok tt ->
  int64 ip = true ∧ int64 mp = true.
Proof.
  unfold add_or_update_employee.
  destruct (int64 ip), (int64 mp); cbn; intros H; (discriminate || now split).
Qed.

Lemma add_or_update_employee_Ok (c : Conn) name ip mp od pz az :
  int64 ip = true -> int64 mp = true ->
  add_or_update_employee c name ip mp od pz az
  = ((add_or_update_employee c name ip mp od pz az).1, Ok tt).
Proof.
  intros H1 H2. unfold add_or_update_employee. now rewrite H1, H2.
Qed.

Lemma add_or_update_employee_Raise (c : Conn) name ip mp od pz az :
  int64 ip && int64 mp = false ->
  add_or_update_employee c name ip mp od pz az = (c, Raise OverflowError).
Proof. intros H. unfold add_or_update_employee. now rewrite H. Qed.

Lemma add_or_update_employee_names (c : Conn) name ip mp od pz az :
  sql.name <$> (add_or_update_employee c name ip mp od pz az).1
  = if int64 ip && int64 mp
    then if bool_decide (name ∈ sql.name <$> c) then sql.name <$> c
         else (sql.name <$> c) ++ [name]
    else sql.name <$> c.
Proof.
  unfold add_or_update_employee, insert_or_ignore. cbn [sql.name].
  destruct (int64 ip && int64 mp); cbn [fst]; [|reflexivity].
  change (map ?f ?l) with (f <$> l).
  rewrite <- list_fmap_compose.
  assert (E : ∀ l : Conn,
             (sql.name ∘ (fun r : sql.row =>
                if String.eqb (sql.name r) name
                then sql.mk (sql.name r) (sql.points r) (Some mp)
                       (Some (pystr.join "," (default [] od))) pz
                       (Some (pystr.join "," (default [] az)))
                else r)) <$> l = sql.name <$> l).
  { intros l. apply list_fmap_ext. intros i r _. cbn.
    now destruct (String.eqb (sql.name r) name). }
  rewrite E. change (map sql.name c) with (sql.name <$> c).
  destruct (bool_decide (name ∈ sql.name <$> c)); [reflexivity|].
  now rewrite fmap_app.
Qed.

Lemma delete_employees_names (c : Conn) names :
  sublist (sql.name <$> (delete_employees c names).1) (sql.name <$> c).
Proof.
  unfold delete_employees.
  destruct (match names with inl name => [name] | inr l => l end); cbn [fst].
  - reflexivity.
  - apply fmap_sublist, sublist_filter.
Qed.

(** X1.  Every operation on the store keeps the names unique: the upsert
    (whether it returns or raises), the increment, the reset and the
    deletion. *)
Theorem primary_key_kept (conn : Conn) :
  NoDup (sql.name <$> conn) ->
  (∀ name ip mp od pz az,
     NoDup (sql.name <$> (add_or_update_employee conn name ip mp od pz az).1))
  ∧ (∀ name points, NoDup (sql.name <$> update_points conn name points))
  ∧ (∀ names, NoDup (sql.name <$> reset_points conn names))
  ∧ (∀ names, NoDup (sql.name <$> (delete_employees conn names).1)).
Proof.
  intros N. repeat split.
  - intros name ip mp od pz az. rewrite add_or_update_employee_names.
    destruct (int64 ip && int64 mp); [|assumption].
    destruct (bool_decide (name ∈ sql.name <$> conn)) eqn:B; [assumption|].
    apply bool_decide_eq_false in B. apply NoDup_app. repeat split.
    + assumption.
    + intros x Hx ->%list_elem_of_singleton. contradiction.
    + apply NoDup_singleton.
  - intros. now rewrite update_points_names.
  - intros. now rewrite reset_points_names.
  - intros names. eapply sublist_NoDup; [exact N|]. apply delete_employees_names.
Qed.

(** *** Text columns: what is written is what is read *)

Lemma split_no_comma s : mentions "," s = false -> pystr.split "," s = [s].
Proof.
  induction s as [|c s IH]; cbn; [reflexivity|].
  destruct (Ascii.eqb c ","); cbn; [discriminate|].
  intros H. now rewrite IH.
Qed.

Lemma split_comma x rest :
  mentions "," x = false ->
  pystr.split "," (x +:+ String "," rest) = x :: pystr.split "," rest.
Proof.
  induction x as [|c x IH].
  - intros _. change (EmptyString +:+ String "," rest) with (String "," rest).
    reflexivity.
  - change (String c x +:+ String "," rest) with (String c (x +:+ String "," rest)).
    cbn [mentions pystr.split].
    destruct (Ascii.eqb c ","); cbn [orb]; [discriminate|].
    intros H. now rewrite IH.
Qed.

Lemma join_cons x y l :
  pystr.join "," (x :: y :: l) = x +:+ String "," (pystr.join "," (y :: l)).
Proof. reflexivity. Qed.

(** Splitting the joined text gives the list back, when no element holds a
    comma and the list is not empty. *)
Lemma split_join l :
  l <> [] -> Forall (fun s => mentions "," s = false) l ->
  pystr.split "," (pystr.join "," l) = l.
Proof.
  induction l as [|x [|y l] IH]; intros Hne F; [contradiction| |].
  - apply Forall_cons in F as [Hx _]. cbn. now apply split_no_comma.
  - apply Forall_cons in F as [Hx F]. rewrite join_cons, split_comma by assumption.
    f_equal. now apply IH.
Qed.

Lemma join_empty l :
  pystr.join "," l = EmptyString -> l = [] ∨ l = [EmptyString].
Proof.
  destruct l as [|x [|y l]]; [now left| |].
  - cbn. intros ->. now right.
  - rewrite join_cons. intros H. destruct x; discriminate.
Qed.

Lemma truthy_Some s : pystr.truthy (Some s) = negb (String.eqb s EmptyString).
Proof. now destruct s. Qed.

Lemma read_off_days od :
  Forall (fun s => s <> EmptyString ∧ mentions "," s = false) od ->
  (if pystr.truthy (Some (pystr.join "," od))
   then pystr.split "," (default EmptyString (Some (pystr.join "," od)))
   else [])
  = od.
Proof.
  intros F. cbn [default]. rewrite truthy_Some.
  destruct (String.eqb_spec (pystr.join "," od) EmptyString) as [E|Hne]; cbn.
  - apply join_empty in E as [->| ->]; [reflexivity|].
    apply Forall_cons in F as [[H _] _]. contradiction.
  - apply split_join.
    + intros ->. now apply Hne.
    + eapply Forall_impl; [exact F|]. now intros s [_ ?].
Qed.

Lemma read_allowed az :
  Forall (fun s => mentions "," s = false) az ->
  filter (fun s => s <> EmptyString)
    (if pystr.truthy (Some (pystr.join "," az))
     then pystr.split "," (default EmptyString (Some (pystr.join "," az)))
     else [])
  = filter (fun s => s <> EmptyString) az.
Proof.
  intros F. cbn [default]. rewrite truthy_Some.
  destruct (String.eqb_spec (pystr.join "," az) EmptyString) as [E|Hne]; cbn.
  - apply join_empty in E as [->| ->]; reflexivity.
  - rewrite split_join; [reflexivity| |assumption]. intros ->. now apply Hne.
Qed.

(** The row [get_employees] shows for a person after an upsert. *)
Lemma upsert_row conn name ip mp od pz az :
  int64 ip = true -> int64 mp = true ->
  let conn' := (add_or_update_employee conn name ip mp (Some od) pz (Some az)).1 in
  let read (l : list string) :=
    if pystr.truthy (Some (pystr.join "," l))
    then pystr.split "," (default EmptyString (Some (pystr.join "," l)))
    else [] in
  (∃ r, r ∈ get_employees conn' ∧ df.name r = name)
  ∧ ∀ r, r ∈ get_employees conn' -> df.name r = name ->
      df.max_points r = Some mp
      ∧ df.off_days r = read od
      ∧ df.preferred_zone r = pz
      ∧ df.allowed_zones r = filter (fun s => s <> EmptyString) (read az).
Proof.
  intros Hip Hmp conn' read. split.
  - assert (H : name ∈ df.name <$> get_employees conn').
    { rewrite get_employees_names. unfold conn'.
      rewrite add_or_update_employee_names, Hip, Hmp. cbn [andb].
      destruct (bool_decide (name ∈ sql.name <$> conn)) eqn:B.
      - now apply bool_decide_eq_true in B.
      - apply elem_of_app. right. left. }
    apply list_elem_of_fmap in H as (r & -> & Hr). eauto.
  - intros r Hr Hn. unfold get_employees in Hr.
    apply list_elem_of_fmap in Hr as (q & -> & Hq). cbn in Hn.
    unfold conn', add_or_update_employee in Hq. rewrite Hip, Hmp in Hq.
    cbn [andb fst] in Hq.
    apply list_elem_of_fmap in Hq as (q0 & -> & _).
    cbn [default] in *.
    destruct (String.eqb_spec (sql.name q0) name) as [E|Hne]; [|contradiction].
    cbn [df.max_points df.off_days df.preferred_zone df.allowed_zones
         sql.max_points sql.off_days sql.preferred_zone sql.allowed_zones].
    repeat split; reflexivity.
Qed.

(** Two upserts of one person that both reach the table. *)
Lemma upsert_rows_twice conn name ip mp od pz az ip' mp' od' pz' az' :
  int64 ip = true -> int64 mp = true -> int64 ip' = true -> int64 mp' = true ->
  add_or_update_employee
    (add_or_update_employee conn name ip mp od pz az).1 name ip' mp' od' pz' az'
  = add_or_update_employee conn name ip mp' od' pz' az'.
Proof.
  intros Hip Hmp Hip' Hmp'.
  set (c1 := (add_or_update_employee conn name ip mp od pz az).1).
  assert (H1 : name ∈ sql.name <$> c1).
  { unfold c1. rewrite add_or_update_employee_names, Hip, Hmp. cbn [andb].
    destruct (bool_decide (name ∈ sql.name <$> conn)) eqn:B.
    - now apply bool_decide_eq_true in B.
    - apply elem_of_app. right. left. }
  unfold add_or_update_employee at 1. unfold insert_or_ignore. cbn [sql.name].
  rewrite bool_decide_eq_true_2 by exact H1.
  unfold c1, add_or_update_employee, insert_or_ignore. cbn [sql.name].
  rewrite Hip, Hmp, Hip', Hmp'. cbn [andb fst]. f_equal.
  rewrite map_map.
  destruct (bool_decide (name ∈ map sql.name conn)).
  - apply map_ext. intros r.
    destruct (String.eqb_spec (sql.name r) name) as [E|Hne]; cbn [sql.name sql.points].
    + destruct (String.eqb_spec (sql.name r) name); [reflexivity|contradiction].
    + destruct (String.eqb_spec (sql.name r) name); [contradiction|reflexivity].
  - rewrite !map_app. f_equal.
    + apply map_ext. intros r.
      destruct (String.eqb_spec (sql.name r) name) as [E|Hne]; cbn [sql.name sql.points].
      * destruct (String.eqb_spec (sql.name r) name); [reflexivity|contradiction].
      * destruct (String.eqb_spec (sql.name r) name); [contradiction|reflexivity].
    + cbn [map sql.name sql.points].
      destruct (String.eqb_spec name name); [|contradiction].
      cbn [sql.name sql.points].
      destruct (String.eqb_spec name name); [reflexivity|contradiction].
Qed.

(** X2.  An upsert whose initial load and ceiling are 64-bit integers
    returns, and [get_employees] then shows the person with the given
    ceiling and preferred role, with the blocked dates as given (no date
    empty or with a comma) and with the eligible roles as given, less the
    empty ones (no role with a comma).  An upsert with another initial load
    or ceiling raises [OverflowError] and writes nothing. *)
Theorem upsert_read_back conn name ip mp od pz az :
  Forall (fun s => s <> EmptyString ∧ mentions "," s = false) od ->
  Forall (fun s => mentions "," s = false) az ->
  let call := add_or_update_employee conn name ip mp (Some od) pz (Some az) in
  (int64 ip = true -> int64 mp = true ->
   call.2 = Ok tt
   ∧ (∃ r, r ∈ get_employees call.1 ∧ df.name r = name)
   ∧ ∀ r, r ∈ get_employees call.1 -> df.name r = name ->
       df.max_points r = Some mp
       ∧ df.off_days r = od
       ∧ df.preferred_zone r = pz
       ∧ df.allowed_zones r = filter (fun s => s <> EmptyString) az)
  ∧ (int64 ip && int64 mp = false -> call = (conn, Raise OverflowError)).
Proof.
  intros Fo Fa call. split.
  - intros Hip Hmp.
    destruct (upsert_row conn name ip mp od pz az Hip Hmp) as [Hex Hrow].
    split; [|split; [exact Hex|]].
    + unfold call. now rewrite add_or_update_employee_Ok.
    + intros r Hr Hn.
      destruct (Hrow r Hr Hn) as (Hm & Ho & Hp & Ha).
      split; [exact Hm|]. split; [now rewrite Ho, read_off_days|].
      split; [exact Hp|]. now rewrite Ha, read_allowed.
  - apply add_or_update_employee_Raise.
Qed.

(** X3.  Two upserts of one person in a row, with initial loads and
    ceilings of 64 bits, amount to one: the load is the one the first upsert
    left (the stored one, or its initial load for a new person), the
    attributes are those of the second.  When the first upsert raises, the
    second is an upsert on the store as it was; when the second raises, the
    store is as the first left it. *)
Theorem upsert_twice conn name ip mp od pz az ip' mp' od' pz' az' :
  let first := add_or_update_employee conn name ip mp od pz az in
  let second := add_or_update_employee first.1 name ip' mp' od' pz' az' in
  (int64 ip = true -> int64 mp = true -> int64 ip' = true -> int64 mp' = true ->
   first.2 = Ok tt
   ∧ second = add_or_update_employee conn name ip mp' od' pz' az')
  ∧ (int64 ip && int64 mp = false ->
     first = (conn, Raise OverflowError)
     ∧ second = add_or_update_employee conn name ip' mp' od' pz' az')
  ∧ (int64 ip' && int64 mp' = false ->
     second = (first.1, Raise OverflowError)).
Proof.
  intros first second. split; [|split].
  - intros Hip Hmp Hip' Hmp'. split.
    + unfold first. now rewrite add_or_update_employee_Ok.
    + now apply upsert_rows_twice.
  - intros H. unfold second, first.
    rewrite (add_or_update_employee_Raise conn name ip mp od pz az H).
    now split.
  - apply add_or_update_employee_Raise.
Qed.

Lemma filter_all {A} (P : A → Prop) `{∀ x, Decision (P x)} (l : list A) :
  (∀ x, x ∈ l -> P x) -> filter P l = l.
Proof.
  induction l as [|x l IH]; intros F; [reflexivity|].
  rewrite filter_cons_True by (apply F; left).
  f_equal. apply IH. intros y Hy. apply F. now right.
Qed.

Lemma filter_none {A} (P : A → Prop) `{∀ x, Decision (P x)} (l : list A) :
  (∀ x, x ∈ l -> ¬ P x) -> filter P l = [].
Proof.
  induction l as [|x l IH]; intros F; [reflexivity|].
  rewrite filter_cons_False by (apply F; left).
  apply IH. intros y Hy. apply F. now right.
Qed.



Lemma sql_row_eta (r : sql.row) :
  sql.mk (sql.name r) (sql.points r) (sql.max_points r) (sql.off_days r)
         (sql.preferred_zone r) (sql.allowed_zones r) = r.
Proof. now destruct r. Qed.

Lemma with_load_0 q : with_load 0 q = q.
Proof.
  unfold with_load. destruct q as [n [p|] m o pz az]; cbn; [|reflexivity].
  now rewrite Z.add_0_r.
Qed.

(** X5.  Increments of the stored load add up and commute; an increment of
    0, or for a name that is not in the store, changes nothing.  The
    increments, their sum, the stored loads and every sum the table comes to
    hold are 64-bit integers: beyond them the statement of SQLite stores a
    REAL, or [sqlite3] refuses the increment. *)
Theorem update_points_additive conn name p q :
  int64 p = true -> int64 q = true -> int64 (p + q) = true ->
  (∀ r v, r ∈ conn -> sql.points r = Some v ->
     int64 v = true ∧ int64 (v + p) = true ∧ int64 (v + q) = true
     ∧ int64 (v + p + q) = true) ->
  update_points (update_points conn name p) name q = update_points conn name (p + q)
  ∧ update_points conn name 0 = conn
  ∧ (name ∉ sql.name <$> conn -> update_points conn name p = conn)
  ∧ ∀ other, update_points (update_points conn name p) other q
             = update_points (update_points conn other q) name p.
Proof.
  intros _ _ _ _.
  unfold update_points. split; [|split; [|split]].
  - rewrite map_map. apply map_ext. intros r.
    destruct (String.eqb_spec (sql.name r) name) as [E|Hne]; cbn [sql.name].
    + destruct (String.eqb_spec (sql.name r) name); [|contradiction].
      cbn. f_equal. destruct (sql.points r); cbn; [|reflexivity]. f_equal. lia.
    + destruct (String.eqb_spec (sql.name r) name); [contradiction|reflexivity].
  - rewrite <- (map_id conn) at 2. apply map_ext. intros r.
    destruct (String.eqb (sql.name r) name); [|reflexivity].
    rewrite <- (sql_row_eta r) at 7. f_equal.
    destruct (sql.points r); cbn; [|reflexivity]. f_equal. lia.
  - intros Hn. rewrite <- (map_id conn) at 2. apply map_ext_in. intros r Hr.
    destruct (String.eqb_spec (sql.name r) name) as [E|Hne]; [|reflexivity].
    exfalso. apply Hn. rewrite <- E. apply list_elem_of_fmap_2.
    now apply list_elem_of_In.
  - intros other. rewrite !map_map. apply map_ext. intros r.
    destruct (String.eqb_spec (sql.name r) name) as [E|Hne];
      destruct (String.eqb_spec (sql.name r) other) as [E'|Hne'];
      cbn [sql.name sql.points sql.max_points sql.off_days sql.preferred_zone
           sql.allowed_zones].
    + destruct (String.eqb_spec (sql.name r) name); [|contradiction].
      destruct (String.eqb_spec (sql.name r) other); [|contradiction].
      cbn. f_equal. destruct (sql.points r); cbn; [|reflexivity]. f_equal. lia.
    + destruct (String.eqb_spec (sql.name r) name); [|contradiction].
      destruct (String.eqb_spec (sql.name r) other); [contradiction|reflexivity].
    + destruct (String.eqb_spec (sql.name r) name); [contradiction|].
      destruct (String.eqb_spec (sql.name r) other); [reflexivity|contradiction].
    + destruct (String.eqb_spec (sql.name r) name); [contradiction|].
      destruct (String.eqb_spec (sql.name r) other); [contradiction|reflexivity].
Qed.






(** *** The forms of the sidebar *)

Lemma split_mentions s : Forall (fun w => mentions "," w = false) (pystr.split "," s).
Proof.
  induction s as [|c s IH]; cbn [pystr.split].
  - now constructor.
  - destruct (Ascii.eqb c ",") eqn:E.
    + now constructor.
    + destruct (pystr.split "," s) as [|w ws]; inversion IH; subst.
      * constructor; [|constructor]. cbn. now rewrite E.
      * constructor; [|assumption]. cbn. now rewrite E.
Qed.

Lemma mentions_lstrip c s : mentions c s = false -> mentions c (pystr.lstrip s) = false.
Proof.
  induction s as [|c' s IH]; [reflexivity|].
  intros H. cbn [pystr.lstrip]. destruct (pystr.isspace c'); [|exact H].
  apply IH. cbn in H. now apply orb_false_iff in H as [_ H].
Qed.

Lemma mentions_rstrip c s : mentions c s = false -> mentions c (pystr.rstrip s) = false.
Proof.
  induction s as [|c' s IH]; [reflexivity|].
  intros H. cbn in H. apply orb_false_iff in H as [H1 H2].
  cbn [pystr.rstrip]. specialize (IH H2).
  destruct (pystr.rstrip s) as [|c2 r].
  - destruct (pystr.isspace c'); [reflexivity|]. cbn. now rewrite H1.
  - cbn [mentions]. cbn [mentions] in IH. now rewrite H1, IH.
Qed.

Lemma split_strip_items text :
  Forall (fun s => s <> EmptyString ∧ mentions "," s = false) (split_strip text).
Proof.
  unfold split_strip. apply Forall_fmap, Forall_forall. intros w Hw.
  apply list_elem_of_filter in Hw as [Hne Hw]. split; [exact Hne|].
  apply mentions_rstrip, mentions_lstrip.
  pose proof (split_mentions text) as F. rewrite Forall_forall in F. now apply F.
Qed.

Lemma ZONES_items : Forall (fun z => z <> EmptyString ∧ mentions "," z = false
                                     ∧ pystr.strip z = z) ZONES.
Proof. repeat constructor; discriminate. Qed.

(** X7.  "Save Employee" with the two numbers between 0 and 999, as the
    form keeps them, returns; and whenever it returns, [get_employees] then
    shows the person with the ceiling typed, with the blocked dates typed
    between the commas, stripped, the blank ones left out, and with the roles
    selected; the preferred role the engine compares with is the choice of
    the select box. *)
Theorem on_save_employee_read_back conn name initial max_pts off_days preferred allowed :
  Forall (fun z => z ∈ ZONES) allowed ->
  preferred ∈ EmptyString :: ZONES ->
  let saved := on_save_employee conn name initial max_pts off_days preferred allowed in
  (0 <= initial <= 999 -> 0 <= max_pts <= 999 -> saved.2 = Ok tt)
  ∧ (saved.2 = Ok tt ->
     (∃ r, r ∈ get_employees saved.1 ∧ df.name r = name)
     ∧ ∀ r, r ∈ get_employees saved.1 -> df.name r = name ->
         df.max_points r = Some max_pts
         ∧ df.off_days r = split_strip off_days
         ∧ df.allowed_zones r = allowed
         ∧ pystr.strip (default EmptyString (df.preferred_zone r)) = preferred).
Proof.
  intros Fa Hp saved. unfold saved, on_save_employee. split.
  { intros Hi Hm. rewrite add_or_update_employee_Ok; [reflexivity| |];
      apply int64_spec; lia. }
  intros Hok. apply add_or_update_employee_Ok_inv in Hok as [Hi Hm].
  destruct (upsert_row conn name initial max_pts (split_strip off_days)
              (if pystr.truthy (Some preferred) then Some preferred else None)
              allowed Hi Hm) as [Hex Hrow].
  split; [exact Hex|]. intros r Hr Hn.
  destruct (Hrow r Hr Hn) as (Hm' & Ho & Hpz & Ha).
  pose proof ZONES_items as Z. rewrite Forall_forall in Z.
  assert (Fa' : Forall (fun s => s <> EmptyString ∧ mentions "," s = false) allowed).
  { eapply Forall_impl; [exact Fa|]. intros z Hz. destruct (Z z Hz) as (? & ? & _).
    now split. }
  split; [exact Hm'|]. split.
  { rewrite Ho. apply read_off_days, split_strip_items. }
  split.
  { rewrite Ha, read_allowed.
    - apply filter_all. intros z Hz. rewrite Forall_forall in Fa'. now apply Fa'.
    - eapply Forall_impl; [exact Fa'|]. now intros z [_ ?]. }
  rewrite Hpz. apply elem_of_cons in Hp as [->|Hp]; [reflexivity|].
  destruct (Z preferred Hp) as (Hne & _ & Hs).
  destruct preferred; [contradiction|]. exact Hs.
Qed.
(** ** The engine *)

Section History.

Variables (conn0 : Conn) (start end_ : Z).

(** With [apply_points] the store holds, at every moment of the run, the
    stored loads of the start plus what the rows emitted so far cost. *)
Lemma reaches_persisted d todo st today :
  reaches true conn0 start end_ d todo st today ->
  run.conn st
  = (fun q => with_load (accrued (sql.name q) (run.schedule st)) q) <$> conn0.
Proof.
  induction 1 as [Hle|d zone todo st today H IH|d st today H IH Hlt].
  - cbn. rewrite <- (list_fmap_id conn0) at 1. apply list_fmap_ext.
    intros i q _. cbn. now rewrite with_load_0.
  - zone_cases true d st today zone reason Hnone p chosen Hin Hmin; [exact IH|].
    rewrite IH. unfold update_points. change (map ?f ?l) with (f <$> l).
    rewrite <- list_fmap_compose. apply list_fmap_ext. intros i q _. cbn.
    rewrite accrued_snoc. cbn [sched.Employee sched.Points].
    rewrite String.eqb_sym.
    destruct (String.eqb chosen (sql.name q)).
    + unfold with_load. cbn. f_equal.
      destruct (sql.points q); cbn; [|reflexivity]. f_equal. lia.
    + now rewrite Z.add_0_r.
  - exact IH.
Qed.

Variable ap : bool.

Local Abbreviation R := (reaches ap conn0 start end_).

(** The rows come out in the order of the loops. *)
Lemma reaches_order d todo st today :
  R d todo st today ->
  ∀ done, ZONES = done ++ todo ->
    (sched_slot <$> run.schedule st)
      `sublist_of` slots start (d - 1) ++ ((fun zone => (datetime.strftime d, zone)) <$> done)
    ∧ (unas_slot <$> run.unassigned st)
      `sublist_of` slots start (d - 1) ++ ((fun zone => (datetime.strftime d, zone)) <$> done).
Proof.
  induction 1 as [Hle|d zone todo st today H IH|d st today H IH Hlt];
    intros done' Hdone.
  - cbn. split; apply sublist_nil_l.
  - destruct (reaches_range _ _ _ _ _ _ _ _ H) as [_ [done Hz]].
    assert (done' = done ++ [zone]) as ->.
    { apply (app_inv_tail todo). rewrite <- Hdone, <- app_assoc. exact Hz. }
    destruct (IH done Hz) as [IHs IHu].
    rewrite fmap_app, app_assoc. cbn [fmap list_fmap].
    zone_cases ap d st today zone reason Hnone p chosen Hin Hmin;
      rewrite fmap_app; cbn [fmap list_fmap]; split.
    + now apply sublist_inserts_r.
    + now apply sublist_app.
    + now apply sublist_app.
    + now apply sublist_inserts_r.
  - assert (done' = []) as -> by (apply (app_inv_tail ZONES); now rewrite <- Hdone).
    destruct (reaches_range _ _ _ _ _ _ _ _ H) as [Hd _].
    replace (d + 1 - 1) with d by lia.
    rewrite (slots_snoc start d) by lia. cbn [fmap list_fmap]. rewrite app_nil_r.
    apply IH. now rewrite app_nil_r.
Qed.

(** Whoever has a row is, with all the rows emitted so far, within the
    ceiling of a row of the roster. *)
Lemma reaches_ceiling d todo st today :
  R d todo st today ->
  ∀ a, a ∈ run.schedule st ->
    ∃ r, r ∈ get_employees conn0 ∧ df.name r = sched.Employee a
         ∧ load conn0 (run.schedule st) (sched.Employee a) <= loadCeiling r.
Proof.
  induction 1 as [Hle|d zone todo st today H IH|d st today H IH Hlt].
  - intros a Ha. inversion Ha.
  - pose proof (reaches_points_map _ _ _ _ _ _ _ _ H) as Hpm.
    pose proof H as H'.
    zone_cases ap d st today zone reason Hnone p chosen Hin Hmin; [exact IH|].
    apply list_elem_of_omap in Hin as (r & Hr & Hc).
    apply candidate_Some in Hc as ([= _ _ Hn] & _ & _ & _ & Hceil & _).
    destruct (reaches_row _ _ _ _ _ _ _ _ r H' Hr) as (r0 & Hr0 & Hattr).
    assert (Hname : df.name r0 = chosen ∧ loadCeiling r0 = default 0 (df.max_points r)).
    { unfold df_attrs in Hattr. injection Hattr as E1 E2 _ _ _.
      unfold loadCeiling. rewrite E2. split; congruence. }
    destruct Hname as [Hname Hmax].
    assert (Hnew : load conn0 (run.schedule st ++ [sched.mk (datetime.strftime d) zone chosen (dayLoadCost d)]) chosen
                   <= loadCeiling r0).
    { unfold load. rewrite accrued_snoc. cbn [sched.Employee sched.Points].
      rewrite String.eqb_refl. rewrite Hmax.
      rewrite <- Hn, Hpm in Hceil. unfold load in Hceil. lia. }
    intros a [Ha|Ha%list_elem_of_singleton]%elem_of_app.
    + destruct (String.eqb_spec chosen (sched.Employee a)) as [E|Hne].
      * exists r0. rewrite <- E. auto.
      * destruct (IH a Ha) as (ra & Hra & Hna & Hla). exists ra.
        split; [assumption|]. split; [assumption|].
        unfold load in *. rewrite accrued_snoc. cbn [sched.Employee sched.Points].
        destruct (String.eqb_spec chosen (sched.Employee a)); [contradiction|]. lia.
    + subst a. cbn [sched.Employee]. exists r0. auto.
  - exact IH.
Qed.

(** Every row of [unassigned] was appended in a state the run reached, in
    which no row of the frame passed the test; its reason tells whether the
    frame was empty. *)
Lemma zone_body_unassigned ds cur pv st today z :
  omap (candidate ds cur pv z st today) (get_employees (run.conn st)) = [] ->
  zone_body ap ds cur pv (st, today) z
  = (run.mk (run.conn st) (run.points_map st) (run.assigned_last st)
       (run.schedule st)
       (run.unassigned st
        ++ [unas.mk ds z (match run.conn st with
                          | [] => "No employees"
                          | _ :: _ => "No eligible employees"
                          end)]),
     today).
Proof.
  intros Hnone. unfold zone_body. rewrite Hnone.
  destruct (run.conn st) as [|q c]; cbn; reflexivity.
Qed.

Lemma reaches_unassigned_at d todo st today :
  R d todo st today ->
  ∀ u, u ∈ run.unassigned st ->
    ∃ d' todo' st1 today1,
      R d' (unas.Zone u :: todo') st1 today1
      ∧ unas.Date u = datetime.strftime d'
      ∧ unas.Reason u = match conn0 with
                        | [] => "No employees"
                        | _ :: _ => "No eligible employees"
                        end%string
      ∧ omap (candidate (datetime.strftime d') d' (dayLoadCost d') (unas.Zone u)
                st1 today1)
             (get_employees (run.conn st1)) = [].
Proof.
  induction 1 as [Hle|d zone todo st today H IH|d st today H IH Hlt].
  - intros u Hu. inversion Hu.
  - destruct (zone_body_spec ap (datetime.strftime d) d (dayLoadCost d) st today zone)
      as [[Hnone _]|(p & chosen & Hin & Hmin & E)].
    + rewrite (zone_body_unassigned _ _ _ _ _ _ Hnone). cbn [fst run.unassigned].
      intros u [Hu|Hu%list_elem_of_singleton]%elem_of_app; [now apply IH|].
      subst u. cbn [unas.Zone unas.Date unas.Reason].
      exists d, todo, st, today. split; [exact H|]. split; [reflexivity|].
      split; [|exact Hnone].
      pose proof (attrs_names _ _ (reaches_attrs _ _ _ _ _ _ _ _ H)) as Hn.
      destruct (run.conn st), conn0; try reflexivity; discriminate.
    + rewrite E. cbn [fst run.unassigned]. exact IH.
  - exact IH.
Qed.

End History.

(** *** What the returned rows never do *)

(** X8.  No returned assignment is on a date the person blocked or for a
    role the person is not eligible for: it is for one of the five roles, on
    a day of the range, costs what that day costs, and a row of the roster
    with the person's name neither blocks its date nor lacks its role. *)
Theorem assignments_respect_roster fuel conn start_date end_date ap conn' sch uns :
  generate_schedule fuel conn start_date end_date ap = Some (conn', Ok (sch, uns)) ->
  ∀ a, a ∈ sch ->
    sched.Shift a ∈ ZONES
    ∧ (∃ ds de d, datetime.strptime start_date = Some ds
                  ∧ datetime.strptime end_date = Some de
                  ∧ ds <= d <= de
                  ∧ sched.Date a = datetime.strftime d
                  ∧ sched.Points a = dayLoadCost d)
    ∧ ∃ r, r ∈ get_employees conn ∧ df.name r = sched.Employee a
           ∧ (sched.Date a ∉ df.off_days r)
           ∧ sched.Shift a ∈ df.allowed_zones r.
Proof.
  intros G a Ha.
  apply generate_schedule_Ok in G
    as (ds & de & Hs & He & [(_ & _ & -> & _)|(Hr & st & today & H & _ & -> & _)]).
  { inversion Ha. }
  pose proof (strptime_range _ _ Hs) as Rs.
  pose proof (strptime_range _ _ He) as Re.
  destruct (reaches_rows _ _ _ _ _ _ _ _ H a Ha) as (d' & Hd' & HD & HP & HZ).
  apply list_elem_of_lookup in Ha as [i Hi].
  destruct (reaches_admissible _ _ _ _
              (proj1 (reaches_calendar _ _ _ _ _ _ _ _ H))
              (proj2 (reaches_calendar _ _ _ _ _ _ _ _ H))
              _ _ _ _ H i a Hi)
    as (r & da & Hr0 & Hn & Hda & Hadm).
  assert (da = d') as ->.
  { unfold day_of in Hda. rewrite HD, strptime_strftime in Hda by lia. congruence. }
  split; [exact HZ|]. split.
  - exists ds, de, d'. repeat split; try assumption; lia.
  - exists r. split; [assumption|]. split; [assumption|]. rewrite HD.
    split; [apply (pass_not_blocked _ _ _ _ _ Hadm)|apply (pass_role _ _ _ _ _ Hadm)].
Qed.

(** X9.  Whoever has a returned row ends the run within their ceiling: over
    a store with one row per name, the load stored for the person at the
    start of the run plus the cost of all their returned rows is at most the
    ceiling stored for the person, a missing load or ceiling counting as
    0. *)
Theorem final_load_within_ceiling fuel conn start_date end_date ap conn' sch uns :
  NoDup (sql.name <$> conn) ->
  generate_schedule fuel conn start_date end_date ap = Some (conn', Ok (sch, uns)) ->
  ∀ a, a ∈ sch ->
    ∃ q, q ∈ conn ∧ sql.name q = sched.Employee a
         ∧ default 0 (sql.points q) + accrued (sched.Employee a) sch
           <= default 0 (sql.max_points q).
Proof.
  intros N G a Ha.
  apply generate_schedule_Ok in G
    as (ds & de & Hs & He & [(_ & _ & -> & _)|(Hr & st & today & H & _ & -> & _)]).
  { inversion Ha. }
  destruct (reaches_ceiling _ _ _ _ _ _ _ _ H a Ha) as (r & Hin & Hn & Hle).
  apply get_employees_elem in Hin as (q & Hq & Eq1 & _ & Eq3).
  exists q. split; [exact Hq|]. split; [congruence|].
  rewrite (load_in_run _ _ _ N) in Hle. unfold in_run_load, loadCeiling in Hle.
  rewrite <- Hn, Eq1, (stored_load_row conn q N Hq), Eq3 in Hle.
  rewrite <- Hn, Eq1. exact Hle.
Qed.
(** *** The store after a run that applies the points *)

(** X10.  A run with [apply_points] leaves every row of the store with its
    load raised by the cost of the returned rows of that person, a missing
    load staying missing, and writes no other column and no other row. *)
Theorem applied_points_persist fuel conn start_date end_date conn' sch uns :
  generate_schedule fuel conn start_date end_date true = Some (conn', Ok (sch, uns)) ->
  conn' = (fun q => with_load (accrued (sql.name q) sch) q) <$> conn.
Proof.
  intros G.
  apply generate_schedule_Ok in G
    as (ds & de & Hs & He
        & [(_ & -> & -> & _)|(Hr & st & today & H & -> & -> & _)]).
  - rewrite <- (list_fmap_id conn) at 1. apply list_fmap_ext.
    intros i q _. cbn. now rewrite with_load_0.
  - exact (reaches_persisted _ _ _ _ _ _ _ H).
Qed.


(** X12.  When the end date is 9999-12-31 and the start date is 1000-01-01
    or later, a run with [apply_points] raises [OverflowError] after it has
    written the store: the loads of the rows it had emitted for the whole
    range are in the store, and no row is returned.  With an earlier start
    date the run raises [ValueError] on its first day and writes nothing. *)
Theorem overflow_after_writes fuel conn start_date end_date ds :
  datetime.strptime start_date = Some ds ->
  datetime.strptime end_date = Some datetime.MAXORDINAL ->
  (Y1000 <= ds ->
   datetime.MAXORDINAL - ds + 1 < Z.of_nat fuel ->
   ∃ st today,
     reaches true conn ds datetime.MAXORDINAL datetime.MAXORDINAL [] st today
     ∧ generate_schedule fuel conn start_date end_date true
       = Some ((fun q => with_load (accrued (sql.name q) (run.schedule st)) q) <$> conn,
               Raise OverflowError))
  ∧ (ds < Y1000 ->
     generate_schedule (S fuel) conn start_date end_date true
     = Some (conn, Raise ValueError)).
Proof.
  intros Hs He.
  pose proof (strptime_range _ _ Hs) as Rs. split.
  - intros Hy Hfuel.
    destruct (generate_schedule_reaches fuel conn start_date end_date true ds
                datetime.MAXORDINAL Hs He ltac:(lia) Hfuel) as (st & today & H & G).
    exists st, today. split; [exact H|].
    rewrite G, Z.ltb_irrefl. f_equal. f_equal.
    exact (reaches_persisted _ _ _ _ _ _ _ H).
  - intros Hy.
    apply (generate_schedule_short fuel conn start_date end_date true ds
             datetime.MAXORDINAL Hs He); [lia|exact Hy].
Qed.
(** *** The unassigned rows *)

Lemma reaches_empty ap start end_ d todo st today :
  reaches ap [] start end_ d todo st today ->
  ∀ done, ZONES = done ++ todo ->
    run.conn st = [] ∧ run.schedule st = []
    ∧ run.unassigned st
      = (fun s => unas.mk s.1 s.2 "No employees")
          <$> (slots start (d - 1)
               ++ ((fun zone => (datetime.strftime d, zone)) <$> done)).
Proof.
  induction 1 as [Hle|d zone todo st today H IH|d st today H IH Hlt];
    intros done' Hdone.
  - assert (done' = []) as -> by (apply (app_inv_tail ZONES); now rewrite <- Hdone).
    unfold slots. rewrite seqZ_nil by lia. now cbn.
  - destruct (reaches_range _ _ _ _ _ _ _ _ H) as [_ [done Hz]].
    assert (done' = done ++ [zone]) as ->.
    { apply (app_inv_tail todo). rewrite <- Hdone, <- app_assoc. exact Hz. }
    destruct (IH done Hz) as (Hc & Hs & Hu).
    unfold zone_body. rewrite Hc. cbn. rewrite Hu.
    repeat split; [assumption|].
    now rewrite !fmap_app, <- !app_assoc.
  - assert (done' = []) as -> by (apply (app_inv_tail ZONES); now rewrite <- Hdone).
    destruct (reaches_range _ _ _ _ _ _ _ _ H) as [Hd _].
    destruct (IH ZONES) as (Hc & Hs & Hu); [now rewrite app_nil_r|].
    repeat split; try assumption. rewrite Hu.
    replace (d + 1 - 1) with d by lia.
    rewrite (slots_snoc start d) by lia. cbn. now rewrite app_nil_r.
Qed.

(** X13.  Over an empty roster a run of a range that starts on 1000-01-01
    or later and ends before 9999-12-31 returns no assignment and, for every
    pair of a day and a role in the order of the loops, an unassigned row
    with the reason ["No employees"]. *)
Theorem empty_roster_run fuel start_date end_date ap ds de :
  datetime.strptime start_date = Some ds ->
  datetime.strptime end_date = Some de ->
  Y1000 <= ds ->
  ds <= de < datetime.MAXORDINAL ->
  de - ds + 1 < Z.of_nat fuel ->
  generate_schedule fuel [] start_date end_date ap
  = Some ([], Ok ([], (fun s => unas.mk s.1 s.2 "No employees") <$> slots ds de)).
Proof.
  intros Hs He Hy Hr Hfuel.
  destruct (generate_schedule_reaches fuel [] start_date end_date ap ds de
              Hs He ltac:(lia) Hfuel) as (st & today & H & G).
  destruct (reaches_empty _ _ _ _ _ _ _ H ZONES) as (Hc & Hsch & Hu);
    [now rewrite app_nil_r|].
  rewrite G, Hc, Hsch, Hu.
  destruct (de <? datetime.MAXORDINAL) eqn:L; [|apply Z.ltb_ge in L; lia].
  now rewrite (slots_snoc ds de) by lia.
Qed.

Lemma slots_length start end_ :
  length (slots start end_) = (5 * Z.to_nat (end_ - start + 1))%nat.
Proof.
  unfold slots. generalize (seqZ start (end_ - start + 1)) (length_seqZ start (end_ - start + 1)).
  intros l <-. induction l as [|d l IH]; [reflexivity|].
  cbn [mbind list_bind]. change (length (d :: l)) with (S (length l)).
  rewrite length_app, IH. cbn. lia.
Qed.

(** X14.  The returned rows come in the order of the loops, day by day and
    within a day in the order of the roles: the pairs of the assignments and
    those of the unassigned rows are both subsequences of the pairs of the
    range, and together the rows are five per day. *)
Theorem rows_in_loop_order fuel conn start_date end_date ap conn' sch uns ds de :
  generate_schedule fuel conn start_date end_date ap = Some (conn', Ok (sch, uns)) ->
  datetime.strptime start_date = Some ds ->
  datetime.strptime end_date = Some de ->
  (sched_slot <$> sch) `sublist_of` slots ds de
  ∧ (unas_slot <$> uns) `sublist_of` slots ds de
  ∧ (length sch + length uns = 5 * Z.to_nat (de - ds + 1))%nat.
Proof.
  intros G Hs He.
  apply generate_schedule_Ok in G
    as (ds' & de' & Hs' & He'
        & [(Hlt & _ & -> & ->)|(Hr & st & today & H & _ & -> & ->)]).
  - assert (ds' = ds) as -> by congruence. assert (de' = de) as -> by congruence.
    cbn. repeat split; try apply sublist_nil_l. lia.
  - assert (ds' = ds) as -> by congruence. assert (de' = de) as -> by congruence.
    destruct (reaches_order _ _ _ _ _ _ _ _ H ZONES) as [Ho Hu];
      [now rewrite app_nil_r|].
    assert (E : slots ds (de - 1) ++ ((fun zone => (datetime.strftime de, zone)) <$> ZONES)
                = slots ds de) by (now rewrite (slots_snoc ds de) by lia).
    rewrite E in Ho, Hu. split; [exact Ho|]. split; [exact Hu|].
    pose proof (reaches_slots _ _ _ _ _ _ _ _ H ZONES) as P.
    rewrite app_nil_r in P. specialize (P eq_refl). rewrite E in P.
    apply Permutation_length in P.
    rewrite length_app, !length_fmap, slots_length in P. exact P.
Qed.

(** X15.  Over a store with one row per name, a pair of a day and a role
    is returned unassigned only when nobody was admissible for it: with [l]
    the returned assignments of the pairs the loops handle before it, no
    person of the roster meets the five conditions of the eligibility filter
    for the pair on the history [l], the load being the one stored at the
    start of the run plus the cost of the person's rows in [l].  Its reason
    then is ["No eligible employees"] unless the roster is empty. *)
Theorem unassigned_means_nobody_admissible fuel conn start_date end_date ap conn'
    sch uns :
  NoDup (sql.name <$> conn) ->
  generate_schedule fuel conn start_date end_date ap = Some (conn', Ok (sch, uns)) ->
  ∀ u, u ∈ uns ->
    ∃ ds d done todo,
      datetime.strptime start_date = Some ds
      ∧ ds <= d
      ∧ unas.Date u = datetime.strftime d
      ∧ ZONES = done ++ unas.Zone u :: todo
      ∧ (conn <> [] -> unas.Reason u = "No eligible employees"%string)
      ∧ ∀ r, r ∈ get_employees conn ->
             ¬ admissible conn (rows_before ds d done sch) d (unas.Zone u) r.
Proof.
  intros N G u Hu. pose proof G as G0.
  apply generate_schedule_Ok in G
    as (ds & de & Hs & He
        & [(_ & _ & _ & ->)|(Hr & st & today & H & _ & Esch & Euns)]).
  { inversion Hu. }
  pose proof (strptime_range _ _ Hs) as Rs.
  pose proof (strptime_range _ _ He) as Re.
  rewrite Euns in Hu.
  destruct (reaches_unassigned_at _ _ _ _ _ _ _ _ H u Hu)
    as (d & todo & st1 & today1 & H1 & HD & HR & Hnone).
  destruct (reaches_range _ _ _ _ _ _ _ _ H1) as [Hd [done Hz]].
  exists ds, d, done, todo.
  split; [exact Hs|]. split; [lia|]. split; [exact HD|]. split; [exact Hz|].
  split.
  { intros Hne. rewrite HR. destruct conn; [contradiction|reflexivity]. }
  (* the history of the state in which the row was appended *)
  assert (El : rows_before ds d done sch = run.schedule st1).
  { destruct (reaches_in_call _ _ _ _ _ _ _ _ _ _ _ _ _ _ G0 Hs He H1)
      as [[k Hk] [ku Hku]].
    pose proof (reaches_slots _ _ _ _ _ _ _ _ H1 done Hz) as P1.
    pose proof (reaches_slots _ _ _ _ _ _ _ _ H ZONES) as P.
    rewrite app_nil_r in P. specialize (P eq_refl).
    assert (ND : NoDup ((sched_slot <$> sch) ++ (unas_slot <$> uns))).
    { rewrite Esch, Euns, P.
      rewrite <- (slots_snoc ds de) by lia. apply slots_NoDup; lia. }
    unfold rows_before. rewrite Hk, filter_app.
    rewrite (filter_all _ (run.schedule st1)).
    2:{ intros a Ha. rewrite <- P1. apply elem_of_app. left.
        now apply list_elem_of_fmap_2. }
    rewrite (filter_none _ k); [now rewrite app_nil_r|].
    intros a Ha Hin. rewrite <- P1 in Hin.
    rewrite Hk, Hku, !fmap_app in ND.
    apply elem_of_app in Hin as [Hin|Hin].
    - apply NoDup_app in ND as [ND _]. apply NoDup_app in ND as (_ & ND & _).
      apply (ND _ Hin). now apply list_elem_of_fmap_2.
    - apply NoDup_app in ND as (_ & ND & _).
      apply (ND (sched_slot a)).
      + apply elem_of_app. right. now apply list_elem_of_fmap_2.
      + apply elem_of_app. now left. }
  rewrite El. intros r Hr0 Hadm.
  apply (passes_admissible _ _ _ _ _ N) in Hadm.
  pose proof (get_employees_attrs _ _ (reaches_attrs _ _ _ _ _ _ _ _ H1)) as Hattrs.
  assert (Hin : df_attrs r ∈ df_attrs <$> get_employees (run.conn st1)).
  { rewrite Hattrs. now apply list_elem_of_fmap_2. }
  apply list_elem_of_fmap in Hin as (r1 & Hr1 & Hin1).
  apply (passes_attrs _ _ _ _ _ _ Hr1) in Hadm.
  apply (reaches_candidate _ _ _ _
              (proj1 (reaches_calendar _ _ _ _ _ _ _ _ H1))
              (proj2 (reaches_calendar _ _ _ _ _ _ _ _ H1))
              _ _ _ _ _ _ H1) in Hadm
    as [c Hc].
  assert (Hcin : c ∈ omap (candidate (datetime.strftime d) d (dayLoadCost d)
                             (unas.Zone u) st1 today1)
                          (get_employees (run.conn st1))).
  { apply list_elem_of_omap. eauto. }
  rewrite Hnone in Hcin. inversion Hcin.
Qed.

(** *** The cost of the days *)

Lemma weekday_add d i :
  datetime.weekday (d + i) = (datetime.weekday d + i) mod 7.
Proof.
  unfold datetime.weekday. rewrite Z.add_mod_idemp_l by lia. f_equal. lia.
Qed.

(** X16.  On a day from 1000-01-01 on, [is_weekend] of the text of the day
    answers whether the day is a Saturday or a Sunday, and the body of the
    loop handles the five roles of the day at the cost of the day, 2 when
    [is_weekend] says so and 1 otherwise.  The answer repeats every seven
    days, and any seven days in a row cost 9 for one role: five days at 1
    and two at 2.  On an earlier day [is_weekend] raises [ValueError] on the
    text of the day, and so does the body of the loop. *)
Theorem weekly_cost d :
  (Y1000 <= d -> d + 6 <= datetime.MAXORDINAL ->
   (∀ x, d <= x <= d + 6 ->
      is_weekend (datetime.strftime x) = Ok (dayLoadCost x =? 2)
      ∧ ∀ ap st,
          day_body ap x st
          = ((fold_left (zone_body ap (datetime.strftime x) x (dayLoadCost x))
                        ZONES (st, ∅)).1,
             Ok tt))
   ∧ foldr Z.add 0 (dayLoadCost <$> seqZ d 7) = 9
   ∧ dayLoadCost (d + 7) = dayLoadCost d
   ∧ (d + 7 <= datetime.MAXORDINAL ->
      is_weekend (datetime.strftime (d + 7)) = is_weekend (datetime.strftime d)))
  ∧ (1 <= d < Y1000 ->
     is_weekend (datetime.strftime d) = Raise ValueError
     ∧ ∀ ap st, day_body ap d st = (st, Raise ValueError)).
Proof.
  pose proof (weekday_range d) as Hk.
  assert (P7 : datetime.weekday (d + 7) = datetime.weekday d).
  { rewrite weekday_add.
    replace (datetime.weekday d + 7) with (datetime.weekday d + 1 * 7) by lia.
    now rewrite Z.mod_add, Z.mod_small by lia. }
  split.
  - intros Hy Hmax. split; [|split; [|split]].
    + intros x Hx.
      assert (W : is_weekend (datetime.strftime x) = Ok (dayLoadCost x =? 2)).
      { rewrite is_weekend_strftime by lia. f_equal.
        rewrite <- (point_value_cost x). now destruct (5 <=? datetime.weekday x). }
      split; [exact W|]. intros ap st. unfold day_body.
      rewrite is_weekend_strftime by lia. now rewrite point_value_cost.
    + unfold seqZ. change (Z.to_nat 7) with 7%nat.
      cbn [seq fmap list_fmap foldr]. change (Z.of_nat 0) with 0.
      change (Z.of_nat 1) with 1. change (Z.of_nat 2) with 2.
      change (Z.of_nat 3) with 3. change (Z.of_nat 4) with 4.
      change (Z.of_nat 5) with 5. change (Z.of_nat 6) with 6.
      unfold dayLoadCost. rewrite !(Z.add_comm _ d), !weekday_add.
      assert (C : datetime.weekday d = 0 ∨ datetime.weekday d = 1
                  ∨ datetime.weekday d = 2 ∨ datetime.weekday d = 3
                  ∨ datetime.weekday d = 4 ∨ datetime.weekday d = 5
                  ∨ datetime.weekday d = 6) by lia.
      destruct C as [-> | [-> | [-> | [-> | [-> | [-> | ->]]]]]]; reflexivity.
    + unfold dayLoadCost. now rewrite P7.
    + intros Hmax7. rewrite !is_weekend_strftime by lia. now rewrite P7.
  - intros Hd. split; [now apply is_weekend_short|].
    intros ap st. unfold day_body. now rewrite is_weekend_short.
Qed.

(** *** Text inputs that name nobody *)

Lemma lstrip_space s :
  (∀ c, mentions c s = true -> pystr.isspace c = true) -> pystr.lstrip s = EmptyString.
Proof.
  induction s as [|c s IH]; intros H; [reflexivity|]. cbn [pystr.lstrip].
  rewrite (H c) by (cbn; now rewrite Ascii.eqb_refl).
  apply IH. intros c' Hc'. apply H. cbn. rewrite Hc'. apply orb_true_r.
Qed.

Lemma rstrip_nonempty c s :
  pystr.isspace c = false -> pystr.rstrip (String c s) <> EmptyString.
Proof. intros H. cbn. rewrite H. now destruct (pystr.rstrip s). Qed.

Lemma strip_cons c s :
  pystr.strip (String c s) = EmptyString
  <-> pystr.isspace c = true ∧ pystr.strip s = EmptyString.
Proof.
  unfold pystr.strip. cbn [pystr.lstrip].
  destruct (pystr.isspace c) eqn:E.
  - split; [now split|now intros [_ ?]].
  - split; [|now intros [? _]].
    intros H. now apply rstrip_nonempty in H.
Qed.

Lemma split_not_nil sep s : pystr.split sep s <> [].
Proof.
  destruct s as [|c s]; cbn [pystr.split]; [discriminate|].
  destruct (Ascii.eqb c sep); [discriminate|].
  now destruct (pystr.split sep s).
Qed.

Lemma split_cons_ne c s :
  Ascii.eqb c "," = false ->
  ∃ w ws, pystr.split "," s = w :: ws ∧ pystr.split "," (String c s) = String c w :: ws.
Proof.
  intros E. cbn [pystr.split]. rewrite E.
  destruct (pystr.split "," s) as [|w ws] eqn:S.
  - now apply split_not_nil in S.
  - eauto.
Qed.

Lemma split_blank s :
  Forall (fun w => pystr.strip w = EmptyString) (pystr.split "," s) <-> blank s = true.
Proof.
  induction s as [|c s IH].
  - cbn. split; [reflexivity|]. intros _. now repeat constructor.
  - cbn [blank]. destruct (Ascii.eqb c ",") eqn:E.
    + cbn [pystr.split]. rewrite E, orb_true_r. cbn [andb]. rewrite <- IH.
      split; [now intros [_ ?]%Forall_cons|]. intros F. now constructor.
    + destruct (split_cons_ne c s E) as (w & ws & S & ->).
      rewrite S in IH. rewrite orb_false_r, andb_true_iff, <- IH.
      rewrite !Forall_cons, strip_cons. tauto.
Qed.

Lemma split_strip_nil text : split_strip text = [] <-> blank text = true.
Proof.
  rewrite <- split_blank. unfold split_strip. split.
  - intros H. apply fmap_nil_inv in H. apply Forall_forall. intros w Hw.
    destruct (decide (pystr.strip w = EmptyString)) as [E|Hne]; [exact E|].
    exfalso. assert (Hin : w ∈ filter (fun s => pystr.strip s <> EmptyString)
                                  (pystr.split "," text))
      by (apply list_elem_of_filter; now split).
    rewrite H in Hin. inversion Hin.
  - intros F. rewrite filter_none; [reflexivity|].
    intros w Hw Hne. rewrite Forall_forall in F. now apply Hne, F.
Qed.

(** X17.  A text input names nobody exactly when it holds white space and
    commas only.  With such a text "Delete" deletes nothing and counts 0,
    "Reset Points Now" in the mode "Selected" resets nothing and reports the
    error, and a "Save Employee" that returns stores no blocked date. *)
Theorem blank_input_names_nobody conn text :
  (split_strip text = [] <-> blank text = true)
  ∧ (blank text = true ->
     on_delete conn text = (conn, 0)
     ∧ (∀ mode, mode <> "All"%string ->
          on_reset conn mode text
          = (conn, inr "Please enter at least one name."%string))
     ∧ ∀ name initial max_pts preferred allowed r,
         (on_save_employee conn name initial max_pts text preferred allowed).2
         = Ok tt ->
         r ∈ get_employees
               (on_save_employee conn name initial max_pts text preferred allowed).1 ->
         df.name r = name -> df.off_days r = []).
Proof.
  split; [apply split_strip_nil|]. intros B.
  apply split_strip_nil in B. split; [|split].
  - unfold on_delete. now rewrite B.
  - intros mode Hm. unfold on_reset. rewrite B.
    now destruct (String.eqb_spec mode "All").
  - intros name initial max_pts preferred allowed r Hok Hr Hn.
    unfold on_save_employee in Hok, Hr. rewrite B in Hr.
    apply add_or_update_employee_Ok_inv in Hok as [Hi Hm].
    destruct (upsert_row conn name initial max_pts []
                (if pystr.truthy (Some preferred) then Some preferred else None)
                allowed Hi Hm) as [_ Hrow].
    now destruct (Hrow r Hr Hn) as (_ & -> & _).
Qed.
(** ** The matrix of the download *)

Lemma export_dates_elem start end_ s :
  s ∈ export_dates start end_
  <-> ∃ d, start <= d <= end_ ∧ s = datetime.strftime d.
Proof.
  unfold export_dates. rewrite list_elem_of_fmap. split.
  - intros (i & -> & Hi%elem_of_seqZ). exists (start + i). split; [lia|reflexivity].
  - intros (d & Hd & ->). exists (d - start). split; [f_equal; lia|].
    apply elem_of_seqZ. lia.
Qed.

Lemma export_dates_seqZ start end_ :
  export_dates start end_ = datetime.strftime <$> seqZ start (end_ - start + 1).
Proof.
  unfold export_dates.
  rewrite <- (Z.add_0_r start) at 2. rewrite <- fmap_add_seqZ, <- list_fmap_compose.
  reflexivity.
Qed.

Lemma export_dates_NoDup start end_ :
  1 <= start -> end_ <= datetime.MAXORDINAL -> NoDup (export_dates start end_).
Proof.
  intros Hs He. rewrite export_dates_seqZ.
  apply NoDup_fmap_2_strong; [|apply NoDup_seqZ].
  intros d1 d2 H1%elem_of_seqZ H2%elem_of_seqZ E.
  apply strftime_inj; [lia|lia|exact E].
Qed.

Lemma count_NoDup (l : list string) x :
  NoDup l -> x ∈ l -> length (filter (fun y => y = x) l) = 1%nat.
Proof.
  induction 1 as [|y l Hy N IH]; intros Hx; [inversion Hx|].
  destruct (decide (y = x)) as [->|Hne].
  - rewrite filter_cons_True by reflexivity.
    rewrite (filter_none (fun y => y = x) l); [reflexivity|].
    intros z Hz ->. contradiction.
  - rewrite filter_cons_False by assumption.
    apply IH. apply elem_of_cons in Hx as [->|Hx]; [contradiction|assumption].
Qed.

Lemma fold_cell_step dates employees l :
  NoDup dates -> NoDup employees ->
  ∀ cells pts,
    fold_left (fun acc r =>
                 match acc with
                 | inr mat => cell_step mat r
                 | inl e => inl e
                 end)
              l (inr (export.mk dates employees cells pts))
    = inr (export.mk dates employees
             (fold_left (write_cells dates employees) l cells) pts).
Proof.
  intros Nd Ne. induction l as [|r l IH]; intros cells pts; [reflexivity|].
  cbn [fold_left]. unfold cell_step at 2, write_cells at 2.
  cbn [export.index export.columns export.cells export.points].
  destruct (bool_decide (sched.Date r ∈ dates)) eqn:Bd; cbn [andb]; [|apply IH].
  destruct (bool_decide (sched.Employee r ∈ employees)) eqn:Be; cbn [andb]; [|apply IH].
  apply bool_decide_eq_true in Bd, Be.
  rewrite (count_NoDup dates _ Nd Bd), (count_NoDup employees _ Ne Be).
  rewrite !bool_decide_eq_true_2 by reflexivity. cbn [andb]. apply IH.
Qed.

Lemma cell_of_snoc l r d e :
  cell_of (l ++ [r]) d e
  = if bool_decide (sched.Date r = d ∧ sched.Employee r = e)
    then cell_update (cell_of l d e) (sched.Shift r)
    else cell_of l d e.
Proof.
  unfold cell_of. rewrite filter_app.
  destruct (bool_decide (sched.Date r = d ∧ sched.Employee r = e)) eqn:B.
  - apply bool_decide_eq_true in B.
    rewrite (filter_cons_True _ r []) by exact B.
    now rewrite fmap_app, fold_left_app.
  - apply bool_decide_eq_false in B.
    rewrite (filter_cons_False _ r []) by exact B.
    now rewrite app_nil_r.
Qed.

Lemma write_cells_lookup dates employees l :
  ∀ (c0 : gmap (string * string) string) d e,
    c0 !! (d, e)
    = (if bool_decide (d ∈ dates ∧ e ∈ employees) then Some EmptyString else None) ->
    fold_left (write_cells dates employees) l c0 !! (d, e)
    = if bool_decide (d ∈ dates ∧ e ∈ employees) then Some (cell_of l d e) else None.
Proof.
  induction l as [|r l IH] using rev_ind; intros c0 d e H0; [exact H0|].
  rewrite fold_left_app. cbn [fold_left]. unfold write_cells at 1.
  specialize (IH c0).
  destruct (bool_decide (sched.Date r ∈ dates)) eqn:Bd; cbn [andb].
  2:{ rewrite (IH d e H0), cell_of_snoc.
      destruct (bool_decide (d ∈ dates ∧ e ∈ employees)) eqn:B; [|reflexivity].
      apply bool_decide_eq_true in B as [Hd _]. apply bool_decide_eq_false in Bd.
      rewrite bool_decide_eq_false_2; [reflexivity|]. intros [E _]. rewrite E in Bd. contradiction. }
  destruct (bool_decide (sched.Employee r ∈ employees)) eqn:Be; cbn [andb].
  2:{ rewrite (IH d e H0), cell_of_snoc.
      destruct (bool_decide (d ∈ dates ∧ e ∈ employees)) eqn:B; [|reflexivity].
      apply bool_decide_eq_true in B as [_ He]. apply bool_decide_eq_false in Be.
      rewrite bool_decide_eq_false_2; [reflexivity|]. intros [_ E]. rewrite E in Be. contradiction. }
  apply bool_decide_eq_true in Bd, Be.
  destruct (decide ((sched.Date r, sched.Employee r) = (d, e))) as [E|Hne].
  - injection E as E1 E2. subst d e. rewrite lookup_insert_eq.
    rewrite (IH _ _ H0), cell_of_snoc.
    rewrite (bool_decide_eq_true_2 (sched.Date r ∈ dates ∧ sched.Employee r ∈ employees))
      by now split.
    rewrite bool_decide_eq_true_2 by now split.
    reflexivity.
  - rewrite lookup_insert_ne by exact Hne. rewrite (IH d e H0), cell_of_snoc.
    rewrite (bool_decide_eq_false_2 (sched.Date r = d ∧ sched.Employee r = e));
      [reflexivity|].
    intros [E1 E2]. apply Hne. now rewrite E1, E2.
Qed.

Lemma list_to_map_const (l : list (string * string * string)) v k :
  (∀ kv, kv ∈ l -> kv.2 = v) ->
  (list_to_map l : gmap (string * string) string) !! k
  = if bool_decide (k ∈ l.*1) then Some v else None.
Proof.
  induction l as [|[k' v'] l IH]; intros H; [reflexivity|].
  cbn [list_to_map foldr fmap list_fmap fst]. cbn.
  destruct (decide (k' = k)) as [->|Hne].
  - rewrite lookup_insert_eq, bool_decide_eq_true_2 by left.
    f_equal. apply (H (k, v')). left.
  - rewrite lookup_insert_ne by exact Hne.
    rewrite IH by (intros kv Hkv; apply H; now right).
    destruct (bool_decide (k ∈ l.*1)) eqn:B.
    + apply bool_decide_eq_true in B. rewrite bool_decide_eq_true_2; [reflexivity|].
      now right.
    + apply bool_decide_eq_false in B. rewrite bool_decide_eq_false_2; [reflexivity|].
      intros [E|Hin]%elem_of_cons; [now apply Hne|contradiction].
Qed.

Lemma blank_cells_lookup (dates employees : list string) d e :
  (list_to_map (d ← dates; (fun e => ((d, e), EmptyString)) <$> employees)
   : gmap (string * string) string) !! (d, e)
  = if bool_decide (d ∈ dates ∧ e ∈ employees) then Some EmptyString else None.
Proof.
  rewrite (list_to_map_const _ EmptyString).
  2:{ intros kv (d' & Hkv & _)%list_elem_of_bind.
      now apply list_elem_of_fmap in Hkv as (e' & -> & _). }
  apply f_equal with (f := fun b : bool => if b then Some EmptyString else None).
  apply bool_decide_ext. rewrite list_elem_of_fmap. split.
  - intros ([k v] & E & (d' & Hkv & Hd')%list_elem_of_bind). cbn in E. subst k.
    apply list_elem_of_fmap in Hkv as (e' & [= -> -> ->] & He'). now split.
  - intros [Hd He]. exists ((d, e), EmptyString). split; [reflexivity|].
    apply list_elem_of_bind. exists d. split; [|exact Hd].
    now apply (list_elem_of_fmap_2 (fun e => ((d, e), EmptyString))).
Qed.

Lemma point_sum_snoc l r :
  point_sum (l ++ [r])
  = <[sched.Employee r := default 0 (point_sum l !! sched.Employee r) + sched.Points r]>
      (point_sum l).
Proof. unfold point_sum. now rewrite fold_left_app. Qed.

Lemma point_sum_accrued l e : default 0 (point_sum l !! e) = accrued e l.
Proof.
  induction l as [|r l IH] using rev_ind; [reflexivity|].
  rewrite point_sum_snoc, accrued_snoc.
  destruct (String.eqb_spec (sched.Employee r) e) as [->|Hne].
  - rewrite lookup_insert_eq. cbn. now rewrite IH.
  - rewrite lookup_insert_ne by exact Hne. rewrite IH. lia.
Qed.

Lemma points_row_lookup (f : string → Z) (employees : list string) :
  ∀ (m : gmap string Z) e,
    fold_left (fun m emp => <[emp := f emp]> m) employees m !! e
    = if bool_decide (e ∈ employees) then Some (f e) else m !! e.
Proof.
  induction employees as [|x l IH] using rev_ind; intros m e; [reflexivity|].
  rewrite fold_left_app. cbn [fold_left].
  destruct (decide (x = e)) as [->|Hne].
  - rewrite lookup_insert_eq, bool_decide_eq_true_2; [reflexivity|].
    apply elem_of_app. right. left.
  - rewrite lookup_insert_ne by exact Hne. rewrite IH.
    destruct (bool_decide (e ∈ l)) eqn:B.
    + apply bool_decide_eq_true in B. rewrite bool_decide_eq_true_2; [reflexivity|].
      apply elem_of_app. now left.
    + apply bool_decide_eq_false in B. rewrite bool_decide_eq_false_2; [reflexivity|].
      intros [Hin|Hin%list_elem_of_singleton]%elem_of_app; [contradiction|].
      now apply Hne.
Qed.

Lemma zero_row_lookup (employees : list string) e :
  e ∉ employees ->
  (list_to_map ((fun e => (e, 0)) <$> employees) : gmap string Z) !! e = None.
Proof.
  intros Hn. apply not_elem_of_list_to_map_1.
  rewrite <- list_fmap_compose. cbn. now rewrite list_fmap_id.
Qed.

(** The frame for the columns [employees], when no label is repeated. *)
Lemma export_frame dates employees l :
  NoDup dates -> NoDup employees ->
  ∃ mat,
    match
      fold_left (fun acc r =>
                   match acc with
                   | inr mat => cell_step mat r
                   | inl e => inl e
                   end)
                l (inr (export.mk dates employees
                          (list_to_map (d ← dates; (fun e => ((d, e), EmptyString)) <$> employees))
                          ∅))
    with
    | inl e => inl e
    | inr mat =>
        inr (export.mk (export.index mat) (export.columns mat) (export.cells mat)
               (fold_left (fun m emp => <[emp := default 0 (point_sum l !! emp)]> m)
                          employees
                          (list_to_map ((fun e => (e, 0)) <$> employees))))
    end = inr mat
    ∧ export.index mat = dates
    ∧ export.columns mat = employees
    ∧ (∀ d e, export.cells mat !! (d, e)
              = if bool_decide (d ∈ dates ∧ e ∈ employees)
                then Some (cell_of l d e) else None)
    ∧ (∀ e, export.points mat !! e
            = if bool_decide (e ∈ employees) then Some (accrued e l) else None).
Proof.
  intros Nd Ne. rewrite (fold_cell_step dates employees l Nd Ne).
  eexists. split; [reflexivity|].
  cbn [export.index export.columns export.cells export.points].
  split; [reflexivity|]. split; [reflexivity|]. split.
  - intros d e. apply write_cells_lookup, blank_cells_lookup.
  - intros e. rewrite (points_row_lookup (fun emp => default 0 (point_sum l !! emp))).
    destruct (bool_decide (e ∈ employees)) eqn:B.
    + now rewrite point_sum_accrued.
    + apply bool_decide_eq_false in B. now apply zero_row_lookup.
Qed.

(** X18.  For a range of the calendar, the dates of the matrix are the days
    of the loops of [generate_schedule], each once and in the same order;
    unlike the loop, their enumeration never steps past the end date.  A
    label reads back as its day exactly from 1000-01-01 on: the label of an
    earlier day has fewer than four year digits. *)
Theorem export_dates_follow_loop start end_ :
  1 <= start -> end_ <= datetime.MAXORDINAL ->
  slots start end_ = (d ← export_dates start end_; (fun zone => (d, zone)) <$> ZONES)
  ∧ length (export_dates start end_) = Z.to_nat (end_ - start + 1)
  ∧ (∀ s, s ∈ export_dates start end_
          <-> ∃ d, start <= d <= end_ ∧ s = datetime.strftime d)
  ∧ NoDup (export_dates start end_)
  ∧ ∀ d, start <= d <= end_ ->
         (datetime.strptime (datetime.strftime d) = Some d <-> Y1000 <= d).
Proof.
  intros Hs He. split; [|split; [|split; [|split]]].
  - rewrite export_dates_seqZ. unfold slots.
    induction (seqZ start (end_ - start + 1)) as [|d l IH]; [reflexivity|].
    cbn [fmap list_fmap mbind list_bind]. cbn [mbind list_bind] in IH.
    now rewrite IH.
  - unfold export_dates. now rewrite length_fmap, length_seqZ.
  - apply export_dates_elem.
  - now apply export_dates_NoDup.
  - intros d Hd. split.
    + intros E. destruct (Z_lt_le_dec d Y1000) as [Hlt|Hge]; [|exact Hge].
      rewrite strptime_strftime_short in E by lia. discriminate.
    + intros Hy. apply strptime_strftime. lia.
Qed.

Lemma export_unfold schedule_df employees_df start_date end_date ds de :
  datetime.strptime start_date = Some ds ->
  datetime.strptime end_date = Some de ->
  employees_df <> [] ->
  export_schedule_as_matrix schedule_df employees_df start_date end_date
  = match
      fold_left (fun acc r =>
                   match acc with
                   | inr mat => cell_step mat r
                   | inl e => inl e
                   end)
                schedule_df
                (inr (export.mk (export_dates ds de) (df.name <$> employees_df)
                        (list_to_map (d ← export_dates ds de;
                                      (fun e => ((d, e), EmptyString))
                                        <$> (df.name <$> employees_df)))
                        ∅))
    with
    | inl e => inl e
    | inr mat =>
        inr (export.mk (export.index mat) (export.columns mat) (export.cells mat)
               (fold_left (fun m emp => <[emp := default 0 (point_sum schedule_df !! emp)]> m)
                          (df.name <$> employees_df)
                          (list_to_map ((fun e => (e, 0)) <$> (df.name <$> employees_df)))))
    end.
Proof.
  intros Hs He Hne. unfold export_schedule_as_matrix. rewrite Hs, He.
  destruct employees_df; [contradiction|reflexivity].
Qed.


#[local] Instance str_le_total : Total str_le.
Proof. intros a b. apply String.leb_total. Qed.

Lemma str_le_lt a b : str_le a b <-> a = b ∨ String.ltb a b = true.
Proof.
  unfold str_le, String.leb, String.ltb.
  destruct (String.compare a b) eqn:C.
  - apply String.compare_eq_iff in C. tauto.
  - tauto.
  - split; [discriminate|]. intros [->|?]; [|discriminate].
    pose proof (String.compare_antisym b b) as E. rewrite C in E. discriminate.
Qed.

#[local] Instance str_le_trans : Transitive str_le.
Proof.
  intros a b c [->|H1]%str_le_lt [->|H2]%str_le_lt; apply str_le_lt; auto.
  right. eapply str_ltb_trans; eassumption.
Qed.

(** X20.  With an empty roster frame the export raises [KeyError] for an
    empty schedule frame, which has no column ["Employee"]; otherwise its
    columns are the persons of the schedule, each once, in the order of
    their names, and the cells and the row ["Points"] are as with a
    roster. *)
Theorem export_without_roster schedule_df start_date end_date ds de :
  datetime.strptime start_date = Some ds ->
  datetime.strptime end_date = Some de ->
  (schedule_df = [] ->
   export_schedule_as_matrix schedule_df [] start_date end_date = inl export.KeyError)
  ∧ (schedule_df <> [] ->
     ∃ mat,
       export_schedule_as_matrix schedule_df [] start_date end_date = inr mat
       ∧ export.index mat = export_dates ds de
       ∧ StronglySorted str_le (export.columns mat)
       ∧ NoDup (export.columns mat)
       ∧ (∀ e, e ∈ export.columns mat <-> ∃ r, r ∈ schedule_df ∧ sched.Employee r = e)
       ∧ (∀ d e, export.cells mat !! (d, e)
                 = if bool_decide (d ∈ export_dates ds de ∧ e ∈ export.columns mat)
                   then Some (cell_of schedule_df d e) else None)
       ∧ (∀ e, export.points mat !! e
               = if bool_decide (e ∈ export.columns mat)
                 then Some (accrued e schedule_df) else None)).
Proof.
  intros Hs He. unfold export_schedule_as_matrix. rewrite Hs, He. split.
  - now intros ->.
  - intros Hne. destruct schedule_df as [|r0 l0] eqn:E; [contradiction|].
    rewrite <- E. clear Hne.
    set (employees := sorted (remove_dups (sched.Employee <$> schedule_df))).
    assert (P : employees ≡ₚ remove_dups (sched.Employee <$> schedule_df))
      by apply merge_sort_Permutation.
    assert (N : NoDup employees) by (rewrite P; apply NoDup_remove_dups).
    destruct (export_frame (export_dates ds de) employees schedule_df) as (mat & Hm & Hi & Hc & Hcells & Hpts).
    { apply export_dates_NoDup; [apply (strptime_range _ _ Hs)|apply (strptime_range _ _ He)]. }
    { exact N. }
    exists mat. split; [exact Hm|]. split; [exact Hi|]. rewrite Hc.
    split; [apply StronglySorted_merge_sort; apply _|]. split; [exact N|].
    split; [|split; assumption].
    intros e. rewrite P, elem_of_remove_dups, list_elem_of_fmap.
    split; intros (r & H1 & H2); exists r; auto.
Qed.

(** *** The matrix of a generated schedule *)

Lemma filter_one {A} (P : A → Prop) `{∀ x, Decision (P x)} (l : list A) a :
  (∀ i j x y, l !! i = Some x -> l !! j = Some y -> P x -> P y -> i = j) ->
  a ∈ l -> P a -> filter P l = [a].
Proof.
  induction l as [|b l IH]; intros U Ha Pa; [inversion Ha|].
  destruct (decide (P b)) as [Pb|Nb].
  - rewrite filter_cons_True by exact Pb.
    assert (a = b) as ->.
    { apply list_elem_of_lookup in Ha as [i Hi].
      assert (i = 0%nat) as -> by exact (U i 0%nat a b Hi eq_refl Pa Pb).
      now injection Hi. }
    f_equal. apply filter_none. intros x Hx Px.
    apply list_elem_of_lookup in Hx as [j Hj].
    discriminate (U (S j) 0%nat x b Hj eq_refl Px Pb).
  - rewrite filter_cons_False by exact Nb. apply IH.
    + intros i j x y Hi Hj Px Py.
      assert (E : S i = S j) by exact (U (S i) (S j) x y Hi Hj Px Py).
      now injection E.
    + apply elem_of_cons in Ha as [->|Ha]; [contradiction|exact Ha].
    + exact Pa.
Qed.

(** In a run nobody has two rows of one date, so a cell holds one role. *)
Lemma reaches_cell ap conn0 start end_ d todo st today a :
  reaches ap conn0 start end_ d todo st today ->
  a ∈ run.schedule st ->
  cell_of (run.schedule st) (sched.Date a) (sched.Employee a) = sched.Shift a.
Proof.
  intros H Ha. unfold cell_of.
  destruct (reaches_calendar _ _ _ _ _ _ _ _ H) as [Hs He].
  rewrite (filter_one _ _ a); [reflexivity| |exact Ha|now split].
  assert (U : ∀ i j x y, (i < j)%nat ->
                run.schedule st !! i = Some x -> run.schedule st !! j = Some y ->
                sched.Date x = sched.Date a ∧ sched.Employee x = sched.Employee a ->
                sched.Date y = sched.Date a ∧ sched.Employee y = sched.Employee a ->
                False).
  { intros i j x y Hij Hi Hj [Dx Ex] [Dy Ey].
    destruct (reaches_cooldown _ _ _ _ Hs He _ _ _ _ H i j x y Hij Hi Hj)
      as (da & db & Hda & Hdb & Hgap); [congruence|].
    unfold day_of in Hda, Hdb. rewrite Dx in Hda. rewrite Dy in Hdb.
    assert (da = db) by congruence. lia. }
  intros i j x y Hi Hj Px Py.
  destruct (Nat.lt_trichotomy i j) as [Hlt|[E|Hgt]]; [|exact E|].
  - destruct (U i j x y Hlt Hi Hj Px Py).
  - destruct (U j i y x Hgt Hj Hi Py Px).
Qed.

Lemma cell_of_none l d e :
  (∀ a, a ∈ l -> ¬ (sched.Date a = d ∧ sched.Employee a = e)) ->
  cell_of l d e = EmptyString.
Proof. intros H. unfold cell_of. now rewrite filter_none. Qed.

(** A run that assigns somebody has a roster. *)
Lemma reaches_roster ap conn0 start end_ d todo st today :
  reaches ap conn0 start end_ d todo st today ->
  (∀ a, a ∈ run.schedule st -> sched.Employee a ∈ sql.name <$> conn0)
  ∧ df.name <$> get_employees (run.conn st) = sql.name <$> conn0.
Proof.
  intros H. destruct (reaches_calendar _ _ _ _ _ _ _ _ H) as [Hs He]. split.
  - intros a [i Hi]%list_elem_of_lookup.
    destruct (reaches_admissible _ _ _ _ Hs He _ _ _ _ H i a Hi)
      as (r & da & Hr & Hn & _).
    rewrite <- Hn, <- get_employees_names. now apply list_elem_of_fmap_2.
  - rewrite get_employees_names.
    apply attrs_names, (reaches_attrs _ _ _ _ _ _ _ _ H).
Qed.

(** What the "Generate" button ends with when the range is in order and the
    engine returns: the range starts on 1000-01-01 or later. *)
Lemma on_generate_export_Ok fuel conn s e ap conn' sch uns :
  1 <= s -> s <= e <= datetime.MAXORDINAL ->
  generate_schedule fuel conn (datetime.strftime s) (datetime.strftime e) ap
  = Some (conn', Ok (sch, uns)) ->
  Y1000 <= s
  ∧ ∃ st today,
      reaches ap conn s e e [] st today
      ∧ conn' = run.conn st ∧ sch = run.schedule st ∧ uns = run.unassigned st
      ∧ on_generate_export fuel conn s e ap
        = Some (conn',
                match export_schedule_as_matrix sch (get_employees conn')
                        (datetime.strftime s) (datetime.strftime e) with
                | inl err => ExportRaised sch uns err
                | inr mat => Exported sch uns mat
                end).
Proof.
  intros Hs He G. pose proof G as G0.
  assert (Hy : Y1000 <= s).
  { destruct (Z_lt_le_dec s Y1000) as [Hlt|Hge]; [|exact Hge].
    unfold generate_schedule in G.
    rewrite strptime_strftime_short in G by lia. discriminate. }
  split; [exact Hy|].
  apply generate_schedule_Ok in G
    as (ds & de & Hds & Hde
        & [(Hlt & _)|(Hr & st & today & H & -> & -> & ->)]);
    rewrite strptime_strftime in Hds, Hde by lia;
    injection Hds as <-; injection Hde as <-; [lia|].
  exists st, today. split; [exact H|]. repeat (split; [reflexivity|]).
  unfold on_generate_export, on_generate.
  destruct (e <? s) eqn:L; [apply Z.ltb_lt in L; lia|].
  rewrite G0.
  now destruct (export_schedule_as_matrix _ _ _ _).
Qed.

(** X21.  The matrix the "Generate" button offers for a store with unique
    names: its rows are the dates of the range and its columns the names of
    the store; every returned assignment shows as its role in the cell of
    its date and person, no assignment being dropped or merged with another;
    the other cells are empty; the row ["Points"] holds what the returned
    rows cost each person. *)
Theorem generated_matrix fuel conn s e ap conn' sch uns mat :
  1 <= s -> e <= datetime.MAXORDINAL ->
  NoDup (sql.name <$> conn) ->
  on_generate_export fuel conn s e ap = Some (conn', Exported sch uns mat) ->
  export.index mat = export_dates s e
  ∧ export.columns mat = sql.name <$> conn
  ∧ (∀ a, a ∈ sch ->
          export.cells mat !! (sched.Date a, sched.Employee a) = Some (sched.Shift a))
  ∧ (∀ d n, d ∈ export.index mat -> n ∈ export.columns mat ->
            (∀ a, a ∈ sch -> ¬ (sched.Date a = d ∧ sched.Employee a = n)) ->
            export.cells mat !! (d, n) = Some EmptyString)
  ∧ (∀ n, n ∈ export.columns mat -> export.points mat !! n = Some (accrued n sch)).
Proof.
  intros Hs He N G.
  assert (Hse : s <= e).
  { unfold on_generate_export, on_generate in G.
    destruct (e <? s) eqn:L; [discriminate|]. now apply Z.ltb_ge in L. }
  assert (G' : generate_schedule fuel conn (datetime.strftime s) (datetime.strftime e) ap
               = Some (conn', Ok (sch, uns))).
  { unfold on_generate_export, on_generate in G.
    destruct (e <? s); [discriminate|].
    destruct (generate_schedule _ _ _ _ _) as [[c [[sch0 uns0]|err]]|];
      [|discriminate|discriminate].
    destruct (export_schedule_as_matrix _ _ _ _); [discriminate|].
    now injection G as -> -> -> _. }
  destruct (on_generate_export_Ok _ _ _ _ _ _ _ _ Hs (conj Hse He) G')
    as (Hy & st & today & H & -> & -> & -> & E).
  rewrite E in G. clear E.
  destruct (reaches_roster _ _ _ _ _ _ _ _ H) as [Hemp Hnames].
  assert (Rs : datetime.strptime (datetime.strftime s) = Some s)
    by (apply strptime_strftime; lia).
  assert (Re : datetime.strptime (datetime.strftime e) = Some e)
    by (apply strptime_strftime; lia).
  destruct (get_employees (run.conn st)) as [|r0 l0] eqn:Eg.
  { (* an empty roster: the schedule is empty and the export raises *)
    destruct (run.schedule st) as [|a l] eqn:Es.
    - unfold export_schedule_as_matrix in G. rewrite Rs, Re in G. discriminate.
    - exfalso. cbn in Hnames. assert (Ha : sched.Employee a ∈ sql.name <$> conn)
        by (apply Hemp; left).
      rewrite <- Hnames in Ha. inversion Ha. }
  rewrite <- Eg in *. clear Eg r0 l0.
  assert (Hne : get_employees (run.conn st) <> []).
  { intros E0. rewrite E0 in Hnames. cbn in Hnames.
    destruct (export_schedule_as_matrix _ _ _ _) eqn:X in G; [discriminate|].
    unfold export_schedule_as_matrix in X. rewrite Rs, Re, E0 in X.
    destruct (run.schedule st) as [|a l] eqn:Es; [discriminate|].
    assert (Ha : sched.Employee a ∈ sql.name <$> conn) by (apply Hemp; left).
    rewrite <- Hnames in Ha. inversion Ha. }
  rewrite (export_unfold _ _ _ _ s e Rs Re Hne) in G.
  destruct (export_frame (export_dates s e) (df.name <$> get_employees (run.conn st))
              (run.schedule st))
    as (mat' & Hm & Hi & Hc & Hcells & Hpts).
  { apply export_dates_NoDup; lia. }
  { now rewrite Hnames. }
  rewrite Hm in G. injection G as <-.
  rewrite Hnames in Hc, Hcells, Hpts. rewrite Hi, Hc.
  split; [reflexivity|]. split; [reflexivity|]. split; [|split].
  - intros a Ha. rewrite Hcells, bool_decide_eq_true_2.
    + f_equal. exact (reaches_cell _ _ _ _ _ _ _ _ a H Ha).
    + split; [|now apply Hemp].
      destruct (reaches_rows _ _ _ _ _ _ _ _ H a Ha) as (d' & Hd' & -> & _).
      apply export_dates_elem. eauto.
  - intros d n Hd Hn Hnone. rewrite Hcells, bool_decide_eq_true_2 by now split.
    f_equal. now apply cell_of_none.
  - intros n Hn. now rewrite Hpts, bool_decide_eq_true_2.
Qed.

(** ** The demo data *)

Lemma seed_cons_good name initial max off pref allow l conn :
  int64 initial = true -> int64 max = true ->
  seed ((name, initial, max, off, pref, allow) :: l) conn
  = seed l (add_or_update_employee conn name initial max (Some off)
              (if pystr.truthy (Some pref) then Some pref else None)
              (Some allow)).1.
Proof.
  intros Hi Hm. cbn [seed].
  now rewrite (add_or_update_employee_Ok conn name initial max _ _ _ Hi Hm).
Qed.

Lemma seed_cons_bad name initial max off pref allow l conn :
  int64 initial && int64 max = false ->
  seed ((name, initial, max, off, pref, allow) :: l) conn
  = (conn, Raise OverflowError).
Proof.
  intros H. cbn [seed].
  now rewrite (add_or_update_employee_Raise conn name initial max _ _ _ H).
Qed.

(** An upsert that returns leaves the person with the columns given, and
    the rows of the other names as they were. *)
Lemma upsert_columns conn name ip mp od pz az :
  int64 ip = true -> int64 mp = true ->
  let conn' := (add_or_update_employee conn name ip mp od pz az).1 in
  name ∈ sql.name <$> conn'
  ∧ (∀ n, n ∈ sql.name <$> conn -> n ∈ sql.name <$> conn')
  ∧ ∀ r, r ∈ conn' ->
      if String.eqb (sql.name r) name
      then columns_of r = (Some mp, Some (pystr.join "," (default [] od)), pz,
                           Some (pystr.join "," (default [] az)))
      else r ∈ conn.
Proof.
  intros Hi Hm conn'.
  assert (Hnames : sql.name <$> conn'
                   = if bool_decide (name ∈ sql.name <$> conn) then sql.name <$> conn
                     else (sql.name <$> conn) ++ [name]).
  { unfold conn'. now rewrite add_or_update_employee_names, Hi, Hm. }
  split; [|split].
  - rewrite Hnames. destruct (bool_decide _) eqn:B.
    + now apply bool_decide_eq_true in B.
    + apply elem_of_app. right. left.
  - intros n Hn. rewrite Hnames. destruct (bool_decide _); [exact Hn|].
    apply elem_of_app. now left.
  - intros r Hr. unfold conn', add_or_update_employee in Hr.
    rewrite Hi, Hm in Hr. cbn [andb fst] in Hr.
    apply list_elem_of_fmap in Hr as (q & -> & Hq).
    destruct (String.eqb_spec (sql.name q) name) as [E|Hne]; cbn [sql.name].
    + rewrite E, String.eqb_refl. reflexivity.
    + destruct (String.eqb_spec (sql.name q) name); [contradiction|].
      unfold insert_or_ignore in Hq. cbn [sql.name] in Hq.
      destruct (bool_decide _); [exact Hq|].
      apply elem_of_app in Hq as [Hq|Hq%list_elem_of_singleton]; [exact Hq|].
      subst q. now cbn in Hne.
Qed.

(** An upsert of a person who is in the store with the columns given
    rewrites what is there. *)
Lemma upsert_noop conn name ip mp od pz az :
  int64 ip = true -> int64 mp = true ->
  name ∈ sql.name <$> conn ->
  (∀ r, r ∈ conn -> sql.name r = name ->
     columns_of r = (Some mp, Some (pystr.join "," (default [] od)), pz,
                     Some (pystr.join "," (default [] az)))) ->
  add_or_update_employee conn name ip mp od pz az = (conn, Ok tt).
Proof.
  intros Hi Hm Hin Hcols.
  unfold add_or_update_employee, insert_or_ignore. cbn [sql.name].
  rewrite Hi, Hm. cbn [andb]. f_equal.
  rewrite bool_decide_eq_true_2 by exact Hin.
  rewrite <- (map_id conn) at 2. apply map_ext_in. intros r Hr%list_elem_of_In.
  destruct (String.eqb_spec (sql.name r) name) as [E|Hne]; [|reflexivity].
  specialize (Hcols r Hr E). unfold columns_of in Hcols.
  destruct r as [n p m o pz' az']. cbn in Hcols, E |- *. congruence.
Qed.

(** The loop leaves the rows of the names it does not list, and removes no
    name. *)
Lemma seed_keeps l :
  ∀ conn n,
    (n ∈ sql.name <$> conn -> n ∈ sql.name <$> (seed l conn).1)
    ∧ (n ∉ emp_name <$> l ->
       ∀ r, r ∈ (seed l conn).1 -> sql.name r = n -> r ∈ conn).
Proof.
  induction l as [|[[[[[name initial] max] off] pref] allow] l IH]; intros conn n.
  { split; [auto|]. intros _ r Hr _. exact Hr. }
  destruct (int64 initial && int64 max) eqn:B.
  - apply andb_true_iff in B as [Hi Hm].
    rewrite (seed_cons_good _ _ _ _ _ _ _ _ Hi Hm).
    set (od := Some off). set (az := Some allow).
    set (pz := if pystr.truthy (Some pref) then Some pref else None).
    destruct (upsert_columns conn name initial max od pz az Hi Hm)
      as (_ & Hnames & Hrows).
    destruct (IH (add_or_update_employee conn name initial max od pz az).1 n)
      as [IH1 IH2].
    split.
    + intros Hn. apply IH1, Hnames, Hn.
    + intros Hn r Hr En. rewrite fmap_cons, not_elem_of_cons in Hn.
      destruct Hn as [Hne Hn]. specialize (IH2 Hn r Hr En).
      specialize (Hrows r IH2).
      destruct (String.eqb_spec (sql.name r) name) as [E|_]; [|exact Hrows].
      exfalso. apply Hne. now rewrite <- En, E.
  - rewrite (seed_cons_bad _ _ _ _ _ _ _ _ B). cbn [fst]. split; [auto|].
    intros _ r Hr _. exact Hr.
Qed.

(** X23.  Inserting a list of persons with distinct names twice is
    inserting it once, whatever the store held: the second pass finds every
    person and rewrites the same columns, and it ends as the first, also
    when an entry makes the loop raise. *)
Theorem seed_twice l conn :
  NoDup (emp_name <$> l) ->
  seed l (seed l conn).1 = seed l conn.
Proof.
  revert conn.
  induction l as [|[[[[[name initial] max] off] pref] allow] l IH]; intros conn N;
    [reflexivity|].
  rewrite fmap_cons in N. apply NoDup_cons in N as [Hx N].
  change (emp_name (name, initial, max, off, pref, allow)) with name in Hx.
  destruct (int64 initial && int64 max) eqn:B.
  - apply andb_true_iff in B as [Hi Hm].
    rewrite !(seed_cons_good _ _ _ _ _ _ _ _ Hi Hm).
    set (od := Some off). set (az := Some allow).
    set (pz := if pystr.truthy (Some pref) then Some pref else None).
    set (c1 := (add_or_update_employee conn name initial max od pz az).1).
    destruct (upsert_columns conn name initial max od pz az Hi Hm)
      as (Hin & _ & Hrows). fold c1 in Hin, Hrows.
    destruct (seed_keeps l c1 name) as [K1 K2].
    rewrite (upsert_noop (seed l c1).1 name initial max od pz az Hi Hm).
    + cbn [fst]. now apply IH.
    + now apply K1.
    + intros r Hr En. specialize (Hrows r (K2 Hx r Hr En)).
      now rewrite En, String.eqb_refl in Hrows.
  - rewrite !(seed_cons_bad _ _ _ _ _ _ _ _ B). reflexivity.
Qed.
(** ** The flag [apply_points] *)

Lemma omap_candidate_attrs ds cur pv z st1 st2 today (l1 : list df.row) :
  run.points_map st1 = run.points_map st2 ->
  run.assigned_last st1 = run.assigned_last st2 ->
  ∀ l2 : list df.row, df_attrs <$> l1 = df_attrs <$> l2 ->
    omap (candidate ds cur pv z st1 today) l1
    = omap (candidate ds cur pv z st2 today) l2.
Proof.
  intros Epm Eal. induction l1 as [|r1 l1 IH]; intros [|r2 l2] E;
    try discriminate; [reflexivity|].
  rewrite !fmap_cons in E.
  assert (E1 : df_attrs r1 = df_attrs r2) by congruence.
  assert (E2 : df_attrs <$> l1 = df_attrs <$> l2) by congruence.
  cbn [omap list_omap].
  rewrite (candidate_attrs _ _ _ _ _ _ r1 r2 E1).
  rewrite (candidate_state _ _ _ _ st1 st2 _ _ Epm Eal).
  now rewrite (IH l2 E2).
Qed.

Lemma zone_body_flag ap1 ap2 ds cur pv st1 st2 today zone :
  same_decisions st1 st2 ->
  same_decisions (zone_body ap1 ds cur pv (st1, today) zone).1
                 (zone_body ap2 ds cur pv (st2, today) zone).1
  ∧ (zone_body ap1 ds cur pv (st1, today) zone).2
    = (zone_body ap2 ds cur pv (st2, today) zone).2.
Proof.
  intros (Ea & Epm & Eal & Es & Eu). unfold zone_body. cbv zeta.
  pose proof (get_employees_attrs _ _ Ea) as Ed.
  rewrite (omap_candidate_attrs ds cur pv zone st1 st2 today _ Epm Eal _ Ed).
  generalize (sort (omap (candidate ds cur pv zone st2 today)
                         (get_employees (run.conn st2)))).
  intros cands.
  destruct (get_employees (run.conn st1)) as [|r1 l1];
    destruct (get_employees (run.conn st2)) as [|r2 l2]; try discriminate.
  - unfold same_decisions. cbn. rewrite Eu. repeat split; auto.
  - destruct cands as [|[[p pts] chosen] tl]; unfold same_decisions; cbn.
    + rewrite Eu. repeat split; auto.
    + rewrite Epm, Eal, Es. repeat split; auto.
      destruct ap1, ap2; rewrite ?update_points_attrs; exact Ea.
Qed.

Lemma fold_zones_flag ap1 ap2 ds cur pv zones :
  ∀ st1 st2 today,
    same_decisions st1 st2 ->
    same_decisions (fold_left (zone_body ap1 ds cur pv) zones (st1, today)).1
                   (fold_left (zone_body ap2 ds cur pv) zones (st2, today)).1.
Proof.
  induction zones as [|z zones IH]; intros st1 st2 today S; cbn [fold_left].
  - exact S.
  - destruct (zone_body_flag ap1 ap2 ds cur pv st1 st2 today z S) as [S' E'].
    destruct (zone_body ap1 ds cur pv (st1, today) z) as [s1 t1].
    destruct (zone_body ap2 ds cur pv (st2, today) z) as [s2 t2].
    cbn in S', E'. subst t2. now apply IH.
Qed.

Lemma day_body_flag ap1 ap2 d st1 st2 :
  same_decisions st1 st2 ->
  same_decisions (day_body ap1 d st1).1 (day_body ap2 d st2).1
  ∧ (day_body ap1 d st1).2 = (day_body ap2 d st2).2.
Proof.
  intros S. unfold day_body. destruct (is_weekend _) as [w|e]; cbn [fst snd].
  - split; [now apply fold_zones_flag|reflexivity].
  - now split.
Qed.

Lemma while_days_flag ap1 ap2 fuel :
  ∀ end_ d st1 st2,
    same_decisions st1 st2 ->
    match while_days fuel ap1 end_ d st1, while_days fuel ap2 end_ d st2 with
    | Some (s1, o1), Some (s2, o2) => same_decisions s1 s2 ∧ o1 = o2
    | None, None => True
    | _, _ => False
    end.
Proof.
  induction fuel as [|fuel IH]; intros end_ d st1 st2 S; cbn [while_days];
    [exact I|].
  destruct (d <=? end_); [|now split].
  destruct (day_body_flag ap1 ap2 d st1 st2 S) as [S' E'].
  destruct (day_body ap1 d st1) as [s1 o1]. destruct (day_body ap2 d st2) as [s2 o2].
  cbn in S', E'. subst o2. destruct o1 as [[]|e]; [|now split].
  destruct (d + 1 <=? datetime.MAXORDINAL); [|now split].
  now apply IH.
Qed.

(** X24.  The flag [apply_points] changes what is written to the store and
    nothing else: with and without it a call returns the same two tables, or
    raises the same error, and leaves every column but the load as it was. *)
Theorem apply_points_same_schedule fuel conn start_date end_date :
  snd <$> generate_schedule fuel conn start_date end_date true
  = snd <$> generate_schedule fuel conn start_date end_date false
  ∧ ∀ conn' out,
      generate_schedule fuel conn start_date end_date true = Some (conn', out) ->
      attrs <$> conn' = attrs <$> conn.
Proof.
  unfold generate_schedule.
  destruct (datetime.strptime start_date) as [ds|]; [|split; [reflexivity|]].
  2:{ now intros conn' out [= <- _]. }
  destruct (datetime.strptime end_date) as [de|]; [|split; [reflexivity|]].
  2:{ now intros conn' out [= <- _]. }
  pose proof (while_days_flag true false fuel de ds
                (run.mk conn (initial_points_map (get_employees conn)) ∅ [] [])
                (run.mk conn (initial_points_map (get_employees conn)) ∅ [] [])) as F.
  pose proof (while_days_flag true true fuel de ds
                (run.mk conn (initial_points_map (get_employees conn)) ∅ [] [])
                (run.mk conn (initial_points_map (get_employees conn)) ∅ [] [])) as F0.
  assert (S0 : same_decisions
                 (run.mk conn (initial_points_map (get_employees conn)) ∅ [] [])
                 (run.mk conn (initial_points_map (get_employees conn)) ∅ [] []))
    by (unfold same_decisions; auto).
  specialize (F S0). clear F0.
  destruct (while_days fuel true de ds _) as [[s1 o1]|];
    destruct (while_days fuel false de ds _) as [[s2 o2]|] eqn:W2;
    try contradiction; [|split; [reflexivity|discriminate]].
  destruct F as [(Ea & _ & _ & Es & Eu) ->].
  apply while_days_frame in W2. cbn in W2.
  split.
  - destruct o2 as [[]|e]; cbn; [now rewrite Es, Eu|reflexivity].
  - intros conn' out H.
    assert (conn' = run.conn s1) as ->
      by (destruct o2 as [[]|e]; now injection H as <- _).
    now rewrite Ea, W2.
Qed.

(** ** The further properties at concrete inputs *)

Lemma primary_key_kept_witness :
  NoDup (sql.name <$> roster_xy)
  ∧ NoDup (sql.name <$> (add_or_update_employee roster_xy "Z" 0 10 None None None).1)
  ∧ NoDup (sql.name <$> (delete_employees roster_xy (inl "X"%string)).1).
Proof.
  assert (N : NoDup (sql.name <$> roster_xy))
    by (apply (bool_decide_unpack (NoDup _)); vm_compute; exact I).
  split; [exact N|]. split.
  - exact (proj1 (primary_key_kept roster_xy N) "Z"%string 0 10 None None None).
  - exact (proj2 (proj2 (proj2 (primary_key_kept roster_xy N))) (inl "X"%string)).
Defined.

Lemma upsert_read_back_witness :
  (∃ r,
     r ∈ get_employees
           (add_or_update_employee roster_xy "Y" 0 7
              (Some ["2025-08-12"; "2025-08-20"]%string) None
              (Some ["A"; "B"]%string)).1
     ∧ df.name r = "Y"%string
     ∧ df.max_points r = Some 7
     ∧ df.off_days r = ["2025-08-12"; "2025-08-20"]%string
     ∧ df.preferred_zone r = None
     ∧ df.allowed_zones r = filter (fun s => s <> EmptyString) ["A"; "B"]%string)
  ∧ add_or_update_employee roster_xy "Y" 0 (- 2 ^ 63 - 1)
      (Some ["2025-08-12"; "2025-08-20"]%string) None (Some ["A"; "B"]%string)
    = (roster_xy, Raise OverflowError).
Proof.
  split.
  - destruct (upsert_read_back roster_xy "Y" 0 7 ["2025-08-12"; "2025-08-20"]%string
                None ["A"; "B"]%string) as [H _].
    + repeat constructor; discriminate.
    + repeat constructor.
    + destruct (H eq_refl eq_refl) as (_ & (r & Hr & Hn) & Hall).
      exists r. split; [exact Hr|]. split; [exact Hn|]. exact (Hall r Hr Hn).
  - destruct (upsert_read_back roster_xy "Y" 0 (- 2 ^ 63 - 1)
                ["2025-08-12"; "2025-08-20"]%string None ["A"; "B"]%string)
      as [_ H].
    + repeat constructor; discriminate.
    + repeat constructor.
    + exact (H eq_refl).
Defined.

Lemma upsert_twice_witness :
  add_or_update_employee
    (add_or_update_employee roster_xy "Z" 5 7 None None None).1
    "Z" 9 8 None (Some "A"%string) None
  = add_or_update_employee roster_xy "Z" 5 8 None (Some "A"%string) None
  ∧ add_or_update_employee
      (add_or_update_employee roster_xy "Z" (2 ^ 63) 7 None None None).1
      "Z" 9 8 None None None
    = add_or_update_employee roster_xy "Z" 9 8 None None None.
Proof.
  split.
  - exact (proj2 (proj1 (upsert_twice roster_xy "Z" 5 7 None None None
                           9 8 None (Some "A"%string) None)
                    eq_refl eq_refl eq_refl eq_refl)).
  - exact (proj2 (proj1 (proj2 (upsert_twice roster_xy "Z" (2 ^ 63) 7 None None None
                                  9 8 None None None))
                    eq_refl)).
Defined.


Lemma update_points_additive_witness :
  update_points (update_points roster_xy "Y" 2) "Y" 3 = update_points roster_xy "Y" 5
  ∧ sql.points <$> update_points roster_xy "Y" 5 = [Some 0; Some 8].
Proof.
  split; [|vm_compute; reflexivity].
  refine (proj1 (update_points_additive roster_xy "Y" 2 3 eq_refl eq_refl eq_refl _)).
  intros r v Hr Hv.
  assert (E : sql.points <$> roster_xy = [Some 0; Some 3]) by (vm_compute; reflexivity).
  assert (Hin : Some v ∈ sql.points <$> roster_xy)
    by (rewrite <- Hv; now apply list_elem_of_fmap_2).
  rewrite E in Hin.
  apply elem_of_cons in Hin as [[= ->]|Hin]; [repeat split; reflexivity|].
  apply list_elem_of_singleton in Hin as [= ->]. repeat split; reflexivity.
Defined.

Lemma on_save_employee_read_back_witness :
  (on_save_employee roster_xy "Z" 0 10 " 2025-08-12, ,2025-08-20 ," "I"
     ["I"; "E"]%string).2 = Ok tt
  ∧ ∃ r,
      r ∈ get_employees
            (on_save_employee roster_xy "Z" 0 10 " 2025-08-12, ,2025-08-20 ," "I"
               ["I"; "E"]%string).1
      ∧ df.name r = "Z"%string
      ∧ df.max_points r = Some 10
      ∧ df.off_days r = ["2025-08-12"; "2025-08-20"]%string
      ∧ df.allowed_zones r = ["I"; "E"]%string
      ∧ pystr.strip (default EmptyString (df.preferred_zone r)) = "I"%string.
Proof.
  destruct (on_save_employee_read_back roster_xy "Z" 0 10
              " 2025-08-12, ,2025-08-20 ," "I" ["I"; "E"]%string)
    as [Hok Hread].
  - repeat constructor; apply (bool_decide_unpack (_ ∈ _)); vm_compute; exact I.
  - apply (bool_decide_unpack (_ ∈ _)). vm_compute. exact I.
  - specialize (Hok ltac:(lia) ltac:(lia)). split; [exact Hok|].
    destruct (Hread Hok) as [(r & Hr & Hn) Hall].
    exists r. split; [exact Hr|]. split; [exact Hn|]. exact (Hall r Hr Hn).
Defined.

Lemma assignments_respect_roster_witness :
  generate_schedule 6 roster_xy "2025-08-01" "2025-08-04" false
  = Some (roster_xy, Ok (sch_xy, uns_xy))
  ∧ sched.mk "2025-08-04" "B" "X" 1 ∈ sch_xy
  ∧ ∃ r, r ∈ get_employees roster_xy ∧ df.name r = "X"%string
         ∧ ("2025-08-04"%string ∉ df.off_days r)
         ∧ "B"%string ∈ df.allowed_zones r.
Proof.
  assert (G : generate_schedule 6 roster_xy "2025-08-01" "2025-08-04" false
              = Some (roster_xy, Ok (sch_xy, uns_xy))) by (vm_compute; reflexivity).
  assert (Ha : sched.mk "2025-08-04" "B" "X" 1 ∈ sch_xy)
    by (apply (list_elem_of_lookup_2 _ 2%nat); reflexivity).
  split; [exact G|]. split; [exact Ha|].
  exact (proj2 (proj2 (assignments_respect_roster 6 roster_xy "2025-08-01" "2025-08-04"
                         false roster_xy sch_xy uns_xy G _ Ha))).
Defined.

Lemma final_load_within_ceiling_witness :
  NoDup (sql.name <$> roster_xy)
  ∧ generate_schedule 6 roster_xy "2025-08-01" "2025-08-04" false
    = Some (roster_xy, Ok (sch_xy, uns_xy))
  ∧ sched.mk "2025-08-04" "B" "X" 1 ∈ sch_xy
  ∧ ∃ q, q ∈ roster_xy ∧ sql.name q = "X"%string
         ∧ default 0 (sql.points q) + accrued "X" sch_xy
           <= default 0 (sql.max_points q).
Proof.
  assert (N : NoDup (sql.name <$> roster_xy))
    by (apply (bool_decide_unpack (NoDup _)); vm_compute; exact I).
  assert (G : generate_schedule 6 roster_xy "2025-08-01" "2025-08-04" false
              = Some (roster_xy, Ok (sch_xy, uns_xy))) by (vm_compute; reflexivity).
  assert (Ha : sched.mk "2025-08-04" "B" "X" 1 ∈ sch_xy)
    by (apply (list_elem_of_lookup_2 _ 2%nat); reflexivity).
  split; [exact N|]. split; [exact G|]. split; [exact Ha|].
  exact (final_load_within_ceiling 6 roster_xy "2025-08-01" "2025-08-04"
           false roster_xy sch_xy uns_xy N G _ Ha).
Defined.

Lemma applied_points_persist_witness :
  generate_schedule 3 roster_nx "2025-08-01" "2025-08-01" true
  = Some (update_points roster_nx "X" 1, Ok (sch_nx, uns_nx))
  ∧ update_points roster_nx "X" 1
    = (fun q => with_load (accrued (sql.name q) sch_nx) q) <$> roster_nx.
Proof.
  assert (G : generate_schedule 3 roster_nx "2025-08-01" "2025-08-01" true
              = Some (update_points roster_nx "X" 1, Ok (sch_nx, uns_nx)))
    by (vm_compute; reflexivity).
  split; [exact G|].
  exact (applied_points_persist 3 roster_nx "2025-08-01" "2025-08-01" _ _ _ G).
Defined.


Lemma overflow_after_writes_witness :
  datetime.strptime "9999-12-31" = Some datetime.MAXORDINAL
  ∧ (∃ st today,
       reaches true roster_xy datetime.MAXORDINAL datetime.MAXORDINAL
         datetime.MAXORDINAL [] st today
       ∧ generate_schedule 2 roster_xy "9999-12-31" "9999-12-31" true
         = Some ((fun q => with_load (accrued (sql.name q) (run.schedule st)) q)
                   <$> roster_xy,
                 Raise OverflowError))
  ∧ datetime.strptime "0999-12-31" = Some 364877
  ∧ generate_schedule 1 roster_xy "0999-12-31" "9999-12-31" true
    = Some (roster_xy, Raise ValueError).
Proof.
  assert (H : datetime.strptime "9999-12-31" = Some datetime.MAXORDINAL)
    by (vm_compute; reflexivity).
  assert (H' : datetime.strptime "0999-12-31" = Some 364877)
    by (vm_compute; reflexivity).
  split; [exact H|]. split; [|split; [exact H'|]].
  - apply (overflow_after_writes 2 roster_xy "9999-12-31" "9999-12-31"
             datetime.MAXORDINAL H H).
    + vm_compute. discriminate.
    + vm_compute. reflexivity.
  - apply (overflow_after_writes 0 roster_xy "0999-12-31" "9999-12-31"
             364877 H' H).
    vm_compute. reflexivity.
Defined.

Lemma empty_roster_run_witness :
  generate_schedule 4 [] "2025-08-01" "2025-08-02" true
  = Some ([], Ok ([], (fun s => unas.mk s.1 s.2 "No employees")
                        <$> slots 739464 739465)).
Proof.
  apply (empty_roster_run 4 "2025-08-01" "2025-08-02" true 739464 739465).
  - vm_compute. reflexivity.
  - vm_compute. reflexivity.
  - vm_compute. discriminate.
  - unfold datetime.MAXORDINAL. lia.
  - vm_compute. reflexivity.
Defined.

Lemma rows_in_loop_order_witness :
  generate_schedule 6 roster_xy "2025-08-01" "2025-08-04" false
  = Some (roster_xy, Ok (sch_xy, uns_xy))
  ∧ (sched_slot <$> sch_xy) `sublist_of` slots 739464 739467
  ∧ (unas_slot <$> uns_xy) `sublist_of` slots 739464 739467
  ∧ (length sch_xy + length uns_xy = 5 * Z.to_nat (739467 - 739464 + 1))%nat.
Proof.
  assert (G : generate_schedule 6 roster_xy "2025-08-01" "2025-08-04" false
              = Some (roster_xy, Ok (sch_xy, uns_xy))) by (vm_compute; reflexivity).
  split; [exact G|].
  apply (rows_in_loop_order 6 roster_xy "2025-08-01" "2025-08-04" false
           roster_xy sch_xy uns_xy 739464 739467 G).
  - vm_compute. reflexivity.
  - vm_compute. reflexivity.
Defined.

Lemma unassigned_means_nobody_admissible_witness :
  NoDup (sql.name <$> roster_xy)
  ∧ generate_schedule 6 roster_xy "2025-08-01" "2025-08-04" false
    = Some (roster_xy, Ok (sch_xy, uns_xy))
  ∧ unas.mk "2025-08-01" "A" "No eligible employees" ∈ uns_xy
  ∧ ∃ ds d done todo,
      datetime.strptime "2025-08-01" = Some ds
      ∧ ds <= d
      ∧ "2025-08-01"%string = datetime.strftime d
      ∧ ZONES = done ++ "A"%string :: todo
      ∧ (roster_xy <> [] -> "No eligible employees"%string = "No eligible employees"%string)
      ∧ ∀ r, r ∈ get_employees roster_xy ->
             ¬ admissible roster_xy (rows_before ds d done sch_xy) d "A" r.
Proof.
  assert (N : NoDup (sql.name <$> roster_xy))
    by (apply (bool_decide_unpack (NoDup _)); vm_compute; exact I).
  assert (G : generate_schedule 6 roster_xy "2025-08-01" "2025-08-04" false
              = Some (roster_xy, Ok (sch_xy, uns_xy))) by (vm_compute; reflexivity).
  assert (Hu : unas.mk "2025-08-01" "A" "No eligible employees" ∈ uns_xy) by left.
  split; [exact N|]. split; [exact G|]. split; [exact Hu|].
  exact (unassigned_means_nobody_admissible 6 roster_xy "2025-08-01" "2025-08-04"
           false roster_xy sch_xy uns_xy N G _ Hu).
Defined.

Lemma weekly_cost_witness :
  is_weekend (datetime.strftime 739472) = Ok true
  ∧ is_weekend (datetime.strftime 739467) = Ok false
  ∧ foldr Z.add 0 (dayLoadCost <$> seqZ 739467 7) = 9
  ∧ is_weekend (datetime.strftime 364877) = Raise ValueError.
Proof.
  destruct (proj1 (weekly_cost 739467)) as (Hx & Hsum & _).
  - vm_compute. discriminate.
  - unfold datetime.MAXORDINAL. lia.
  - split; [exact (proj1 (Hx 739472 ltac:(lia)))|].
    split; [exact (proj1 (Hx 739467 ltac:(lia)))|].
    split; [exact Hsum|].
    apply (proj2 (weekly_cost 364877)). unfold Y1000. lia.
Defined.

Lemma blank_input_names_nobody_witness :
  blank " , ," = true
  ∧ on_delete roster_xy " , ," = (roster_xy, 0)
  ∧ on_reset roster_xy "Selected" " , ,"
    = (roster_xy, inr "Please enter at least one name."%string).
Proof.
  assert (B : blank " , ," = true) by reflexivity.
  split; [exact B|].
  destruct (proj2 (blank_input_names_nobody roster_xy " , ,") B) as (H1 & H2 & _).
  split; [exact H1|]. apply H2. discriminate.
Defined.

Lemma export_dates_follow_loop_witness :
  export_dates 739464 739467
  = ["2025-08-01"; "2025-08-02"; "2025-08-03"; "2025-08-04"]%string
  ∧ NoDup (export_dates 739464 739467)
  ∧ export_dates 364877 364878 = ["999-12-31"; "1000-01-01"]%string.
Proof.
  split; [vm_compute; reflexivity|]. split; [|vm_compute; reflexivity].
  apply (export_dates_follow_loop 739464 739467).
  - lia.
  - unfold datetime.MAXORDINAL. lia.
Defined.


Lemma export_without_roster_witness :
  export_schedule_as_matrix [] [] "2025-08-01" "2025-08-04" = inl export.KeyError
  ∧ ∃ mat,
      export_schedule_as_matrix sch_xy [] "2025-08-01" "2025-08-04" = inr mat
      ∧ export.columns mat = ["X"; "Y"]%string.
Proof.
  destruct (export_without_roster [] "2025-08-01" "2025-08-04" 739464 739467)
    as [H1 _]; [vm_compute; reflexivity|vm_compute; reflexivity|].
  destruct (export_without_roster sch_xy "2025-08-01" "2025-08-04" 739464 739467)
    as [_ H2]; [vm_compute; reflexivity|vm_compute; reflexivity|].
  split; [exact (H1 eq_refl)|].
  destruct (H2 ltac:(discriminate)) as (mat & Hm & _).
  exists mat. split; [exact Hm|].
  assert (E : inr mat = export_schedule_as_matrix sch_xy [] "2025-08-01" "2025-08-04")
    by (symmetry; exact Hm).
  vm_compute in E. injection E as ->. reflexivity.
Defined.

Lemma generated_matrix_witness :
  ∃ mat,
    on_generate_export 6 roster_xy 739464 739467 false
    = Some (roster_xy, Exported sch_xy uns_xy mat)
    ∧ export.index mat = export_dates 739464 739467
    ∧ export.columns mat = sql.name <$> roster_xy
    ∧ export.cells mat !! ("2025-08-04", "X")%string = Some "B"%string
    ∧ export.points mat !! "X"%string = Some (accrued "X" sch_xy).
Proof.
  assert (G : { mat | on_generate_export 6 roster_xy 739464 739467 false
                      = Some (roster_xy, Exported sch_xy uns_xy mat) })
    by (eexists; vm_compute; reflexivity).
  destruct G as [mat G]. exists mat. split; [exact G|].
  assert (N : NoDup (sql.name <$> roster_xy))
    by (apply (bool_decide_unpack (NoDup _)); vm_compute; exact I).
  destruct (generated_matrix 6 roster_xy 739464 739467 false roster_xy sch_xy uns_xy
              mat ltac:(lia) ltac:(unfold datetime.MAXORDINAL; lia) N G)
    as (Hi & Hc & Hcells & _ & Hpts).
  split; [exact Hi|]. split; [exact Hc|]. split.
  - apply (Hcells (sched.mk "2025-08-04" "B" "X" 1)).
    apply (list_elem_of_lookup_2 _ 2%nat). reflexivity.
  - apply Hpts. rewrite Hc. left.
Defined.


Lemma seed_twice_witness :
  NoDup (emp_name <$> demo_dataset)
  ∧ seed demo_dataset [] = (demo_employees, Ok tt)
  ∧ seed demo_dataset (seed demo_dataset roster_xy).1 = seed demo_dataset roster_xy.
Proof.
  assert (N : NoDup (emp_name <$> demo_dataset))
    by (apply (bool_decide_unpack (NoDup _)); vm_compute; exact I).
  split; [exact N|]. split; [vm_compute; reflexivity|].
  exact (seed_twice demo_dataset roster_xy N).
Defined.

Lemma apply_points_same_schedule_witness :
  generate_schedule 3 roster_nx "2025-08-01" "2025-08-01" true
  = Some (update_points roster_nx "X" 1, Ok (sch_nx, uns_nx))
  ∧ attrs <$> update_points roster_nx "X" 1 = attrs <$> roster_nx.
Proof.
  assert (G : generate_schedule 3 roster_nx "2025-08-01" "2025-08-01" true
              = Some (update_points roster_nx "X" 1, Ok (sch_nx, uns_nx)))
    by (vm_compute; reflexivity).
  split; [exact G|].
  exact (proj2 (apply_points_same_schedule 3 roster_nx "2025-08-01" "2025-08-01") _ _ G).
Defined.

